(** * impactutils: colour palettes and strong-motion station tables

    A shallow embedding of [impactutils/colors/cpalette.py] and
    [impactutils/io/table.py], and the properties of their specification.

    Numbers.  Python and numpy numbers are modelled by rationals extended
    with the three IEEE special values (type [xfloat]).  A number also
    remembers whether it is a numpy scalar or a plain Python number, and
    whether it is an integer or a float (type [num]): dividing by zero
    raises [ZeroDivisionError] for Python numbers and yields [nan]/[inf]
    for numpy scalars, a difference of [int64] numbers wraps around, and a
    [float64] result beyond the largest double is an infinity.  The
    rounding of finite [float64] results is modelled where a text is
    converted to a float and compared ([table.py]), and not in the
    arithmetic of the palette. *)

From Stdlib Require Import QArith Qround ZArith List String Ascii Bool Lia.
From Stdlib Require Import DecimalString Lqa.
From Stdlib Require Import Sorting Permutation.
Import ListNotations.

Set Implicit Arguments.
Set Warnings "-register-all".

(* ================================================================= *)
(** ** Exceptions and the error monad *)

Inductive exn : Type :=
| Exception (msg : string)
| KeyError (msg : string)
| ValueError (msg : string)
| IndexError (msg : string)
| AttributeError (msg : string)
| TypeError (msg : string)
| ZeroDivisionError
| OverflowError
| ParserError
| UnboundLocalError (var : string).

Inductive result (A : Type) : Type :=
| Ok (a : A)
| Raise (e : exn).

Arguments Ok {A} a.
Arguments Raise {A} e.

Definition bind {A B : Type} (c : result A) (k : A -> result B) : result B :=
  match c with
  | Ok a => k a
  | Raise e => Raise e
  end.

Notation "x <- c ;; k" := (bind c (fun x => k))
  (at level 61, c at next level, right associativity).
Notation "' p <- c ;; k" := (bind c (fun p => k))
  (at level 61, p pattern, c at next level, right associativity).

Definition is_ok {A : Type} (r : result A) : bool :=
  match r with Ok _ => true | Raise _ => false end.

(** [len(l)] of a sequence. *)
Definition len {A : Type} (l : list A) : nat := List.length l.

(** [l[i]] for a non-negative index. *)
Definition getitem {A : Type} (l : list A) (i : nat) : result A :=
  match nth_error l i with
  | Some a => Ok a
  | None => Raise (IndexError "list index out of range")
  end.

(** [l[-1]]. *)
Definition getlast {A : Type} (l : list A) : result A :=
  match rev l with
  | a :: _ => Ok a
  | [] => Raise (IndexError "index -1 is out of bounds")
  end.

(* ================================================================= *)
(** ** Floating-point values: rationals with [inf], [-inf] and [nan] *)

Inductive xfloat : Type :=
| Fin (q : Q)
| PInf
| NInf
| NaN.

Definition Qltb (a b : Q) : bool := negb (Qle_bool b a).

Definition xneg (x : xfloat) : xfloat :=
  match x with
  | Fin q => Fin (- q)
  | PInf => NInf
  | NInf => PInf
  | NaN => NaN
  end.

Definition xadd (x y : xfloat) : xfloat :=
  match x, y with
  | NaN, _ | _, NaN => NaN
  | Fin a, Fin b => Fin (a + b)
  | PInf, NInf | NInf, PInf => NaN
  | PInf, _ | _, PInf => PInf
  | NInf, _ | _, NInf => NInf
  end.

Definition xsub (x y : xfloat) : xfloat := xadd x (xneg y).

(** The sign of an infinite product or quotient. *)
Definition signed_inf (negative : bool) : xfloat :=
  if negative then NInf else PInf.

Definition xmul (x y : xfloat) : xfloat :=
  match x, y with
  | NaN, _ | _, NaN => NaN
  | Fin a, Fin b => Fin (a * b)
  | Fin a, PInf | PInf, Fin a =>
      if Qeq_bool a 0 then NaN else signed_inf (Qltb a 0)
  | Fin a, NInf | NInf, Fin a =>
      if Qeq_bool a 0 then NaN else signed_inf (Qltb 0 a)
  | PInf, PInf | NInf, NInf => PInf
  | PInf, NInf | NInf, PInf => NInf
  end.

(** numpy's true division: a zero divisor gives [nan] or a signed infinity
    (with a warning), never an exception.  A zero is taken to be [+0.0],
    which is what [x - x] is. *)
Definition xdiv (x y : xfloat) : xfloat :=
  match x, y with
  | NaN, _ | _, NaN => NaN
  | Fin a, Fin b =>
      if Qeq_bool b 0
      then (if Qeq_bool a 0 then NaN else signed_inf (Qltb a 0))
      else Fin (a / b)
  | Fin _, (PInf | NInf) => Fin 0
  | PInf, Fin b => signed_inf (Qltb b 0)
  | NInf, Fin b => signed_inf (negb (Qltb b 0))
  | (PInf | NInf), (PInf | NInf) => NaN
  end.

(** IEEE comparisons: every comparison with [nan] is false, except [!=]. *)
Definition xltb (x y : xfloat) : bool :=
  match x, y with
  | NaN, _ | _, NaN => false
  | Fin a, Fin b => Qltb a b
  | NInf, (Fin _ | PInf) => true
  | Fin _, PInf => true
  | _, _ => false
  end.

Definition xeqb (x y : xfloat) : bool :=
  match x, y with
  | Fin a, Fin b => Qeq_bool a b
  | PInf, PInf | NInf, NInf => true
  | _, _ => false
  end.

Definition xleb (x y : xfloat) : bool := xltb x y || xeqb x y.
Definition xneb (x y : xfloat) : bool := negb (xeqb x y).

Definition isnan (x : xfloat) : bool :=
  match x with NaN => true | _ => false end.

(* ================================================================= *)
(** ** Machine numbers

    numpy computes on [int64] and [float64].  An [int64] result that
    leaves the range wraps around (two's complement); a [float64] result
    whose magnitude reaches the largest double becomes an infinity.  The
    values are rationals: in the arithmetic of the palette the rounding
    of a finite [float64] result to 53 bits is not modelled;
    [nearest_float64] is the rounding, for the numbers that [table.py]
    reads from a text and compares. *)

Inductive dtype : Type :=
| int64
| float64.

(** [2**63]: the [int64] values are those from [-2**63] up to, not
    including, [2**63]. *)
Definition int64_limit : Q := inject_Z (2 ^ 63).

(** An integer brought back into the [int64] range, modulo [2**64]. *)
Definition wrap_int64 (q : Q) : Q :=
  if Qle_bool (- int64_limit) q && Qltb q int64_limit then q
  else q - inject_Z (2 ^ 64
                     * Qfloor ((q + int64_limit) / inject_Z (2 ^ 64))).

(** [2**1024 - 2**970]: from this magnitude on a real number rounds to an
    infinity, below it to a finite double. *)
Definition float64_limit : Q := inject_Z (2 ^ 1024 - 2 ^ 970).

Definition to_float64 (q : Q) : xfloat :=
  if Qle_bool float64_limit q then PInf
  else if Qle_bool q (- float64_limit) then NInf
  else Fin q.

(** The nearest integer, a tie going to the even one. *)
Definition round_half_even (q : Q) : Z :=
  let f := Qfloor q in
  match Qcompare (q - inject_Z f) (1 # 2) with
  | Lt => f
  | Gt => (f + 1)%Z
  | Eq => if Z.even f then f else (f + 1)%Z
  end.

(** For a positive rational, the exponent [e] with [2**e <= q < 2**(e+1)]. *)
Definition binade (q : Q) : Z :=
  let e := (Z.log2 (Qnum q) - Z.log2 (Zpos (Qden q)))%Z in
  if Qle_bool (Qpower 2 e) q then e else (e - 1)%Z.

(** The double nearest to a real number (IEEE 754 binary64, round to
    nearest, ties to even): 53 significant bits, exponents from -1022,
    below which the spacing stays [2**-1074], and an infinity from
    [float64_limit] on. *)
Definition nearest_float64 (q : Q) : xfloat :=
  if Qeq_bool q 0 then Fin 0
  else
    let a := if Qltb q 0 then - q else q in
    let e := Z.max (binade a) (-1022) in
    let ulp := Qpower 2 (e - 52) in
    let r := inject_Z (round_half_even (a / ulp)) * ulp in
    if Qle_bool (inject_Z (2 ^ 1024)) r
    then (if Qltb q 0 then NInf else PInf)
    else Fin (if Qltb q 0 then - r else r).

(** A [float64] result, rounded. *)
Definition rounded (x : xfloat) : xfloat :=
  match x with
  | Fin q => nearest_float64 q
  | _ => x
  end.

Definition int64_result (x : xfloat) : xfloat :=
  match x with
  | Fin q => Fin (wrap_int64 q)
  | _ => x
  end.

Definition float64_result (x : xfloat) : xfloat :=
  match x with
  | Fin q => to_float64 q
  | _ => x
  end.

(** A number as Python sees it: its value, whether it is a numpy scalar
    ([numpy.float64], [numpy.int64]) rather than a Python [int] or [float],
    and whether it is an integer ([int], [numpy.int64]).  Python integers
    are taken within the [int64] range. *)
Record num : Type := mknum { is_np : bool; is_int : bool; val : xfloat }.

(** A Python [float], a [numpy.float64], a Python [int], a
    [numpy.int64]. *)
Definition py (q : Q) : num := mknum false false (Fin q).
Definition np (x : xfloat) : num := mknum true false x.
Definition py_int (z : Z) : num := mknum false true (Fin (inject_Z z)).
Definition np_int (z : Z) : num := mknum true true (Fin (inject_Z z)).

Definition is_integer (t : dtype) : bool :=
  match t with int64 => true | float64 => false end.

(** The numpy scalar of a dtype. *)
Definition scalar (t : dtype) (q : Q) : num :=
  mknum true (is_integer t) (Fin q).

(** [a - b].  The result is a numpy scalar as soon as one operand is.  Two
    integers give an integer: exact for two Python integers, wrapped to
    [int64] when numpy computes it.  Otherwise the result is a float. *)
Definition num_sub (a b : num) : num :=
  let d := xsub (val a) (val b) in
  if is_int a && is_int b
  then mknum (is_np a || is_np b) true
             (if is_np a || is_np b then int64_result d else d)
  else mknum (is_np a || is_np b) false (float64_result d).

(** numpy's [a / b]: a [float64], whatever the operands. *)
Definition true_divide (a b : num) : num :=
  mknum true false (float64_result (xdiv (val a) (val b))).

(** [a / b]: Python raises on a zero divisor when both operands are Python
    numbers; numpy does not. *)
Definition num_div (a b : num) : result num :=
  if is_np a || is_np b
  then Ok (true_divide a b)
  else if xeqb (val b) (Fin 0)
       then Raise ZeroDivisionError
       else Ok (mknum false false (float64_result (xdiv (val a) (val b)))).

(* ================================================================= *)
(** ** The colormap engine used by the palette

    [matplotlib.colors.LinearSegmentedColormap] is an external collaborator
    of [cpalette.py]: "given a normalized value, return an interpolated
    colour".  The model follows its lookup-table construction
    ([_create_lookup_table]) and its call on a scalar. *)

Module mpl.

Definition RGBA : Type := (xfloat * xfloat * xfloat * xfloat)%type.

(** One row [(x, y0, y1)] of segment data: the position, the value
    arriving from below, the value leaving toward above. *)
Definition row : Type := (xfloat * xfloat * xfloat)%type.

Definition row_x (r : row) : xfloat := fst (fst r).
Definition row_y0 (r : row) : xfloat := snd (fst r).
Definition row_y1 (r : row) : xfloat := snd r.

(** The dict with keys ['red'], ['green'], ['blue']. *)
Record segmentdata : Type := mkcdict {
  red : list row;
  green : list row;
  blue : list row
}.

(** [to_rgba] on a tuple of numbers; [None] is not a colour. *)
Definition to_rgba (c : option (list Q)) : result RGBA :=
  match c with
  | None => Raise (ValueError "Invalid RGBA argument: None")
  | Some l =>
      match l with
      | [r; g; b] | [r; g; b; _] =>
          let a := match l with [_; _; _; a] => a | _ => 1 end in
          if existsb (fun e => Qltb e 0 || Qltb 1 e) [r; g; b; a]
          then Raise (ValueError "RGBA values should be within 0-1 range")
          else Ok (Fin r, Fin g, Fin b, Fin a)
      | _ => Raise (ValueError "RGBA sequence should have length 3 or 4")
      end
  end.

(** [np.diff]. *)
Fixpoint diff (x : list xfloat) : list xfloat :=
  match x with
  | a :: (b :: _) as tl => xsub b a :: diff tl
  | _ => []
  end.

(** [np.searchsorted(x, v)] (side ['left']) on an ascending array: the
    number of leading entries strictly below [v]. *)
Fixpoint searchsorted (x : list xfloat) (v : xfloat) : nat :=
  match x with
  | a :: tl => if xltb a v then S (searchsorted tl v) else 0
  | [] => 0
  end.

(** [np.clip(y, 0.0, 1.0)]. *)
Definition clip01 (y : xfloat) : xfloat :=
  match y with
  | NaN => NaN
  | _ => if xltb y (Fin 0) then Fin 0
         else if xltb (Fin 1) y then Fin 1 else y
  end.

(** [xs[1:-1]]. *)
Definition interior {A : Type} (xs : list A) : list A :=
  removelast (tl xs).

Definition at_ (l : list xfloat) (i : nat) : xfloat := nth i l NaN.

(** One interior entry of the table: linear interpolation between the
    leaving value of the row below and the arriving value of the row
    above. *)
Definition interpolate (x y0 y1 : list xfloat) (v : xfloat) : xfloat :=
  let ind := searchsorted x v in
  let distance :=
    xdiv (xsub v (at_ x (ind - 1))) (xsub (at_ x ind) (at_ x (ind - 1))) in
  xadd (xmul distance (xsub (at_ y0 ind) (at_ y1 (ind - 1))))
       (at_ y1 (ind - 1)).

Definition _create_lookup_table (N : nat) (data : list row)
  : result (list xfloat) :=
  let x := map row_x data in
  let y0 := map row_y0 data in
  let y1 := map row_y1 data in
  x_first <- getitem x 0 ;;
  x_last <- getlast x ;;
  if xneb x_first (Fin 0) || xneb x_last (Fin 1)
  then Raise (ValueError
         "data mapping points must start with x=0 and end with x=1")
  else if existsb (fun d => xltb d (Fin 0)) (diff x)
  then Raise (ValueError
         "data mapping points must have x in increasing order")
  else
    y0_last <- getlast y0 ;;
    y1_first <- getitem y1 0 ;;
    let lut :=
      if Nat.eqb N 1 then [y0_last]
      else
        let scale := Fin (inject_Z (Z.of_nat (N - 1))) in
        let xs := map (fun a => xmul a scale) x in
        let xind :=
          map (fun i => Fin (inject_Z (Z.of_nat i))) (seq 0 N) in
        [y1_first] ++ map (interpolate xs y0 y1) (interior xind)
                   ++ [y0_last] in
    Ok (map clip01 lut).

Record LinearSegmentedColormap : Type := mkcmap {
  name : string;
  _segmentdata : segmentdata;
  N : nat;
  _rgba_bad : RGBA
}.

(** [LinearSegmentedColormap(name, segmentdata)]: 256 table entries, and
    a fully transparent colour for bad values until [set_bad]. *)
Definition new (nm : string) (cd : segmentdata) : LinearSegmentedColormap :=
  mkcmap nm cd 256 (Fin 0, Fin 0, Fin 0, Fin 0).

Definition set_bad (cm : LinearSegmentedColormap) (color : option (list Q))
  : result LinearSegmentedColormap :=
  c <- to_rgba color ;;
  Ok (mkcmap (name cm) (_segmentdata cm) (N cm) c).

(** The index into the table for a scalar [X]: [X * N] truncated, the
    value [N] itself counted as [N - 1]; below zero the first entry,
    from [N] on the last one. [None] stands for the bad colour. *)
Definition lut_index (n : nat) (X : xfloat) : option nat :=
  let xa := xmul X (Fin (inject_Z (Z.of_nat n))) in
  let xa := if xeqb xa (Fin (inject_Z (Z.of_nat n)))
            then Fin (inject_Z (Z.of_nat (n - 1))) else xa in
  match xa with
  | NaN => None
  | NInf => Some 0%nat
  | PInf => Some (n - 1)%nat
  | Fin q =>
      if Qltb q 0 then Some 0%nat
      else if Qle_bool (inject_Z (Z.of_nat n)) q then Some (n - 1)%nat
      else Some (Z.to_nat (Qfloor q))
  end.

(** [cmap(X)] for a scalar [X]; the tables are built on the call, so an
    invalid table makes every call raise. *)
Definition call (cm : LinearSegmentedColormap) (X : xfloat) : result RGBA :=
  lut_r <- _create_lookup_table (N cm) (red (_segmentdata cm)) ;;
  lut_g <- _create_lookup_table (N cm) (green (_segmentdata cm)) ;;
  lut_b <- _create_lookup_table (N cm) (blue (_segmentdata cm)) ;;
  match lut_index (N cm) X with
  | None => Ok (_rgba_bad cm)
  | Some i => Ok (at_ lut_r i, at_ lut_g i, at_ lut_b i, Fin 1)
  end.

End mpl.

(* ================================================================= *)
(** ** Python string operations *)

Module pystr.

Open Scope string_scope.

Definition chars := list_ascii_of_string.
Definition str := string_of_list_ascii.

(** [s.startswith(p)]. *)
Definition startswith (s p : string) : bool := String.prefix p s.

(** [s[n:]]. *)
Definition from (n : nat) (s : string) : string := str (skipn n (chars s)).

(** Whitespace as [str.strip] and the regular expression class [\s]
    see it, for ASCII text. *)
Definition isspace (c : ascii) : bool :=
  let n := nat_of_ascii c in
  ((9 <=? n) && (n <=? 13) || (n =? 32) || ((28 <=? n) && (n <=? 31)))%nat.

Definition isdigit (c : ascii) : bool :=
  let n := nat_of_ascii c in ((48 <=? n) && (n <=? 57))%nat.

Definition isupper (c : ascii) : bool :=
  let n := nat_of_ascii c in ((65 <=? n) && (n <=? 90))%nat.

Definition islower (c : ascii) : bool :=
  let n := nat_of_ascii c in ((97 <=? n) && (n <=? 122))%nat.

Fixpoint lstrip_chars (l : list ascii) : list ascii :=
  match l with
  | c :: tl => if isspace c then lstrip_chars tl else l
  | [] => []
  end.

(** [s.strip()]. *)
Definition strip (s : string) : string :=
  str (rev (lstrip_chars (rev (lstrip_chars (chars s))))).

(** [s.upper()], on ASCII letters. *)
Definition upper_char (c : ascii) : ascii :=
  if islower c then ascii_of_nat (nat_of_ascii c - 32) else c.

Definition upper (s : string) : string := str (map upper_char (chars s)).

Definition lower_char (c : ascii) : ascii :=
  if isupper c then ascii_of_nat (nat_of_ascii c + 32) else c.

Definition lower (s : string) : string := str (map lower_char (chars s)).

(** [s.split(sep)] for a one-character separator: never empty. *)
Fixpoint split_chars (sep : ascii) (cur : list ascii) (l : list ascii)
  : list string :=
  match l with
  | [] => [str (rev cur)]
  | c :: tl =>
      if Ascii.eqb c sep
      then str (rev cur) :: split_chars sep [] tl
      else split_chars sep (c :: cur) tl
  end.

Definition split (s : string) (sep : ascii) : list string :=
  split_chars sep [] (chars s).

(** Decimal digits with single underscores between them, as [int]
    accepts them. *)
Fixpoint digits_value (acc : Z) (after_digit : bool) (l : list ascii)
  : option Z :=
  match l with
  | [] => if after_digit then Some acc else None
  | c :: tl =>
      if isdigit c
      then digits_value (10 * acc + Z.of_nat (nat_of_ascii c - 48)) true tl
      else if Ascii.eqb c "_" && after_digit
           then match tl with
                | d :: _ => if isdigit d then digits_value acc false tl
                            else None
                | [] => None
                end
           else None
  end.

(** [int(s)] for a string. *)
Definition int (s : string) : result Z :=
  let bad := Raise (ValueError "invalid literal for int() with base 10") in
  match chars (strip s) with
  | "-"%char :: tl =>
      match digits_value 0 false tl with
      | Some z => Ok (- z)%Z
      | None => bad
      end
  | "+"%char :: tl =>
      match digits_value 0 false tl with Some z => Ok z | None => bad end
  | l => match digits_value 0 false l with Some z => Ok z | None => bad end
  end.

(** The newline that ends every line [readlines] returns but, possibly,
    the last one. *)
Definition nl : string := String (ascii_of_nat 10) EmptyString.

End pystr.

(** [for a in l: ...] in the error monad: the first exception ends the loop. *)
Fixpoint mapM {A B : Type} (f : A -> result B) (l : list A) : result (list B) :=
  match l with
  | [] => Ok []
  | a :: tl => b <- f a ;; bs <- mapM f tl ;; Ok (b :: bs)
  end.

Fixpoint foldM {A S : Type} (f : S -> A -> result S) (l : list A) (s : S)
  : result S :=
  match l with
  | [] => Ok s
  | a :: tl => s' <- f s a ;; foldM f tl s'
  end.

(* ================================================================= *)
(** ** [impactutils/colors/cpalette.py] *)

Module cpalette.

Import mpl.
Open Scope Q_scope.

Definition RGB : Type := (Q * Q * Q)%type.

(** A sequence of numbers as [np.array] makes an array of it: the dtype
    ([int64] for integers, [float64] as soon as one value is a float)
    and the values. *)
Record ndarray : Type := mkarray { dtype_of : dtype; values : list Q }.

Record preset : Type := mkpreset {
  p_z0 : ndarray;
  p_z1 : ndarray;
  p_rgb0 : list RGB;
  p_rgb1 : list RGB;
  p_nan_color : option (list Q)
}.

(** [np.arange(a, b)] for integers. *)
Definition arange (a b : nat) : list Q :=
  map (fun i => inject_Z (Z.of_nat i)) (seq a (b - a)).

Definition MMI : preset :=
  mkpreset (mkarray int64 (arange 0 10)) (mkarray int64 (arange 1 11))
    [(255,255,255); (255,255,255); (191,204,255); (160,230,255);
     (128,255,255); (122,255,147); (255,255,0); (255,200,0);
     (255,145,0); (255,0,0)]
    [(255,255,255); (191,204,255); (160,230,255); (128,255,255);
     (122,255,147); (255,255,0); (255,200,0); (255,145,0);
     (255,0,0); (200,0,0)]
    (Some [0; 0; 0; 0]).

Definition POP : preset :=
  mkpreset (mkarray int64 [0; 5; 50; 100; 500; 1000; 5000; 10000])
    (mkarray int64 [5; 50; 100; 500; 1000; 5000; 10000; 50000])
    [(255,255,255); (191,191,191); (159,159,159); (127,127,127);
     (95,95,95); (63,63,63); (31,31,31); (0,0,0)]
    [(255,255,255); (191,191,191); (159,159,159); (127,127,127);
     (95,95,95); (63,63,63); (31,31,31); (0,0,0)]
    (Some [0; 0; 0; 0]).

Definition PALETTES : list (string * preset) :=
  [("mmi"%string, MMI); ("pop"%string, POP)].

Record ColorPalette : Type := mkpalette {
  _vmin : num;
  _vmax : num;
  nan_color : option (list Q);
  _cdict : segmentdata;
  _cmap : LinearSegmentedColormap
}.

(** [z.min()] and [z.max()] of a numpy array; an empty array has none. *)
Definition array_min (z : list Q) : result Q :=
  match z with
  | [] => Raise (ValueError "zero-size array to reduction operation")
  | a :: tl => Ok (fold_left (fun m b => if Qltb b m then b else m) tl a)
  end.

Definition array_max (z : list Q) : result Q :=
  match z with
  | [] => Raise (ValueError "zero-size array to reduction operation")
  | a :: tl => Ok (fold_left (fun m b => if Qltb m b then b else m) tl a)
  end.

(** [(z - vmin) / (vmax - vmin)] on a numpy array: the subtraction in
    the dtype of the array and of the scalar, the division in
    [float64]. *)
Definition adjust (vmin vmax : num) (z : ndarray) : list xfloat :=
  map (fun zi => val (true_divide (num_sub (scalar (dtype_of z) zi) vmin)
                                  (num_sub vmax vmin)))
      (values z).

(** The dummy colour components of the first and the last row. *)
Definition B : Q := - (999 # 1000) * 255.
Definition E : Q := (999 # 1000) * 255.

(** The body of the loop over the rows, for index [i]. *)
Definition add_row (x : list xfloat) (rgb0_t rgb1_t : list RGB)
    (cdict : segmentdata) (i : nat) : result segmentdata :=
  c1 <- getitem rgb1_t i ;;
  c0 <- getitem rgb0_t i ;;
  let '(r1, g1, b1) := c1 in
  let '(r0, g0, b0) := c0 in
  let red0 := r1 / 255 in
  let red1 := r0 / 255 in
  let green0 := g1 / 255 in
  let green1 := g0 / 255 in
  let blue0 := b1 / 255 in
  let blue1 := b0 / 255 in
  xi <- getitem x i ;;
  Ok (mkcdict (red cdict ++ [(xi, Fin red0, Fin red1)])
              (green cdict ++ [(xi, Fin green0, Fin green1)])
              (blue cdict ++ [(xi, Fin blue0, Fin blue1)])).

(** [ColorPalette(name, z0, z1, rgb0, rgb1, nan_color)]. *)
Definition __init__ (name : string) (z0 z1 : ndarray)
    (rgb0 rgb1 : list RGB) (nan_color : option (list Q))
  : result ColorPalette :=
  if negb (len (values z0) =? len (values z1))%nat
     && negb (len (values z1) =? len rgb0)%nat
     && negb (len rgb0 =? len rgb1)%nat
  then Raise (Exception
         "Lengths of input sequences to ColorPalette() must be identical.")
  else
    vmin <- array_min (values z0) ;;
    vmax <- array_max (values z1) ;;
    let vmin := scalar (dtype_of z0) vmin in
    let vmax := scalar (dtype_of z1) vmax in
    let adj_z0 := adjust vmin vmax z0 in
    let adj_z1 := adjust vmin vmax z1 in
    let rgb0_t := rgb0 ++ [(E, E, E)] in
    let rgb1_t := (B, B, B) :: rgb1 in
    adj_last <- getlast adj_z1 ;;
    let x := adj_z0 ++ [adj_last] in
    cdict <- foldM (add_row x rgb0_t rgb1_t) (seq 0 (len x))
                   (mkcdict [] [] []) ;;
    cmap <- set_bad (new name cdict) nan_color ;;
    Ok (mkpalette vmin vmax nan_color cdict cmap).

Fixpoint lookup {V : Type} (k : string) (d : list (string * V)) : option V :=
  match d with
  | [] => None
  | (k', v) :: tl => if String.eqb k k' then Some v else lookup k tl
  end.

Definition fromPreset (preset : string) : result ColorPalette :=
  match lookup preset PALETTES with
  | None => Raise (Exception
              ("Preset " ++ preset ++ " not in list of supported presets."))
  | Some p =>
      __init__ preset (p_z0 p) (p_z1 p) (p_rgb0 p) (p_rgb1 p)
               (p_nan_color p)
  end.

Definition getPresets : list string := map fst PALETTES.

(** The state the directive scan of [fromFile] carries: [nan_color] and
    [name]. *)
Definition scan_line (st : list Q * string) (line : string)
  : result (list Q * string) :=
  let '(nan_color, name) := st in
  if pystr.startswith line "#$nan_color" then
    let parts := pystr.split (pystr.from 2 line) ":" in
    part <- getitem parts 1 ;;
    let value := pystr.split part "," in
    colortuple <- mapM pystr.int value ;;
    Ok (map inject_Z colortuple, name)
  else if pystr.startswith line "#$nan_color" then
    let parts := pystr.split (pystr.from 2 line) ":" in
    part <- getitem parts 1 ;;
    Ok (nan_color, pystr.strip part)
  else Ok st.

(** The columns [pd.read_table] returns for a palette file; the z
    columns with their dtype. *)
Record palette_frame : Type := mkframe {
  Z0 : ndarray; R0 : list Q; G0 : list Q; B0 : list Q;
  Z1 : ndarray; R1 : list Q; G1 : list Q; B1 : list Q
}.

Definition zip3 (a b c : list Q) : list RGB := combine (combine a b) c.

Section FromFile.

(** [pd.read_table(filename, comment='#', sep='\s+', header=0)], the
    parsing capability, from the lines of the file. *)
Variable read_table : list string -> result palette_frame.

(** [fromFile], on the lines [f.readlines()] returns. *)
Definition fromFile (lines : list string) : result ColorPalette :=
  '(nan_color, name) <-
     foldM scan_line lines ([0; 0; 0; 0], "generic"%string) ;;
  df <- read_table lines ;;
  let rgb0 := zip3 (R0 df) (G0 df) (B0 df) in
  let rgb1 := zip3 (R1 df) (G1 df) (B1 df) in
  __init__ name (Z0 df) (Z1 df) rgb0 rgb1 (Some nan_color).

End FromFile.

(** The [vmin] and [vmax] properties: accessors and setters. *)
Definition vmin (self : ColorPalette) : num := _vmin self.
Definition vmax (self : ColorPalette) : num := _vmax self.

Definition set_vmin (self : ColorPalette) (value : num) : ColorPalette :=
  mkpalette value (_vmax self) (nan_color self) (_cdict self) (_cmap self).

Definition set_vmax (self : ColorPalette) (value : num) : ColorPalette :=
  mkpalette (_vmin self) value (nan_color self) (_cdict self) (_cmap self).

Definition cmap (self : ColorPalette) : LinearSegmentedColormap :=
  _cmap self.

Definition getDataColor (self : ColorPalette) (value : num) : result RGBA :=
  normvalue <- num_div (num_sub value (vmin self))
                       (num_sub (vmax self) (vmin self)) ;;
  call (cmap self) (val normvalue).

End cpalette.

(* ================================================================= *)
(** ** Regular expressions, as far as [table.py] uses them *)

Module re.

Inductive regex : Type :=
| Lit (c : ascii)                 (* one given character *)
| Range (lo hi : ascii)           (* [lo-hi] *)
| Set_ (cs : string)              (* [...], the characters listed *)
| Digit                           (* \d *)
| Space                           (* \s *)
| Seq (r1 r2 : regex)
| Opt (r : regex)                 (* r?, greedy *)
| Star (r : regex)                (* r*, greedy *)
| Bol                             (* ^ *)
| Eol.                            (* $ *)

Definition Plus (r : regex) : regex := Seq r (Star r).

(** [r{2}]. *)
Definition Twice (r : regex) : regex := Seq r r.

Definition in_range (lo hi c : ascii) : bool :=
  ((nat_of_ascii lo <=? nat_of_ascii c)
   && (nat_of_ascii c <=? nat_of_ascii hi))%nat.

Definition newline : ascii := ascii_of_nat 10.

(** Backtracking matcher.  [i] counts the characters before [s] in the
    subject; [k] is what remains to be matched after [r].  Alternatives
    are tried in Python's order: greedy first. *)
Fixpoint rmatch {T : Type} (r : regex) (i : nat) (s : list ascii)
    (k : nat -> list ascii -> option T) {struct r} : option T :=
  let one (p : ascii -> bool) :=
    match s with
    | c :: tl => if p c then k (S i) tl else None
    | [] => None
    end in
  match r with
  | Lit c => one (Ascii.eqb c)
  | Range lo hi => one (in_range lo hi)
  | Set_ cs => one (fun c => existsb (Ascii.eqb c) (pystr.chars cs))
  | Digit => one pystr.isdigit
  | Space => one pystr.isspace
  | Seq r1 r2 => rmatch r1 i s (fun i' s' => rmatch r2 i' s' k)
  | Opt r1 =>
      match rmatch r1 i s k with
      | Some t => Some t
      | None => k i s
      end
  | Star r1 =>
      (fix star (fuel : nat) (i : nat) (s : list ascii) {struct fuel}
         : option T :=
         match fuel with
         | O => k i s
         | S fuel' =>
             match rmatch r1 i s
                     (fun i' s' =>
                        if (i <? i')%nat then star fuel' i' s' else None)
             with
             | Some t => Some t
             | None => k i s
             end
         end) (S (List.length s)) i s
  | Bol => if (i =? 0)%nat then k i s else None
  | Eol =>
      match s with
      | [] => k i s
      | [c] => if Ascii.eqb c newline then k i s else None
      | _ => None
      end
  end.

(** [re.match(r, s)]: a match at the start of [s]; the result is the
    text matched. *)
Definition match_ (r : regex) (s : string) : option string :=
  match rmatch r 0 (pystr.chars s) (fun i _ => Some i) with
  | Some n => Some (pystr.str (firstn n (pystr.chars s)))
  | None => None
  end.

(** The leftmost match starting at offset [i] or later. *)
Fixpoint search_from (r : regex) (i : nat) (s : list ascii)
  : option string :=
  match rmatch r i s (fun j _ => Some j) with
  | Some j => Some (pystr.str (firstn (j - i) s))
  | None =>
      match s with
      | [] => None
      | _ :: tl => search_from r (S i) tl
      end
  end.

(** [re.search(r, s)], and [.group()] of the match. *)
Definition search (r : regex) (s : string) : option string :=
  search_from r 0 (pystr.chars s).

End re.

(* ================================================================= *)
(** ** Tables: cells, rows and frames, as [table.py] uses pandas *)

Module pandas.

Open Scope string_scope.

(** The value of a cell: text, or a number ([nan] when empty). *)
Inductive cell : Type :=
| CStr (s : string)
| CNum (x : xfloat).

(** What indexing a row by a label returns: the cell when one column
    carries the label, the sub-series when several do. *)
Inductive value : Type :=
| Scalar (c : cell)
| Group (s : list (string * cell)).

(** A frame.  [columns] lists the two levels of every column label (the
    second level is empty when [multi] is false, that is when the
    columns have no [levels]); [index] labels the rows. *)
Record DataFrame : Type := mkdf {
  multi : bool;
  columns : list (string * string);
  index : list cell;
  rows : list (list cell)
}.

(** What the interpreter and the libraries supply: [str] of a value that
    is not text, [format(x, '.nf')], [float] of a text, the clock, and
    the order in which a set of labels is iterated. *)
Record World : Type := mkworld {
  repr : value -> string;
  format_float : nat -> xfloat -> string;
  float_of_text : string -> option xfloat;
  time : Z;
  set_order : list string -> list string
}.

Definition mem (k : string) (l : list string) : bool :=
  existsb (String.eqb k) l.

(** [set(a) - set(b)], as a list without repetition. *)
Definition set_minus (a b : list string) : list string :=
  filter (fun k => negb (mem k b)) (nodup string_dec a).

(** [df.columns.levels[0]]: the distinct first-level labels. *)
Definition levels0 (df : DataFrame) : list string :=
  nodup string_dec (map fst (columns df)).

(** A row of the frame as a series over the two-level labels. *)
Definition series (df : DataFrame) (r : list cell)
  : list (string * string * cell) :=
  combine (columns df) r.

(** [row.index.droplevel(1)]: the series over the first level. *)
Definition droplevel (s : list (string * string * cell))
  : list (string * cell) :=
  map (fun e => (fst (fst e), snd e)) s.

(** [s[k]]. *)
Definition get (s : list (string * cell)) (k : string) : result value :=
  match filter (fun e => String.eqb (fst e) k) s with
  | [] => Raise (KeyError k)
  | [(_, c)] => Ok (Scalar c)
  | l => Ok (Group l)
  end.

(** [k in s]. *)
Definition has (s : list (string * cell)) (k : string) : bool :=
  mem k (map fst s).

(** [row[channel]]: the series of the columns below a first-level
    label, over their second-level labels. *)
Definition sub (s : list (string * string * cell)) (channel : string)
  : result (list (string * cell)) :=
  match filter (fun e => String.eqb (fst (fst e)) channel) s with
  | [] => Raise (KeyError channel)
  | l => Ok (map (fun e => (snd (fst e), snd e)) l)
  end.

(** [str(v)]. *)
Definition str_ (w : World) (v : value) : string :=
  match v with
  | Scalar (CStr s) => s
  | _ => repr w v
  end.

(** [v.strip()]: only text has it. *)
Definition strip (v : value) : result string :=
  match v with
  | Scalar (CStr s) => Ok (pystr.strip s)
  | Scalar (CNum _) =>
      Raise (AttributeError "'float' object has no attribute 'strip'")
  | Group _ =>
      Raise (AttributeError "'Series' object has no attribute 'strip'")
  end.

(** [v.upper()]. *)
Definition upper (v : value) : result string :=
  match v with
  | Scalar (CStr s) => Ok (pystr.upper s)
  | Scalar (CNum _) =>
      Raise (AttributeError "'float' object has no attribute 'upper'")
  | Group _ =>
      Raise (AttributeError "'Series' object has no attribute 'upper'")
  end.

(** [f"{v:.nf}"]: only numbers are formatted. *)
Definition fmt (w : World) (n : nat) (v : value) : result string :=
  match v with
  | Scalar (CNum x) => Ok (format_float w n x)
  | Scalar (CStr _) =>
      Raise (ValueError "Unknown format code 'f' for object of type 'str'")
  | Group _ =>
      Raise (TypeError "unsupported format string passed to Series")
  end.

(** [str(z)] of an integer. *)
Definition string_of_Z (z : Z) : string :=
  NilZero.string_of_int (Z.to_int z).

Definition Qtrunc (q : Q) : Z :=
  if Qltb q 0 then (- Qfloor (- q))%Z else Qfloor q.

(** [f"{int(v):d}"]. *)
Definition fmt_int (v : value) : result string :=
  match v with
  | Scalar (CNum (Fin q)) => Ok (string_of_Z (Qtrunc q))
  | Scalar (CNum NaN) =>
      Raise (ValueError "cannot convert float NaN to integer")
  | Scalar (CNum _) => Raise OverflowError
  | Scalar (CStr s) => z <- pystr.int s ;; Ok (string_of_Z z)
  | Group _ => Raise (TypeError "cannot convert the series to int")
  end.

(** [np.isnan(v)], used as a condition. *)
Definition isnan_ (v : value) : result bool :=
  match v with
  | Scalar (CNum x) => Ok (isnan x)
  | Scalar (CStr _) =>
      Raise (TypeError "ufunc 'isnan' not supported for the input types")
  | Group _ =>
      Raise (ValueError "The truth value of a Series is ambiguous")
  end.

(** [a == b] on cells. *)
Definition cell_eqb (a b : cell) : bool :=
  match a, b with
  | CStr s, CStr t => String.eqb s t
  | CNum x, CNum y => xeqb x y
  | _, _ => false
  end.

(** Insertion into an ascending list, and [sorted] on strings. *)
Fixpoint insert (k : string) (l : list string) : list string :=
  match l with
  | [] => [k]
  | h :: tl => if String.leb k h then k :: l else h :: insert k tl
  end.

Definition sorted (l : list string) : list string :=
  fold_right insert [] l.

End pandas.

(* ================================================================= *)
(** ** [impactutils/io/table.py]: constants and [read_excel] *)

Module table.

Import pandas re.
Open Scope string_scope.

Definition REQUIRED_COLUMNS : list string :=
  ["STATION"; "LAT"; "LON"; "NETID"].

Definition AZ : regex := Range "A" "Z".

Definition CHANNEL_GROUPS : list (list regex) :=
  [[Seq (Twice AZ) (Lit "E"); Seq (Twice AZ) (Lit "N");
    Seq (Twice AZ) (Lit "Z")];
   [Seq (Twice AZ) (Lit "1"); Seq (Twice AZ) (Lit "2");
    Seq (Twice AZ) (Lit "Z")];
   [Seq (Lit "H") (Lit "1"); Seq (Lit "H") (Lit "2"); Lit "Z"];
   [Seq (Lit "U") (Seq (Lit "N") (Lit "K"))]].

(** The commas of the source patterns are members of the classes. *)
Definition CHANNEL_PATTERNS : list regex :=
  [Seq Bol (Seq (Set_ "H,B") (Seq (Set_ "H,L,N")
     (Seq (Set_ "E,N,Z,1,2,3") Eol)));
   Seq Bol (Seq (Lit "H") (Seq (Set_ "1,2") Eol));
   Seq Bol (Seq (Lit "Z") Eol)].

Definition PGM_COLS : list string :=
  ["PGA"; "PGV"; "SA(0.3)"; "SA(1.0)"; "SA(3.0)"].

Definition OPTIONAL : list string :=
  ["NAME"; "DISTANCE"; "REFERENCE"; "INTENSITY"; "SOURCE"; "LOC";
   "INSTTYPE"; "ELEV"; "NRESP"; "INTENSITY_STDDEV"].

Definition FLOATRE : regex :=
  Seq (Opt (Set_ "-+"))
      (Seq (Star (Range "0" "9"))
           (Seq (Opt (Lit ".")) (Plus (Range "0" "9")))).

(** A cell coordinate: the column letters and the row number, which is
    what [coordinate_from_string] makes of ['A1']. *)
Definition coord : Type := (string * Z)%type.

Definition letters : string := "ABCDEFGHIJKLMNOPQRSTUVWXYZ".

(** [s.index(p)]. *)
Fixpoint index_of (p : string) (s : list ascii) (i : nat) : option nat :=
  if String.prefix p (pystr.str s) then Some i
  else match s with
       | [] => None
       | _ :: tl => index_of p tl (S i)
       end.

(** [s[k]] for a string, negative indices counting from the end. *)
Definition char_at (s : string) (k : Z) : result ascii :=
  let n := Z.of_nat (String.length s) in
  let k' := if (k <? 0)%Z then (k + n)%Z else k in
  if (k' <? 0)%Z then Raise (IndexError "string index out of range")
  else match String.get (Z.to_nat k') s with
       | Some c => Ok c
       | None => Raise (IndexError "string index out of range")
       end.

(** [_move], from the coordinate that [coordinate_from_string] returns
    for the cell, whose row is 1 or more: the text of a cell in row 0
    or in a negative row has no coordinate and is rejected there, so
    that the result of a move is a cell for another move only when
    its row is 1 or more. *)
Definition _move (cellstr : coord) (nrows ncols : Z) : result coord :=
  let '(col_str_idx, rowidx) := cellstr in
  match index_of col_str_idx (pystr.chars letters) 0 with
  | Some colidx =>
      let newcolidx := (Z.of_nat colidx + ncols)%Z in
      let newrowidx := (rowidx + nrows)%Z in
      letter <- char_at letters newcolidx ;;
      Ok (String letter EmptyString, newrowidx)
  | None =>
      Raise (ValueError
        ("Could not add " ++ string_of_Z ncols ++ " columns to column "
         ++ col_str_idx ++ "."))
  end.

(** The workbook, as [openpyxl] and [pandas] read it: the cells of the
    active sheet, and the frames [pd.read_excel] returns with the header
    on rows 1 and 2, and with the first row skipped. *)
Record Workbook : Type := mkwb {
  ws : coord -> option cell;
  read_multi : result DataFrame;
  read_flat : result DataFrame
}.

(** [str(l)] of a list of strings without quotes or escapes in them. *)
Definition repr_list (l : list string) : string :=
  "[" ++ String.concat ", " (map (fun s => "'" ++ s ++ "'") l) ++ "]".

Definition MissingReferenceHeader : exn :=
  KeyError "Reference cells are required in A1 and B1!".

Definition MissingRequiredColumns : exn :=
  KeyError ("Input Excel file must specify the following columns: "
            ++ repr_list REQUIRED_COLUMNS ++ ".").

Definition InvalidChannelGrouping (channels : list string) : exn :=
  KeyError (repr_list (sorted channels)
            ++ " is not a valid channel grouping").

Definition NoMeasurementData : exn :=
  KeyError ("File must contain at least one of the following "
            ++ "data columns: " ++ repr_list (PGM_COLS ++ ["intensity"])).

(** [len(list(filter(cp.match, channels)))] is not zero. *)
Definition matches_some (cp : regex) (channels : list string) : bool :=
  negb (len (filter (fun c => match match_ cp c with
                               | Some _ => true
                               | None => false
                               end) channels) =? 0)%nat.

(** The count of the patterns of a group that match a channel. *)
Definition count_patterns (channel_group : list regex)
    (channels : list string) : nat :=
  fold_left (fun num_channels channel_pat =>
               if matches_some channel_pat channels
               then (num_channels + 1)%nat else num_channels)
            channel_group 0%nat.

(** The loop over the channel groups; the result is [valid]. *)
Fixpoint check_groups (groups : list (list regex)) (channels : list string)
  : result bool :=
  match groups with
  | [] => Ok false
  | channel_group :: rest =>
      let num_channels := count_patterns channel_group channels in
      if ((num_channels =? 1) && (len channels =? 1))%nat then Ok true
      else if (1 <? num_channels)%nat then
        h1_pat <- getitem channel_group 0 ;;
        h2_pat <- getitem channel_group 1 ;;
        let has_h1 := matches_some h1_pat channels in
        let has_h2 := matches_some h2_pat channels in
        if has_h1 || has_h2 then Ok true
        else check_groups rest channels
      else check_groups rest channels
  end.

Definition valid_channels (channels : list string) : result bool :=
  if negb (len channels =? 0)%nat
  then check_groups CHANNEL_GROUPS channels
  else Ok true.

(** [df['NAME'] = df['NAME'].fillna('')]. *)
Definition fillna_name (df : DataFrame) : DataFrame :=
  mkdf (multi df) (columns df) (index df)
    (map (fun r =>
            map (fun e => match e with
                          | (("NAME", _), CNum NaN) => CStr ""
                          | (_, c) => c
                          end) (series df r))
         (rows df)).

(** Both levels of the column labels in upper case. *)
Definition upper_columns (df : DataFrame) : DataFrame :=
  mkdf (multi df)
    (map (fun l => (pystr.upper (fst l), pystr.upper (snd l))) (columns df))
    (index df) (rows df).

(** [df['STATION'] = df.index] and [df.reset_index(drop=True)]. *)
Definition station_from_index (df : DataFrame) : DataFrame :=
  mkdf (multi df) (columns df ++ [("STATION", "")])%list
    (map (fun i => CNum (Fin (inject_Z (Z.of_nat i))))
         (seq 0 (len (rows df))))
    (map (fun ri => (fst ri ++ [snd ri])%list)
         (combine (rows df) (index df))).

(** [.replace(empty_cell, np.nan)] then [.astype(float)], on a cell. *)
Definition to_float (w : World) (c : cell) : result cell :=
  match c with
  | CNum _ => Ok c
  | CStr s =>
      match search (Plus Space) s with
      | Some _ => Ok (CNum NaN)
      | None =>
          match float_of_text w s with
          | Some x => Ok (CNum x)
          | None => Raise (ValueError "could not convert string to float")
          end
      end
  end.

(** The columns [column] below [channel] made numeric, in every row. *)
Definition coerce_column (w : World) (channel column : string)
    (df : DataFrame) : result DataFrame :=
  rows' <- mapM (fun r =>
             mapM (fun e =>
                     if String.eqb (fst (fst e)) channel
                        && String.eqb (snd (fst e)) column
                     then to_float w (snd e) else Ok (snd e))
                  (series df r))
           (rows df) ;;
  Ok (mkdf (multi df) (columns df) (index df) rows').

(** The second-level labels below a channel. *)
Definition subcolumns (df : DataFrame) (channel : string) : list string :=
  map snd (filter (fun l => String.eqb (fst l) channel) (columns df)).

(** The body of the loop over the measurement columns of one channel.
    In a frame with one level of columns [df[channel]] is a series over
    the rows, [column in channel_df] looks among the row labels, and the
    cell found there has no [replace] that takes a pattern. *)
Definition coerce_pgm (w : World) (channel : string)
    (st : DataFrame * bool) (column : string)
  : result (DataFrame * bool) :=
  let '(df, found) := st in
  if multi df then
    if mem column (subcolumns df channel)
    then df' <- coerce_column w channel column df ;; Ok (df', true)
    else Ok st
  else
    if existsb (cell_eqb (CStr column)) (index df)
    then Raise (TypeError "replace() argument 1 must be str")
    else Ok st.

Definition coerce_channel (w : World) (st : DataFrame * bool)
    (channel : string) : result (DataFrame * bool) :=
  foldM (coerce_pgm w channel) PGM_COLS st.

(** The first part of [read_excel]: the reference cells, the frame and
    its top headers, up to the check of the required columns. *)
Definition load (wb : Workbook)
  : result (DataFrame * list string * option cell) :=
  let topleft : coord := ("A", 1%Z) in
  a1 <- match ws wb topleft with
        | Some (CStr s) => Ok (pystr.lower s)
        | _ => Raise (AttributeError "object has no attribute 'lower'")
        end ;;
  if negb (String.eqb a1 "reference") then Raise MissingReferenceHeader
  else
    refcell <- _move topleft 0 1 ;;
    let reference := ws wb refcell in
    first_cell <- _move topleft 1 0 ;;
    second_cell <- _move first_cell 1 0 ;;
    let is_multi := match ws wb second_cell with
                    | Some _ => false
                    | None => true
                    end in
    '(df, top_headers) <-
      (if is_multi then
         df <- match read_multi wb with
               | Raise ParserError =>
                   Raise (IndexError
                            "Input file has invalid empty first data row.")
               | r => r
               end ;;
         let df := if mem "NAME" (map fst (columns df))
                   then fillna_name df else df in
         let df := upper_columns df in
         Ok (df, levels0 df)
       else
         df <- read_flat wb ;;
         Ok (df, map fst (columns df))) ;;
    '(df, top_headers) <-
      (if negb (mem "STATION" top_headers) then
         let df := station_from_index df in
         if multi df then Ok (df, levels0 df)
         else Raise (AttributeError
                       "'Index' object has no attribute 'levels'")
       else Ok (df, top_headers)) ;;
    if negb (forallb (fun c => mem c top_headers) REQUIRED_COLUMNS)
    then Raise MissingRequiredColumns
    else Ok (df, top_headers, reference).

(** The channels of a table: the top headers that are neither required
    nor optional. *)
Definition channel_set (top_headers : list string) : list string :=
  set_minus (set_minus top_headers REQUIRED_COLUMNS) OPTIONAL.

Definition read_excel (w : World) (wb : Workbook)
  : result (DataFrame * option cell) :=
  '(df, top_headers, reference) <- load wb ;;
  let channels := channel_set top_headers in
  valid <- valid_channels channels ;;
  if negb valid then Raise (InvalidChannelGrouping channels)
  else
    let found := mem "INTENSITY" top_headers in
    '(df, found) <- foldM (coerce_channel w) channels (df, found) ;;
    if negb found then Raise NoMeasurementData
    else Ok (df, reference).

(* --------------------------------------------------------------- *)
(** *** Channels and measurement names *)

Definition _get_channels (columns : list string) : list string :=
  filter (fun column =>
            existsb (fun cmatch => match search cmatch column with
                                   | Some _ => true
                                   | None => false
                                   end) CHANNEL_PATTERNS)
         columns.

(** The channels of a frame, when its columns have levels; the
    candidates are a set, iterated in the order of the world. *)
Definition frame_channels (w : World) (df : DataFrame) : list string :=
  if multi df then
    let top_headers := levels0 df in
    let channel_candidates := channel_set top_headers in
    _get_channels (set_order w channel_candidates)
  else [].

(** The value of a run of decimal digits. *)
Definition digits_Z (l : list ascii) : Z :=
  fold_left (fun acc c => (10 * acc + Z.of_nat (nat_of_ascii c - 48))%Z)
            l 0%Z.

(** The number that a text denotes: an optional sign, digits, and
    possibly a point and more digits, which is what the two patterns
    match. *)
Definition decimal (s : string) : option Q :=
  let l := pystr.chars s in
  let '(neg, l) := match l with
                   | "-"%char :: tl => (true, tl)
                   | "+"%char :: tl => (false, tl)
                   | _ => (false, l)
                   end in
  let '(ip, fp) :=
    match pystr.split (pystr.str l) "." with
    | [a] => (pystr.chars a, [])
    | [a; b] => (pystr.chars a, pystr.chars b)
    | _ => ([], [])
    end in
  if forallb pystr.isdigit (ip ++ fp)%list
     && negb (len (ip ++ fp)%list =? 0)%nat
     && (len (pystr.split (pystr.str l) ".") <=? 2)%nat
  then
    let q := (inject_Z (digits_Z (ip ++ fp)%list)
              / inject_Z (10 ^ Z.of_nat (len fp)))%Q in
    Some (if neg then (- q)%Q else q)
  else None.

(** [float(s)]: the double nearest to the number that the text
    denotes. *)
Definition float_ (s : string) : option xfloat :=
  match decimal s with
  | Some q => Some (nearest_float64 q)
  | None => None
  end.

(** The loop of [_translate_imt] over the column names: the first name
    that starts with [SA] and carries the period, if any. *)
Fixpoint find_period (period : xfloat) (imtlist : list string)
  : option string :=
  match imtlist with
  | [] => None
  | imt :: rest =>
      if negb (pystr.startswith imt "SA") then find_period period rest
      else
        match match search FLOATRE imt with
              | Some g => float_ g
              | None => None
              end
        with
        | None => find_period period rest
        | Some imt_period =>
            if xeqb imt_period period then Some imt
            else find_period period rest
        end
  end.

Definition _translate_imt (oldimt : string) (imtlist : list string)
  : result string :=
  if mem (pystr.upper oldimt) ["PGA"; "PGV"] then Ok (pystr.upper oldimt)
  else
    match search (Plus Digit) oldimt with
    | Some g =>
        match float_ g with
        | Some f =>
            let period := rounded (xdiv f (Fin 10)) in
            match find_period period imtlist with
            | Some newimt => Ok newimt
            | None => Raise (UnboundLocalError "newimt")
            end
        | None => Raise (ValueError "could not convert string to float")
        end
    | None => Ok ""
    end.

Definition PGMS : list string := ["pga"; "pgv"; "psa03"; "psa10"; "psa30"].

(** The body of the loop over the measurement kinds, up to the
    [continue]: the formatted value of kind [pgm] for the channel, or
    nothing when the kind is skipped. *)
Definition measurement (w : World) (row : list (string * string * cell))
    (channel pgm : string) : result (option string) :=
  chan <- sub row channel ;;
  newpgm <- _translate_imt pgm (map fst chan) ;;
  let c1 := negb (has chan newpgm) in
  c2 <- (if negb c1
         then v <- get chan newpgm ;; isnan_ v
         else Ok false) ;;
  if c1 || c2 then Ok None
  else
    v <- get chan newpgm ;;
    value <- fmt w 4 v ;;
    Ok (Some value).

(** The station code of a row: prefixed with the network unless it
    starts with it. *)
Definition station_code (w : World) (tmprow : list (string * cell))
  : result string :=
  station <- get tmprow "STATION" ;;
  let stationcode := pystr.strip (str_ w station) in
  netid_v <- get tmprow "NETID" ;;
  netid <- strip netid_v ;;
  if negb (pystr.startswith stationcode netid)
  then Ok (netid ++ "." ++ stationcode)
  else Ok stationcode.

(* --------------------------------------------------------------- *)
(** *** [dataframe_to_json] *)

Inductive json : Type :=
| JStr (s : string)
| JInt (z : Z)
| JList (l : list json)
| JDict (l : list (string * json)).

(** [if col in tmprow: props[key] = f(tmprow[col])]: the entry added. *)
Definition field {T : Type} (tmprow : list (string * cell))
    (col key : string) (f : value -> result T)
  : result (list (string * T)) :=
  if has tmprow col
  then v <- get tmprow col ;; x <- f v ;; Ok [(key, x)]
  else Ok [].

(** The same with a value for the missing column. *)
Definition field_or {T : Type} (tmprow : list (string * cell))
    (col key : string) (f : value -> result T) (default : T)
  : result (list (string * T)) :=
  if has tmprow col
  then v <- get tmprow col ;; x <- f v ;; Ok [(key, x)]
  else Ok [(key, default)].

(** [d[k] = v] on a dict kept in insertion order. *)
Fixpoint dict_set {V : Type} (d : list (string * V)) (k : string) (v : V)
  : list (string * V) :=
  match d with
  | [] => [(k, v)]
  | (k', v') :: tl =>
      if String.eqb k k' then (k, v) :: tl else (k', v') :: dict_set tl k v
  end.

(** [d[k]]. *)
Definition dict_get {V : Type} (d : list (string * V)) (k : string)
  : result V :=
  match cpalette.lookup k d with
  | Some v => Ok v
  | None => Raise (KeyError k)
  end.

Definition jstr (r : result string) : result json :=
  s <- r ;; Ok (JStr s).

(** The loop over the measurement kinds of one channel of the JSON
    writer. *)
Definition json_amplitudes (w : World) (row : list (string * string * cell))
    (channel : string) (chans : list (string * list json)) (pgm : string)
  : result (list (string * list json)) :=
  m <- measurement w row channel pgm ;;
  match m with
  | None => Ok chans
  | Some value =>
      let p := JDict [("name", JStr pgm); ("flag", JInt 0);
                      ("value", JStr value)] in
      amps <- dict_get chans (pystr.upper channel) ;;
      Ok (dict_set chans (pystr.upper channel) (amps ++ [p])%list)
  end.

Definition json_channel (w : World) (row : list (string * string * cell))
    (chans : list (string * list json)) (channel : string)
  : result (list (string * list json)) :=
  let chans := if negb (mem channel (map fst chans))
               then dict_set chans (pystr.upper channel) []
               else chans in
  foldM (json_amplitudes w row channel) PGMS chans.

(** The feature of one row that is not skipped. *)
Definition json_station (w : World) (row : list (string * string * cell))
    (stationcode : string) (channels : list string) : result json :=
  let tmprow := droplevel row in
  lat <- (v <- get tmprow "LAT" ;; fmt w 4 v) ;;
  lon <- (v <- get tmprow "LON" ;; fmt w 4 v) ;;
  elev <- (v <- get tmprow "ELEV" ;; fmt w 1 v) ;;
  let geom := JDict [("type", JStr "Point");
                     ("coordinates", JList [JStr lat; JStr lon; JStr elev])]
  in
  code <- getlast (pystr.split stationcode ".") ;;
  name <- field tmprow "NAME" "name" (fun v => jstr (strip v)) ;;
  network <- field tmprow "NETID" "network" (fun v => jstr (strip v)) ;;
  distance <- field tmprow "DISTANCE" "distance"
                    (fun v => jstr (fmt w 1 v)) ;;
  intensity <- field tmprow "INTENSITY" "intensity"
                     (fun v => jstr (fmt w 1 v)) ;;
  nresp <- field tmprow "NRESP" "nresp" (fun v => jstr (fmt_int v)) ;;
  stddev <- field tmprow "INTENSITY_STDDEV" "intensity_stddev"
                  (fun v => jstr (fmt w 2 v)) ;;
  source <- field tmprow "SOURCE" "source" (fun v => jstr (strip v)) ;;
  location <- field_or tmprow "LOC" "location" (fun v => jstr (strip v))
                       (JStr "--") ;;
  type <- field tmprow "INSTTYPE" "type" (fun v => jstr (strip v)) ;;
  provider <- field tmprow "PROVIDER" "provider"
                    (fun v => jstr (strip v)) ;;
  instrument <- field tmprow "INSTRUMENT" "instrument"
                      (fun v => jstr (strip v)) ;;
  serial <- field_or tmprow "SERIAL" "serial" (fun v => jstr (strip v))
                     (JStr "None") ;;
  period <- field tmprow "PERIOD" "period" (fun v => jstr (strip v)) ;;
  damping <- field tmprow "DAMPING" "damping" (fun v => jstr (strip v)) ;;
  sensitivity <- field tmprow "SENSITIVITY" "sensitivity"
                       (fun v => jstr (strip v)) ;;
  source_format <- field tmprow "SOURCE_FORMAT" "source_format"
                         (fun v => jstr (strip v)) ;;
  structure <- field tmprow "STRUCTURE" "structure"
                     (fun v => jstr (strip v)) ;;
  let props :=
    ([("code", JStr code)] ++ name ++ network ++ distance ++ intensity
     ++ nresp ++ stddev ++ source ++ location ++ type ++ provider
     ++ instrument ++ serial ++ period ++ damping ++ sensitivity
     ++ source_format ++ structure)%list in
  chans <- foldM (json_channel w row) channels [] ;;
  Ok (JDict [("geometry", geom);
             ("properties", JDict props);
             ("channels",
              JDict (map (fun e =>
                            (fst e, JDict [("amplitudes", JList (snd e))]))
                         chans))]).

(** The state of the loop over the rows: the features, the stations
    processed, the channels. *)
Definition json_row (w : World) (df : DataFrame)
    (st : list json * list string * list string) (r : list cell)
  : result (list json * list string * list string) :=
  let '(features, processed_stations, channels) := st in
  let row := series df r in
  let tmprow := droplevel row in
  stationcode <- station_code w tmprow ;;
  if mem stationcode processed_stations then Ok st
  else
    let channels := sorted channels in
    station <- json_station w row stationcode channels ;;
    Ok ((features ++ [station])%list,
        (processed_stations ++ [stationcode])%list, channels).

(** [dataframe_to_json(df, jsonfile)].  The result is the one file
    written, by name and content; an exception leaves no file. *)
Definition dataframe_to_json (w : World) (df : DataFrame)
    (jsonfile : string) : result (string * json) :=
  let channels := frame_channels w df in
  '(features, _, _) <- foldM (json_row w df) (rows df) ([], [], channels) ;;
  let geojson :=
    JDict [("type", JStr "FeatureCollection");
           ("software", JDict [("name", JStr "impactutils");
                               ("version", JStr "1.0.0")]);
           ("process_time", JInt (time w));
           ("features", JList features)] in
  Ok ("test.json", geojson).

(* --------------------------------------------------------------- *)
(** *** [dataframe_to_xml] *)

(** An element: its tag, its attributes in the order they were set, its
    children.  The checks [lxml] makes on names and texts are not
    modelled. *)
Inductive xml : Type :=
| Element (tag : string) (attrib : list (string * string))
          (children : list xml).

(** The loop over the measurement kinds of one channel of the XML
    writer: the children of the [comp] element. *)
Definition xml_pgm (w : World) (row : list (string * string * cell))
    (channel : string) (els : list xml) (pgm : string)
  : result (list xml) :=
  m <- measurement w row channel pgm ;;
  match m with
  | None => Ok els
  | Some value =>
      Ok (els ++ [Element pgm [("flag", "0"); ("value", value)] []])%list
  end.

(** The [comp] element of a channel of a frame grouped by channel. *)
Definition xml_comp (w : World) (row : list (string * string * cell))
    (channel : string) : result xml :=
  last_char <- char_at channel (-1) ;;
  let orientation :=
    if existsb (Ascii.eqb last_char) ["1"; "2"; "E"; "N"]%char
    then "h" else "z" in
  els <- foldM (xml_pgm w row channel) PGMS [] ;;
  Ok (Element "comp"
        [("name", pystr.upper channel); ("orientation", orientation)] els).

(** The values of a column of a frame, row by row. *)
Definition column_values (df : DataFrame) (k : string)
  : result (list value) :=
  mapM (fun r => get (droplevel (series df r)) k) (rows df).

Definition value_eqb (a b : value) : bool :=
  match a, b with
  | Scalar x, Scalar y => cell_eqb x y
  | _, _ => false
  end.

(** [df[df[k] == v]]: the rows whose cell in column [k] equals [v]. *)
Definition select (df : DataFrame) (k : string) (v : value)
  : result DataFrame :=
  col <- column_values df k ;;
  let kept := filter (fun e => value_eqb (snd e) v)
                     (combine (combine (index df) (rows df)) col) in
  Ok (mkdf (multi df) (columns df) (map (fun e => fst (fst e)) kept)
           (map (fun e => snd (fst e)) kept)).

(** [s.unique()]: the distinct values in order of appearance, all
    missing values counting as one. *)
Definition same_value (a b : value) : bool :=
  match a, b with
  | Scalar (CNum NaN), Scalar (CNum NaN) => true
  | _, _ => value_eqb a b
  end.

Fixpoint unique (seen : list value) (l : list value) : list value :=
  match l with
  | [] => []
  | v :: tl =>
      if existsb (same_value v) seen then unique seen tl
      else v :: unique (v :: seen) tl
  end.

(** One element per row of a channel, in a frame with [imt], [value]
    and [flag] columns. *)
Definition xml_imt_row (w : World) (df : DataFrame) (r : list cell)
  : result xml :=
  let channel_row := droplevel (series df r) in
  pgm_v <- get channel_row "imt" ;;
  value <- get channel_row "value" ;;
  pgm <- match pgm_v with
         | Scalar (CStr s) => Ok s
         | _ => Raise (TypeError "Argument must be bytes or unicode")
         end ;;
  value_s <- fmt w 4 value ;;
  flag <- get channel_row "flag" ;;
  Ok (Element pgm [("value", value_s); ("flag", str_ w flag)] []).

Definition xml_imt_comp (w : World) (station_rows : DataFrame)
    (channel : value) : result xml :=
  channel_rows <- select station_rows "channel" channel ;;
  name <- upper channel ;;
  els <- mapM (xml_imt_row w channel_rows) (rows channel_rows) ;;
  Ok (Element "comp" [("name", name)] els).

(** The [comp] elements of a station of such a frame.  A frame whose
    columns have two levels has no series to take [unique] of. *)
Definition xml_imt_station (w : World) (df : DataFrame)
    (tmprow : list (string * cell)) : result (list xml) :=
  scode <- get tmprow "STATION" ;;
  if multi df
  then Raise (AttributeError "'DataFrame' object has no attribute 'unique'")
  else
    station_rows <- select df "STATION" scode ;;
    col <- column_values station_rows "channel" ;;
    let channels := unique [] col in
    mapM (xml_imt_comp w station_rows) channels.

Definition sfield := @field string.

(** The state of the loop over the rows: the [station] elements, the
    stations processed, the channels. *)
Definition xml_row (w : World) (df : DataFrame)
    (st : list xml * list string * list string) (r : list cell)
  : result (list xml * list string * list string) :=
  let '(stations, processed_stations, channels) := st in
  let row := series df r in
  let tmprow := droplevel row in
  stationcode <- station_code w tmprow ;;
  if mem stationcode processed_stations then Ok st
  else
    lat <- (v <- get tmprow "LAT" ;; fmt w 4 v) ;;
    lon <- (v <- get tmprow "LON" ;; fmt w 4 v) ;;
    name <- sfield tmprow "NAME" "name" strip ;;
    netid <- sfield tmprow "NETID" "netid" strip ;;
    dist <- sfield tmprow "DISTANCE" "dist" (fmt w 1) ;;
    intensity <- sfield tmprow "INTENSITY" "intensity" (fmt w 1) ;;
    nresp <- sfield tmprow "NRESP" "nresp" fmt_int ;;
    stddev <- sfield tmprow "INTENSITY_STDDEV" "intensity_stddev"
                     (fmt w 2) ;;
    source <- sfield tmprow "SOURCE" "source" strip ;;
    loc <- sfield tmprow "LOC" "loc" strip ;;
    insttype <- sfield tmprow "INSTTYPE" "insttype" strip ;;
    elev <- sfield tmprow "ELEV" "elev" (fmt w 1) ;;
    let attrib :=
      ([("code", stationcode); ("lat", lat); ("lon", lon)] ++ name
       ++ netid ++ dist ++ intensity ++ nresp ++ stddev ++ source ++ loc
       ++ insttype ++ elev)%list in
    if negb (has tmprow "imt") then
      let channels := sorted channels in
      comps <- mapM (xml_comp w row) channels ;;
      Ok ((stations ++ [Element "station" attrib comps])%list,
          (processed_stations ++ [stationcode])%list, channels)
    else
      comps <- xml_imt_station w df tmprow ;;
      Ok ((stations ++ [Element "station" attrib comps])%list,
          (processed_stations ++ [stationcode])%list, channels).

(** [dataframe_to_xml(df, xmlfile, reference)].  The result is the file
    written, by name and element tree; an exception leaves no file. *)
Definition dataframe_to_xml (w : World) (df : DataFrame) (xmlfile : string)
    (reference : option cell) : result (string * xml) :=
  let channels := frame_channels w df in
  let create_time := time w in
  let created := [("created", string_of_Z create_time)] in
  ref <- match reference with
         | None => Ok []
         | Some (CStr s) => Ok [("reference", s)]
         | Some (CNum _) =>
             Raise (TypeError "Argument must be bytes or unicode")
         end ;;
  '(stations, _, _) <- foldM (xml_row w df) (rows df) ([], [], channels) ;;
  let stationlist := Element "stationlist" (created ++ ref)%list stations in
  let root := Element "shakemap-data"
                [("code_version", "3.5"); ("map_version", "3")]
                [stationlist] in
  Ok (xmlfile, root).

End table.

(* ================================================================= *)
(** ** Vocabulary of the palette properties *)

Module cpalette_spec.

Import mpl cpalette.
Open Scope Q_scope.

(** The rows of one channel [ch], from the positions and the padded
    colour sequences. *)
Fixpoint rows (ch : RGB -> Q) (x : list xfloat) (rgb0_t rgb1_t : list RGB)
  : list row :=
  match x, rgb0_t, rgb1_t with
  | xi :: x', c0 :: r0', c1 :: r1' =>
      (xi, Fin (ch c1 / 255), Fin (ch c0 / 255)) :: rows ch x' r0' r1'
  | _, _, _ => []
  end.

Definition ch_r (c : RGB) : Q := fst (fst c).
Definition ch_g (c : RGB) : Q := snd (fst c).
Definition ch_b (c : RGB) : Q := snd c.

(** The positions of the rows: the interval starts, then the end of the
    last interval. *)
Definition positions (m M : Q) (z0 z1 : list Q) : list xfloat :=
  map (fun zi => Fin ((zi - m) / (M - m))) (z0 ++ [last z1 0]).

Definition table (m M : Q) (z0 z1 : list Q) (rgb0 rgb1 : list RGB)
  : segmentdata :=
  let x := positions m M z0 z1 in
  let rgb0_t := rgb0 ++ [(E, E, E)] in
  let rgb1_t := (B, B, B) :: rgb1 in
  mkcdict (rows ch_r x rgb0_t rgb1_t) (rows ch_g x rgb0_t rgb1_t)
          (rows ch_b x rgb0_t rgb1_t).

(** The palette the constructor returns on equal-length input whose
    minimum [m] and maximum [M] differ, when no difference leaves the
    machine range: its bounds are numpy scalars of the dtypes of [z0]
    and [z1]. *)
Definition built (name : string) (nan : option (list Q)) (bad : RGBA)
    (t0 t1 : dtype) (m M : Q) (z0 z1 : list Q) (rgb0 rgb1 : list RGB)
  : ColorPalette :=
  mkpalette (scalar t0 m) (scalar t1 M) nan (table m M z0 z1 rgb0 rgb1)
            (mkcmap name (table m M z0 z1 rgb0 rgb1) 256 bad).

(** [2**53]: up to this magnitude every integer is a double. *)
Definition exact_limit : Q := inject_Z (2 ^ 53).

(** The range of the data stays within the machine numbers: two [int64]
    sequences span less than [2**63], so that no difference wraps
    around; two [float64] sequences span less than the largest double;
    an [int64] and a [float64] sequence hold values of magnitude at most
    [2**53], which both dtypes represent exactly. *)
Definition machine_range (t0 t1 : dtype) (m M : Q) : Prop :=
  match t0, t1 with
  | int64, int64 => M - m < int64_limit
  | float64, float64 => M - m < float64_limit
  | _, _ => - exact_limit <= m /\ M <= exact_limit
  end.

(** A colour of the breakpoint table as the query returns it: the
    channels scaled to [0,1], opaque. *)
Definition scaled (c : RGB) : RGBA :=
  (Fin (ch_r c / 255), Fin (ch_g c / 255), Fin (ch_b c / 255), Fin 1).

(** The channels of a colour lie in [0,255]. *)
Definition byte_range (c : RGB) : Prop :=
  (0 <= ch_r c <= 255) /\ (0 <= ch_g c <= 255) /\ (0 <= ch_b c <= 255).

(** The z-values are sorted ascending: both columns are, and no interval
    ends before it starts. *)
Definition ascending (z0 z1 : list Q) : Prop :=
  Sorted Qle z0 /\ Sorted Qle z1 /\ Forall2 Qle z0 z1.

End cpalette_spec.

(** ** Sample inputs *)

Module cpalette_samples.

Import mpl cpalette.
Open Scope Q_scope.

(** The palette file of the docstring of [fromFile]. *)
Definition sample_lines : list string :=
  map (fun l => (l ++ pystr.nl)%string)
    ["#This file is a test file for ColorPalette.";
     "#Lines beginning with pound signs are comments.";
     "#$nan_color: 0,0,0,0";
     "#$name: test";
     "Z0 R0  G0  B0  Z1  R1  G1  B1";
     "0   0   0   0   1  85  85  85";
     "1  85  85  85   2 170 170 170";
     "2 170 170 170   3 255 255 255"]%string.

(** Its table, as parsed. *)
Definition sample_frame : palette_frame :=
  mkframe (mkarray int64 [0; 1; 2]) [0; 85; 170] [0; 85; 170] [0; 85; 170]
          (mkarray int64 [1; 2; 3])
          [85; 170; 255] [85; 170; 255] [85; 170; 255].

Definition sample_rgb0 : list RGB := [(0,0,0); (85,85,85); (170,170,170)].
Definition sample_rgb1 : list RGB :=
  [(85,85,85); (170,170,170); (255,255,255)].

(** Two intervals whose z-values span [2**63]: from [-2**62] to 0 and
    from 0 to [2**62], as integers. *)
Definition wide_z0 : ndarray := mkarray int64 [inject_Z (- 2 ^ 62); 0].
Definition wide_z1 : ndarray := mkarray int64 [0; inject_Z (2 ^ 62)].
Definition wide_rgb0 : list RGB := [(0,0,0); (85,85,85)].
Definition wide_rgb1 : list RGB := [(85,85,85); (255,255,255)].

(** Four colours, for three intervals. *)
Definition four_rgb0 : list RGB :=
  [(0,0,0); (85,85,85); (170,170,170); (255,255,255)].
Definition four_rgb1 : list RGB :=
  [(85,85,85); (170,170,170); (255,255,255); (255,255,255)].

(** A two-row table over [0,1], black to white, and a palette on it whose
    [vmin] and [vmax] are both 1. *)
Definition ramp : segmentdata :=
  let rows := [(Fin 0, Fin 0, Fin 0); (Fin 1, Fin 1, Fin 1)] in
  mkcdict rows rows rows.

Definition flat_palette : ColorPalette :=
  mkpalette (np (Fin 1)) (np (Fin 1)) (Some [0; 0; 0; 0]) ramp
            (mkcmap "flat" ramp 256 (Fin 0, Fin 0, Fin 0, Fin 0)).

(** The name of the palette a constructor returns: that of its
    colormap. *)
Definition name_of (r : result ColorPalette) : result string :=
  p <- r ;; Ok (mpl.name (cmap p)).

End cpalette_samples.

(** ** Sample tables *)

Module table_samples.

Import pandas table.
Open Scope string_scope.

Definition pad_left (n : nat) (s : string) : string :=
  pystr.str (repeat "0"%char (n - String.length s)) ++ s.

(** [format(x, '.nf')]: the number rounded to [n] decimals, a tie going
    to the even digit, with at least one digit before the point. *)
Definition format_fixed (n : nat) (x : xfloat) : string :=
  match x with
  | Fin q =>
      let scaled := round_half_even ((if Qltb q 0 then - q else q)%Q
                                     * inject_Z (10 ^ Z.of_nat n)) in
      let digits := pad_left (S n) (string_of_Z scaled) in
      let k := (String.length digits - n)%nat in
      (if Qltb q 0 then "-" else "")
      ++ substring 0 k digits
      ++ (if (n =? 0)%nat then "" else "." ++ substring k n digits)
  | PInf => "inf"
  | NInf => "-inf"
  | NaN => "nan"
  end.

(** A world whose sets are iterated as listed, and one whose sets are
    iterated backwards, at another time. *)
Definition world (t : Z) (order : list string -> list string) : World :=
  mkworld (fun _ => "?") format_fixed (fun _ => None) t order.

Definition w0 : World := world 1600000000 (fun l => l).
Definition w1 : World := world 1700000000 (@rev string).

Definition num (q : Q) : cell := CNum (Fin q).

Definition base_columns : list (string * string) :=
  [("STATION", ""); ("LAT", ""); ("LON", ""); ("NETID", "")].

(** One station with three channels, each with all five measurement
    columns under the [SA(n.n)] names; no elevation. *)
Definition channel_columns (c : string) : list (string * string) :=
  map (fun m => (c, m)) PGM_COLS.

Definition full_frame : DataFrame :=
  mkdf true
    (base_columns ++ channel_columns "HHE" ++ channel_columns "HHN"
     ++ channel_columns "HHZ")%list
    [num 0]
    [[CStr "ABC"; num 34; num (-118); CStr "CI";
      num 1; num 2; num 3; num 4; CNum NaN;
      num 5; num 6; num 7; num 8; num 9;
      num 10; num 11; num 12; num 13; num 14]].

(** One station, one channel with the two columns [PGA] and [PGV],
    and an elevation. *)
Definition pga_pgv_frame : DataFrame :=
  mkdf true
    (base_columns ++ [("ELEV", ""); ("HHE", "PGA"); ("HHE", "PGV")])%list
    [num 0]
    [[CStr "ABC"; num 34; num (-118); CStr "CI"; num 100;
      num 1; num 2]].

(** The legacy names [PSA03], [PSA10], [PSA30] below the channel. *)
Definition legacy_frame : DataFrame :=
  mkdf true
    (base_columns ++ [("ELEV", ""); ("HHE", "PGA"); ("HHE", "PGV");
                      ("HHE", "PSA03"); ("HHE", "PSA10");
                      ("HHE", "PSA30")])%list
    [num 0]
    [[CStr "ABC"; num 34; num (-118); CStr "CI"; num 100;
      num 1; num 2; num 3; num 4; num 5]].

(** A workbook around a frame read with two header rows. *)
Definition workbook (df : DataFrame) : Workbook :=
  mkwb (fun c => match c with
                 | ("A", 1%Z) => Some (CStr "Reference")
                 | ("B", 1%Z) => Some (CStr "Smith et al.")
                 | ("A", 2%Z) => Some (CStr "STATION")
                 | _ => None
                 end)
       (Ok df)
       (Raise (ValueError "not a flat table")).


(** A table with the required columns, a name and a source only. *)
Definition bare_frame : DataFrame :=
  mkdf true (base_columns ++ [("NAME", ""); ("SOURCE", "")])%list
    [num 0]
    [[CStr "ABC"; num 34; num (-118); CStr "CI"; CStr "x"; CStr "y"]].

End table_samples.

(** ** Vocabulary of the table properties *)

Module table_spec.

Import pandas table.
Open Scope string_scope.

(** A channel-naming scheme accepts a set of channels: one of its
    patterns matches and the channel is alone, or two or more of its
    patterns match. *)
Definition scheme_accepts (scheme : list re.regex) (channels : list string)
  : bool :=
  ((count_patterns scheme channels =? 1) && (len channels =? 1)
   || (2 <=? count_patterns scheme channels))%nat.

(** What [column in df[channel]] finds: a column below the channel in a
    frame grouped by channel, a row label otherwise. *)
Definition pgm_found (df : DataFrame) (channel column : string) : bool :=
  if multi df then mem column (subcolumns df channel)
  else existsb (cell_eqb (CStr column)) (index df).

(** A recognized peak-ground-motion column below one of the channels. *)
Definition has_pgm (df : DataFrame) (channels : list string) : bool :=
  existsb (fun channel => existsb (pgm_found df channel) PGM_COLS) channels.

(** *** The channel check and the data check, in the words of the
    specification *)

(** A capital letter. *)
Definition capital (c : ascii) : bool :=
  ((65 <=? nat_of_ascii c) && (nat_of_ascii c <=? 90))%nat.

(** A sub-pattern of a naming scheme: two capital letters and then the
    character of an orientation, or a fixed text.  A channel name fits
    the sub-pattern when it begins so. *)
Inductive name_pattern : Type :=
| Seed (orientation : ascii)
| Literal (text : string).

Fixpoint begins (text channel : list ascii) : bool :=
  match text, channel with
  | [], _ => true
  | t :: text', c :: channel' => Ascii.eqb t c && begins text' channel'
  | _ :: _, [] => false
  end.

Definition fits (p : name_pattern) (channel : string) : bool :=
  match p with
  | Seed o =>
      match pystr.chars channel with
      | a :: b :: c :: _ => capital a && capital b && Ascii.eqb o c
      | _ => false
      end
  | Literal text => begins (pystr.chars text) (pystr.chars channel)
  end.

(** The four naming schemes: east, north, vertical; 1, 2, vertical;
    H1, H2, Z; unknown. *)
Definition SCHEMES : list (list name_pattern) :=
  [[Seed "E"; Seed "N"; Seed "Z"];
   [Seed "1"; Seed "2"; Seed "Z"];
   [Literal "H1"; Literal "H2"; Literal "Z"];
   [Literal "UNK"]].

(** The number of sub-patterns of a scheme that fit at least one of the
    channels. *)
Definition matched (scheme : list name_pattern) (channels : list string)
  : nat :=
  len (filter (fun p => existsb (fits p) channels) scheme).

(** A valid grouping: under some scheme, one sub-pattern fits and the
    channel is the only one, or two or more sub-patterns fit. *)
Definition valid_grouping (channels : list string) : Prop :=
  exists scheme,
    In scheme SCHEMES
    /\ ((matched scheme channels = 1 /\ len channels = 1)
        \/ 2 <= matched scheme channels)%nat.

(** A pattern of the code matches at the start of a name. *)
Definition is_match (cp : re.regex) (c : string) : bool :=
  match re.match_ cp c with
  | Some _ => true
  | None => false
  end.

(** The pattern of the code matches the names that fit the sub-pattern
    of the specification. *)
Definition agrees (cp : re.regex) (p : name_pattern) : Prop :=
  forall c, is_match cp c = fits p c.

(** A channel of a table: a top-level column that is neither required
    nor optional. *)
Definition channel_header (top_headers : list string) (h : string)
  : Prop :=
  In h top_headers
  /\ ~ In h ["STATION"; "LAT"; "LON"; "NETID"]
  /\ ~ In h ["NAME"; "DISTANCE"; "REFERENCE"; "INTENSITY"; "SOURCE";
             "LOC"; "INSTTYPE"; "ELEV"; "NRESP"; "INTENSITY_STDDEV"].

(** The channel set of a table, each channel once, in any order. *)
Definition channels_of (top_headers channels : list string) : Prop :=
  NoDup channels
  /\ forall h, In h channels <-> channel_header top_headers h.

(** A recognized peak-ground-motion column below one of the channels.
    In a table with one row of headers, where the columns have no
    second level, the code looks the name up in the column of the
    channel, that is among the labels of the rows. *)
Definition measurement_column (df : DataFrame) (channels : list string)
  : Prop :=
  exists channel column,
    In channel channels
    /\ In column ["PGA"; "PGV"; "SA(0.3)"; "SA(1.0)"; "SA(3.0)"]
    /\ if multi df then In (channel, column) (columns df)
       else In (CStr column) (index df).

(** Two frames with the same labels. *)
Definition same_shape (df df' : DataFrame) : Prop :=
  multi df' = multi df /\ columns df' = columns df /\ index df' = index df.

(** The exceptions of the numeric coercion of the cells. *)
Definition coercion_error (e : exn) : Prop :=
  match e with
  | ValueError _ | TypeError _ => True
  | _ => False
  end.

(** The element tree with the value of [created] blanked. *)
Fixpoint blank_created (x : xml) : xml :=
  match x with
  | Element tag attrib children =>
      Element tag
        (map (fun kv => if String.eqb (fst kv) "created"
                        then (fst kv, "") else kv) attrib)
        (map blank_created children)
  end.

Definition output_but_created (r : result (string * xml))
  : result (string * xml) :=
  match r with
  | Ok (file, root) => Ok (file, blank_created root)
  | Raise e => Raise e
  end.

(** Two states of the loop over the rows agree: the same elements, the
    same stations processed, the same channels once sorted; two
    outcomes agree when both are such states or both are the same
    exception. *)
Definition agree {T : Type}
    (r1 r2 : result (list T * list string * list string)) : Prop :=
  match r1, r2 with
  | Ok (s1, p1, c1), Ok (s2, p2, c2) =>
      s1 = s2 /\ p1 = p2 /\ sorted c1 = sorted c2
  | Raise e1, Raise e2 => e1 = e2
  | _, _ => False
  end.

(** The first row carries what the writers require of it: a station
    code, a network identifier that is text, a latitude and a longitude
    that are numbers. *)
Definition required_cells (tmprow : list (string * cell)) : Prop :=
  (exists v, get tmprow "STATION" = Ok v) /\
  (exists s, get tmprow "NETID" = Ok (Scalar (CStr s))) /\
  (exists x, get tmprow "LAT" = Ok (Scalar (CNum x))) /\
  (exists x, get tmprow "LON" = Ok (Scalar (CNum x))).

End table_spec.

(** ** Further sample inputs *)

Module more_samples.

Import mpl cpalette cpalette_samples pandas table table_samples.
Open Scope string_scope.

(** A palette file with comments and a table only. *)
Definition plain_lines : list string :=
  map (fun l => l ++ pystr.nl)
    ["#A palette without directives.";
     "Z0 R0  G0  B0  Z1  R1  G1  B1";
     "0   0   0   0   1  85  85  85";
     "1  85  85  85   2 170 170 170";
     "2 170 170 170   3 255 255 255"].

(** A palette file whose nan colour directive has no colon. *)
Definition broken_lines : list string :=
  map (fun l => l ++ pystr.nl)
    ["#$nan_color 0,0,0,0";
     "Z0 R0  G0  B0  Z1  R1  G1  B1";
     "0   0   0   0   1  85  85  85"].

(** Three rows of two stations: the second row names the station of the
    first with its network written out. *)
Definition stations_frame : DataFrame :=
  mkdf true
    (base_columns ++ [("ELEV", "")] ++ channel_columns "HHE")%list
    [num 0; num 1; num 2]
    [[CStr "ABC"; num 34; num (-118); CStr "CI"; num 100;
      num 1; num 2; num 3; num 4; num 5];
     [CStr "CI.ABC"; num 34; num (-118); CStr "CI"; num 100;
      num 6; num 7; num 8; num 9; num 10];
     [CStr "XYZ"; num 35; num (-117); CStr "CI"; num 200;
      CNum NaN; num 1; num 2; num 3; num 4]].

Definition first_row (df : DataFrame) : list (string * string * cell) :=
  match rows df with
  | r :: _ => series df r
  | [] => []
  end.

Definition second_row (df : DataFrame) : list (string * string * cell) :=
  match rows df with
  | _ :: r :: _ => series df r
  | _ => []
  end.

(** A table grouped by channel in which a measurement cell holds
    blanks. *)
Definition blank_frame : DataFrame :=
  mkdf true
    (base_columns ++ [("HHE", "PGA"); ("HHE", "PGV")])%list
    [num 0]
    [[CStr "ABC"; num 34; num (-118); CStr "CI"; CStr "  "; num 2]].

(** A workbook with the given content of A1 and nothing else. *)
Definition titled_workbook (a1 : option cell) : Workbook :=
  mkwb (fun c => match c with
                 | ("A", 1%Z) => a1
                 | _ => None
                 end)
       (Raise (ValueError "no table"))
       (Raise (ValueError "no table")).

(** A table with one row of headers, the first of which is not
    STATION. *)
Definition flat_frame : DataFrame :=
  mkdf false
    [("CODE", ""); ("LAT", ""); ("LON", ""); ("NETID", ""); ("PGA", "")]
    [num 0]
    [[CStr "ABC"; num 34; num (-118); CStr "CI"; num 1]].

Definition flat_workbook : Workbook :=
  mkwb (fun c => match c with
                 | ("A", 1%Z) => Some (CStr "REFERENCE")
                 | ("B", 1%Z) => Some (CStr "Smith et al.")
                 | ("A", 2%Z) => Some (CStr "CODE")
                 | ("A", 3%Z) => Some (CStr "ABC")
                 | _ => None
                 end)
       (Raise (ValueError "not a grouped table"))
       (Ok flat_frame).

End more_samples.

(** ** Vocabulary of the further table properties *)

Module table_more_spec.

Import pandas table table_spec.
Open Scope string_scope.

(** The column of the sheet with the given index: [letters[i]]. *)
Definition letter (i : nat) : string :=
  match String.get i letters with
  | Some c => String c EmptyString
  | None => EmptyString
  end.

(** The period in seconds that the name of a spectral kind stands for. *)
Definition spectral_period (pgm : string) : option Q :=
  if String.eqb pgm "psa03" then Some (3 # 10)%Q
  else if String.eqb pgm "psa10" then Some 1%Q
  else if String.eqb pgm "psa30" then Some 3%Q
  else None.

(** A column name that starts with [SA] and whose first number is, as
    a double, the double nearest to the period. *)
Definition period_column (period : Q) (imt : string) : bool :=
  pystr.startswith imt "SA"
  && match re.search FLOATRE imt with
     | Some g => match decimal g with
                 | Some q => xeqb (nearest_float64 q)
                                  (nearest_float64 period)
                 | None => false
                 end
     | None => false
     end.

(** The station codes of a written tree: the [code] attributes of the
    children of the station list. *)
Definition code_of (x : xml) : string :=
  match x with
  | Element _ attrib _ =>
      match cpalette.lookup "code" attrib with
      | Some c => c
      | None => ""
      end
  end.

Definition station_codes (root : xml) : list string :=
  match root with
  | Element _ _ [Element _ _ stations] => map code_of stations
  | _ => []
  end.

(** The codes in order of first appearance, without the ones seen. *)
Fixpoint distinct (seen l : list string) : list string :=
  match l with
  | [] => []
  | c :: tl =>
      if mem c seen then distinct seen tl
      else c :: distinct (seen ++ [c])%list tl
  end.

(** The station codes of the rows of a frame. *)
Definition row_codes (w : World) (df : DataFrame) : result (list string) :=
  mapM (fun r => station_code w (droplevel (series df r))) (rows df).

(** The features of a written collection, and the code a feature
    carries among its properties. *)
Definition features (j : json) : list json :=
  match j with
  | JDict d => match cpalette.lookup "features" d with
               | Some (JList l) => l
               | _ => []
               end
  | _ => []
  end.

Definition feature_code (f : json) : option json :=
  match f with
  | JDict d => match cpalette.lookup "properties" d with
               | Some (JDict props) => cpalette.lookup "code" props
               | _ => None
               end
  | _ => None
  end.

(** The feature carries the part of the station code after its last
    dot. *)
Definition carries_code (f : json) (stationcode : string) : Prop :=
  exists code, getlast (pystr.split stationcode ".") = Ok code
               /\ feature_code f = Some (JStr code).

(** A cell of a measurement column below a channel: the second level
    of its label is one of the measurement names, the first is neither
    a required nor an optional column. *)
Definition measurement_cell (e : string * string * cell) : Prop :=
  In (snd (fst e)) PGM_COLS
  /\ mem (fst (fst e)) REQUIRED_COLUMNS = false
  /\ mem (fst (fst e)) OPTIONAL = false.

(** Every such cell of the frame is a number. *)
Definition numeric_cells (df : DataFrame) : Prop :=
  forall r e,
    In r (rows df) -> In e (series df r) -> measurement_cell e ->
    exists x, snd e = CNum x.

(** Every label in the set carries a number, in every row. *)
Definition numeric_at (P : string * string -> Prop) (df : DataFrame)
  : Prop :=
  forall r e, In r (rows df) -> In e (series df r) -> P (fst e) ->
              exists x, snd e = CNum x.

End table_more_spec.
(* ================================================================= *)
(** * Properties of the colour palette *)

Module cpalette_facts.

Import mpl cpalette cpalette_spec.
Open Scope Q_scope.

(** *** Boolean comparisons on rationals *)

Lemma Qltb_lt (a b : Q) : Qltb a b = true <-> a < b.
Proof.
  unfold Qltb. rewrite negb_true_iff.
  split; intro H.
  - apply Qnot_le_lt. intro Hle. apply Qle_bool_iff in Hle. congruence.
  - destruct (Qle_bool b a) eqn:E; [|reflexivity].
    apply Qle_bool_iff in E. exfalso. apply (Qlt_not_le _ _ H E).
Qed.

Lemma Qltb_ge (a b : Q) : Qltb a b = false <-> b <= a.
Proof.
  unfold Qltb. rewrite negb_false_iff. apply Qle_bool_iff.
Qed.

Lemma Qeq_bool_false (a b : Q) : ~ a == b -> Qeq_bool a b = false.
Proof.
  intro H. destruct (Qeq_bool a b) eqn:E; [|reflexivity].
  apply Qeq_bool_iff in E. contradiction.
Qed.

Lemma Qeq_bool_true (a b : Q) : a == b -> Qeq_bool a b = true.
Proof. apply Qeq_bool_iff. Qed.

(** *** Minimum and maximum of an ascending array *)

Lemma fold_min_head (a : Q) (tl : list Q) :
  Forall (Qle a) tl ->
  fold_left (fun m b => if Qltb b m then b else m) tl a = a.
Proof.
  induction 1 as [|b tl Hab _ IH]; simpl; [reflexivity|].
  replace (Qltb b a) with false; [exact IH|].
  symmetry. now apply Qltb_ge.
Qed.

Lemma array_min_sorted (a : Q) (tl : list Q) :
  Sorted Qle (a :: tl) -> array_min (a :: tl) = Ok a.
Proof.
  intro HS. apply Sorted_StronglySorted in HS.
  - inversion HS; subst. simpl. now rewrite fold_min_head.
  - intros x y z. apply Qle_trans.
Qed.

Lemma fold_max_last (tl : list Q) : forall a m,
  m == a -> Sorted Qle (a :: tl) ->
  fold_left (fun m b => if Qltb m b then b else m) tl m == last (a :: tl) 0.
Proof.
  induction tl as [|b tl IH]; intros a m Hm HS; simpl; [exact Hm|].
  inversion HS as [|? ? HS' Hhd]; subst. inversion Hhd; subst.
  destruct (Qltb m b) eqn:E.
  - apply (IH b b); [reflexivity | exact HS'].
  - apply Qltb_ge in E.
    assert (Hmb : m == b) by (apply Qle_antisym; [rewrite Hm|]; assumption).
    apply (IH b m); assumption.
Qed.

Lemma array_max_sorted (a : Q) (tl : list Q) :
  Sorted Qle (a :: tl) ->
  exists M, array_max (a :: tl) = Ok M /\ M == last (a :: tl) 0.
Proof.
  intro HS. eexists. split; [reflexivity|].
  apply fold_max_last; [reflexivity | exact HS].
Qed.

(** *** The rows the constructor builds *)

Lemma nth_error_app_exact {A : Type} (p s : list A) (a : A) (n : nat) :
  List.length p = n -> nth_error (p ++ a :: s) n = Some a.
Proof. intros <-. induction p; simpl; auto. Qed.

Lemma app_cons_snoc {A : Type} (p : list A) (a : A) (s : list A) :
  p ++ a :: s = (p ++ [a]) ++ s.
Proof. now rewrite <- app_assoc. Qed.

Lemma add_rows_from (xs : list xfloat) :
  forall (s0 s1 : list RGB) (xp : list xfloat) (p0 p1 : list RGB) cd,
    len s0 = len xs -> len s1 = len xs ->
    len p0 = len xp -> len p1 = len xp ->
    foldM (add_row (xp ++ xs) (p0 ++ s0) (p1 ++ s1))
          (seq (len xp) (len xs)) cd
    = Ok (mkcdict (red cd ++ rows ch_r xs s0 s1)
                  (green cd ++ rows ch_g xs s0 s1)
                  (blue cd ++ rows ch_b xs s0 s1)).
Proof.
  unfold len.
  induction xs as [|xi xs IH]; intros s0 s1 xp p0 p1 cd H0 H1 Hp0 Hp1.
  - simpl. rewrite !app_nil_r. now destruct cd.
  - destruct s0 as [|c0 s0]; [discriminate|].
    destruct s1 as [|c1 s1]; [discriminate|].
    cbn [List.length seq foldM].
    unfold add_row at 1, getitem.
    rewrite (nth_error_app_exact p1 s1 c1 Hp1).
    rewrite (nth_error_app_exact p0 s0 c0 Hp0).
    rewrite (nth_error_app_exact xp xs xi eq_refl).
    destruct c1 as [[r1 g1] b1], c0 as [[r0 g0] b0].
    cbn [bind].
    rewrite (app_cons_snoc xp), (app_cons_snoc p0), (app_cons_snoc p1).
    replace (S (List.length xp)) with (List.length (xp ++ [xi]))
      by (rewrite length_app; simpl; lia).
    rewrite IH.
    + cbn [red green blue rows ch_r ch_g ch_b fst snd].
      now rewrite <- !app_assoc.
    + simpl in H0. lia.
    + simpl in H1. lia.
    + rewrite !length_app. simpl. lia.
    + rewrite !length_app. simpl. lia.
Qed.

Lemma add_rows (x : list xfloat) (rgb0_t rgb1_t : list RGB) :
  len rgb0_t = len x -> len rgb1_t = len x ->
  foldM (add_row x rgb0_t rgb1_t) (seq 0 (len x)) (mkcdict [] [] [])
  = Ok (mkcdict (rows ch_r x rgb0_t rgb1_t) (rows ch_g x rgb0_t rgb1_t)
                (rows ch_b x rgb0_t rgb1_t)).
Proof.
  intros H0 H1.
  apply (add_rows_from x rgb0_t rgb1_t [] [] [] (mkcdict [] [] []));
    auto.
Qed.

(** *** The lookup table and its two ends *)

Lemma getlast_snoc {A : Type} (l : list A) (a : A) :
  getlast (l ++ [a]) = Ok a.
Proof. unfold getlast. now rewrite rev_unit. Qed.

Lemma length_interior {A : Type} (l : list A) :
  List.length (interior l) = (List.length l - 2)%nat.
Proof.
  unfold interior. rewrite removelast_firstn_len, length_firstn.
  destruct l; simpl; lia.
Qed.

(** A table whose positions start at 0, end at 1 and never decrease is
    accepted; the lookup table then has [n] entries, the first one the
    leaving value of the first row, the last one the arriving value of
    the last row. *)
Lemma create_lookup_table_shape (n : nat) (first last : row)
    (mid : list row) :
  (2 <= n)%nat ->
  xeqb (row_x first) (Fin 0) = true ->
  xeqb (row_x last) (Fin 1) = true ->
  existsb (fun d => xltb d (Fin 0))
          (diff (map row_x (first :: mid ++ [last]))) = false ->
  exists inner,
    List.length inner = (n - 2)%nat /\
    _create_lookup_table n (first :: mid ++ [last])
    = Ok (clip01 (row_y1 first) :: inner ++ [clip01 (row_y0 last)]).
Proof.
  intros Hn H0 H1 Hd.
  unfold _create_lookup_table.
  rewrite Hd.
  change (first :: mid ++ [last]) with ((first :: mid) ++ [last]).
  rewrite !map_app. cbn [map]. rewrite !getlast_snoc.
  cbn [app getitem nth_error bind].
  unfold xneb. rewrite H0, H1. cbn [negb orb].
  destruct n as [|[|n]]; [lia | lia |].
  cbn [Nat.eqb].
  cbn [map]. rewrite map_app. cbn [map].
  eexists. split; [|reflexivity].
  rewrite length_map, length_map, length_interior, length_map, length_seq.
  lia.
Qed.

Lemma at_first (a : xfloat) (l : list xfloat) : at_ (a :: l) 0 = a.
Proof. reflexivity. Qed.

Lemma at_last (a z : xfloat) (inner : list xfloat) (n : nat) :
  (2 <= n)%nat -> List.length inner = (n - 2)%nat ->
  at_ (a :: inner ++ [z]) (n - 1) = z.
Proof.
  intros Hn Hl. unfold at_.
  replace (n - 1)%nat with (S (List.length inner)) by lia.
  cbn [nth]. rewrite app_nth2 by lia.
  now rewrite Nat.sub_diag.
Qed.

Lemma inject_nat_pos (n : nat) : (1 <= n)%nat -> 0 < inject_Z (Z.of_nat n).
Proof.
  intro H. change 0 with (inject_Z 0). rewrite <- Zlt_Qlt. lia.
Qed.

(** The normalized value 0 selects the first table entry. *)
Lemma lut_index_zero (n : nat) (t : Q) :
  (1 <= n)%nat -> t == 0 -> lut_index n (Fin t) = Some 0%nat.
Proof.
  intros Hn Ht. unfold lut_index. cbn [xmul].
  pose proof (inject_nat_pos Hn) as Hpos.
  assert (Hz : t * inject_Z (Z.of_nat n) == 0) by (rewrite Ht; ring).
  cbn [xeqb]. rewrite Qeq_bool_false by (rewrite Hz; lra).
  replace (Qltb (t * inject_Z (Z.of_nat n)) 0) with false
    by (symmetry; apply Qltb_ge; rewrite Hz; lra).
  replace (Qle_bool (inject_Z (Z.of_nat n)) (t * inject_Z (Z.of_nat n)))
    with false.
  - now rewrite (Qfloor_comp _ _ Hz).
  - symmetry. destruct (Qle_bool _ _) eqn:E; [|reflexivity].
    apply Qle_bool_iff in E. rewrite Hz in E. lra.
Qed.

(** The normalized value 1 selects the last table entry. *)
Lemma lut_index_one (n : nat) (t : Q) :
  (1 <= n)%nat -> t == 1 -> lut_index n (Fin t) = Some (n - 1)%nat.
Proof.
  intros Hn Ht. unfold lut_index. cbn [xmul xeqb].
  rewrite Qeq_bool_true by (rewrite Ht; ring).
  assert (Hlt : inject_Z (Z.of_nat (n - 1)) < inject_Z (Z.of_nat n))
    by (rewrite <- Zlt_Qlt; lia).
  assert (Hge : 0 <= inject_Z (Z.of_nat (n - 1)))
    by (change 0 with (inject_Z 0); rewrite <- Zle_Qle; lia).
  replace (Qltb (inject_Z (Z.of_nat (n - 1))) 0) with false
    by (symmetry; now apply Qltb_ge).
  replace (Qle_bool (inject_Z (Z.of_nat n)) (inject_Z (Z.of_nat (n - 1))))
    with false.
  - now rewrite Qfloor_Z, Nat2Z.id.
  - symmetry. destruct (Qle_bool _ _) eqn:E; [|reflexivity].
    apply Qle_bool_iff in E. lra.
Qed.

(** *** Positions of the rows *)

(** *** Results within the machine range *)

Lemma int64_limit_pos : 1 < int64_limit.
Proof. reflexivity. Qed.

Lemma int64_below_float64 : int64_limit < float64_limit.
Proof. reflexivity. Qed.

Lemma exact_below_int64 : 2 * exact_limit < int64_limit.
Proof. reflexivity. Qed.

Lemma Qle_bool_false (a b : Q) : b < a -> Qle_bool a b = false.
Proof.
  intro H. apply Qltb_lt in H. unfold Qltb in H.
  now apply negb_true_iff in H.
Qed.

Lemma wrap_int64_id (q : Q) :
  - int64_limit <= q < int64_limit -> wrap_int64 q = q.
Proof.
  intros [H1 H2]. unfold wrap_int64.
  rewrite (proj2 (Qle_bool_iff _ _) H1), (proj2 (Qltb_lt _ _) H2).
  reflexivity.
Qed.

Lemma to_float64_finite (q : Q) :
  - float64_limit < q < float64_limit -> to_float64 q = Fin q.
Proof.
  intros [H1 H2]. unfold to_float64.
  now rewrite (@Qle_bool_false _ _ H2), (@Qle_bool_false _ _ H1).
Qed.

(** A range within the machine numbers is below the largest double,
    and below [2**63] when the lower bound is an [int64]. *)
Lemma machine_range_float64 (t0 t1 : dtype) (m M : Q) :
  machine_range t0 t1 m M -> M - m < float64_limit.
Proof.
  pose proof int64_below_float64. pose proof exact_below_int64.
  destruct t0, t1; cbn [machine_range]; lra.
Qed.

Lemma machine_range_int64 (t1 : dtype) (m M : Q) :
  machine_range int64 t1 m M -> M - m < int64_limit.
Proof.
  pose proof exact_below_int64.
  destruct t1; cbn [machine_range]; lra.
Qed.

(** The difference of a number and a numpy scalar, when it stays in the
    range of its dtype. *)
Lemma num_sub_exact (b i : bool) (v : Q) (t0 : dtype) (m : Q) :
  (i = true -> t0 = int64 -> - int64_limit <= v - m < int64_limit) ->
  - float64_limit < v - m < float64_limit ->
  num_sub (mknum b i (Fin v)) (scalar t0 m)
  = mknum true (i && is_integer t0) (Fin (v - m)).
Proof.
  intros Hi Hf. unfold num_sub, scalar. cbn [is_np is_int val].
  rewrite orb_true_r. cbn [xsub xneg xadd].
  change (v + - m) with (v - m).
  destruct i, t0; cbn [andb is_integer int64_result float64_result].
  - now rewrite (@wrap_int64_id _ (Hi eq_refl eq_refl)).
  - now rewrite (@to_float64_finite _ Hf).
  - now rewrite (@to_float64_finite _ Hf).
  - now rewrite (@to_float64_finite _ Hf).
Qed.

(** The normalized position of a value between the bounds [m < M] of a
    palette, as [getDataColor] and the constructor compute it. *)
Lemma true_divide_exact (b i : bool) (v : Q) (t0 t1 : dtype) (m M : Q) :
  m < M -> machine_range t0 t1 m M ->
  (i = true -> t0 = int64 -> - int64_limit <= v - m < int64_limit) ->
  - float64_limit < v - m < float64_limit ->
  true_divide (num_sub (mknum b i (Fin v)) (scalar t0 m))
              (num_sub (scalar t1 M) (scalar t0 m))
  = mknum true false (to_float64 ((v - m) / (M - m))).
Proof.
  intros HmM Hr Hi Hf.
  pose proof int64_limit_pos. pose proof int64_below_float64.
  pose proof (@machine_range_float64 _ _ _ _ Hr).
  rewrite (@num_sub_exact b i v t0 m Hi Hf).
  unfold scalar at 1. rewrite num_sub_exact.
  - unfold true_divide. cbn [val xdiv float64_result].
    rewrite Qeq_bool_false by lra. reflexivity.
  - intros Ht1 ->. destruct t1; [|discriminate].
    cbn [machine_range] in Hr. lra.
  - lra.
Qed.

Lemma normalized_value (b i : bool) (v : Q) (t0 t1 : dtype) (m M : Q) :
  m < M -> machine_range t0 t1 m M ->
  (i = true -> t0 = int64 -> - int64_limit <= v - m < int64_limit) ->
  - float64_limit < v - m < float64_limit ->
  num_div (num_sub (mknum b i (Fin v)) (scalar t0 m))
          (num_sub (scalar t1 M) (scalar t0 m))
  = Ok (mknum true false (to_float64 ((v - m) / (M - m)))).
Proof.
  intros HmM Hr Hi Hf.
  rewrite <- (@true_divide_exact b i v t0 t1 m M HmM Hr Hi Hf).
  unfold num_div, num_sub, scalar. cbn [is_np is_int val].
  rewrite !orb_true_r.
  destruct (i && is_integer t0), (is_integer t1 && is_integer t0);
    reflexivity.
Qed.

(** A difference that is zero, or not a number, is what it is in
    every dtype. *)
Lemma num_sub_is_np (a b : num) :
  is_np (num_sub a b) = is_np a || is_np b.
Proof. unfold num_sub. now destruct (is_int a && is_int b). Qed.

Lemma num_sub_zero (a b : num) (r : Q) :
  xsub (val a) (val b) = Fin r -> r == 0 -> val (num_sub a b) = Fin r.
Proof.
  intros Hr H0. unfold num_sub. rewrite Hr.
  pose proof int64_limit_pos. pose proof int64_below_float64.
  destruct (is_int a && is_int b); cbn [val].
  - destruct (is_np a || is_np b); [|reflexivity].
    cbn [int64_result]. rewrite wrap_int64_id; [reflexivity|].
    rewrite H0. lra.
  - cbn [float64_result]. apply to_float64_finite. rewrite H0. lra.
Qed.

Lemma num_sub_nan (a b : num) :
  xsub (val a) (val b) = NaN -> val (num_sub a b) = NaN.
Proof.
  intros Hr. unfold num_sub. rewrite Hr.
  destruct (is_int a && is_int b); cbn [val]; [|reflexivity].
  now destruct (is_np a || is_np b).
Qed.

Lemma unit_quotient (m M zi : Q) :
  m < M -> m <= zi <= M -> 0 <= (zi - m) / (M - m) <= 1.
Proof.
  intros HmM [H1 H2]. split.
  - apply Qle_shift_div_l; lra.
  - apply Qle_shift_div_r; lra.
Qed.

(** *** Positions of the rows *)

(** For data between the bounds the adjusted values are the exact
    quotients. *)
Lemma adjust_exact (t0 t1 tz : dtype) (m M : Q) (z : list Q) :
  m < M -> machine_range t0 t1 m M ->
  Forall (fun zi => m <= zi <= M) z ->
  adjust (scalar t0 m) (scalar t1 M) (mkarray tz z)
  = map (fun zi => Fin ((zi - m) / (M - m))) z.
Proof.
  intros HmM Hr Hz. unfold adjust. cbn [values dtype_of].
  pose proof int64_limit_pos. pose proof int64_below_float64.
  pose proof (@machine_range_float64 _ _ _ _ Hr) as Hfl.
  induction Hz as [|zi z Hzi _ IH]; [reflexivity|].
  cbn [map]. rewrite IH. apply (f_equal (fun x => x :: _)).
  unfold scalar at 1. rewrite true_divide_exact; try assumption.
  - cbn [val]. apply to_float64_finite.
    pose proof (@unit_quotient m M zi HmM Hzi) as Hq.
    revert Hq. generalize ((zi - m) / (M - m)). intros q Hq. lra.
  - intros _ ->. pose proof (@machine_range_int64 _ _ _ Hr). lra.
  - lra.
Qed.

Lemma sorted_above_head (a : Q) (l : list Q) :
  Sorted Qle (a :: l) -> Forall (Qle a) (a :: l).
Proof.
  intro HS. apply Sorted_StronglySorted in HS;
    [|intros x y z; apply Qle_trans].
  inversion HS; subst. constructor; [apply Qle_refl | assumption].
Qed.

Lemma sorted_below_last (l : list Q) (d : Q) :
  Sorted Qle l -> Forall (fun x => x <= last l d) l.
Proof.
  intro HS. apply Sorted_StronglySorted in HS;
    [|intros x y z; apply Qle_trans].
  induction HS as [|a l HS IH Ha]; [constructor|].
  destruct l as [|b l].
  - constructor; [apply Qle_refl | constructor].
  - constructor.
    + change (last (a :: b :: l) d) with (last (b :: l) d).
      inversion IH; subst. inversion Ha; subst.
      eapply Qle_trans; eassumption.
    + exact IH.
Qed.

Lemma getlast_map {A C : Type} (f : A -> C) (l : list A) (d : A) :
  l <> [] -> getlast (map f l) = Ok (f (last l d)).
Proof.
  intro Hne. rewrite (app_removelast_last d Hne) at 1.
  rewrite map_app. cbn [map]. unfold getlast. now rewrite rev_unit.
Qed.

Lemma scaled_position_mono (m M a b : Q) :
  m < M -> a <= b -> (a - m) / (M - m) <= (b - m) / (M - m).
Proof.
  intros HmM Hab. unfold Qdiv. apply Qmult_le_compat_r; [lra|].
  apply Qlt_le_weak, Qinv_lt_0_compat. lra.
Qed.

Lemma diff_cons2 (a b : xfloat) (l : list xfloat) :
  diff (a :: b :: l) = xsub b a :: diff (b :: l).
Proof. reflexivity. Qed.

Lemma diff_nonneg (m M : Q) (zs : list Q) :
  m < M -> Sorted Qle zs ->
  existsb (fun d => xltb d (Fin 0))
          (diff (map (fun zi => Fin ((zi - m) / (M - m))) zs)) = false.
Proof.
  intros HmM. induction 1 as [|a l HS IH Hhd]; [reflexivity|].
  destruct l as [|b l]; [reflexivity|].
  inversion Hhd; subst.
  cbn [map] in *. rewrite diff_cons2. cbn [existsb].
  rewrite IH, orb_false_r.
  cbn [xsub xneg xadd xltb]. apply Qltb_ge.
  pose proof (scaled_position_mono HmM H0). lra.
Qed.

Lemma sorted_snoc (l : list Q) (z : Q) :
  Sorted Qle l -> last l z <= z -> Sorted Qle (l ++ [z]).
Proof.
  induction 1 as [|a l HS IH Hhd]; intro Hl.
  - repeat constructor.
  - destruct l as [|b l].
    + simpl in *. repeat constructor. exact Hl.
    + cbn [app]. constructor.
      * apply IH. exact Hl.
      * inversion Hhd; subst. now constructor.
Qed.

Lemma Forall2_last (l1 l2 : list Q) (d1 d2 : Q) :
  Forall2 Qle l1 l2 -> l1 <> [] -> last l1 d1 <= last l2 d2.
Proof.
  induction 1 as [|a b l1 l2 Hab HF IH]; intro Hne; [congruence|].
  destruct HF as [|a' b' l1' l2' Hab' HF'].
  - exact Hab.
  - apply IH. discriminate.
Qed.

Lemma rows_snoc (ch : RGB -> Q) (xs : list xfloat) :
  forall (r0 r1 : list RGB) (xl : xfloat) (e c : RGB),
    List.length r0 = List.length xs -> List.length r1 = List.length xs ->
    rows ch (xs ++ [xl]) (r0 ++ [e]) (r1 ++ [c])
    = rows ch xs r0 r1 ++ [(xl, Fin (ch c / 255), Fin (ch e / 255))].
Proof.
  induction xs as [|xi xs IH]; intros [|c0 r0] [|c1 r1] xl e c H0 H1;
    try discriminate; [reflexivity|].
  cbn [app rows]. apply f_equal. apply IH; simpl in *; lia.
Qed.

Lemma rows_positions (ch : RGB -> Q) (x : list xfloat) :
  forall (r0 r1 : list RGB),
    List.length r0 = List.length x -> List.length r1 = List.length x ->
    map row_x (rows ch x r0 r1) = x.
Proof.
  induction x as [|xi x IH]; intros [|c0 r0] [|c1 r1] H0 H1;
    try discriminate; [reflexivity|].
  cbn [rows map]. apply f_equal2; [reflexivity|]. apply IH; simpl in *; lia.
Qed.

Lemma clip01_unit (q : Q) : 0 <= q <= 1 -> clip01 (Fin q) = Fin q.
Proof.
  intros [H0 H1]. unfold clip01, xltb.
  replace (Qltb q 0) with false by (symmetry; now apply Qltb_ge).
  replace (Qltb 1 q) with false by (symmetry; now apply Qltb_ge).
  reflexivity.
Qed.

Lemma clip01_scaled (c : Q) :
  0 <= c <= 255 -> clip01 (Fin (c / 255)) = Fin (c / 255).
Proof.
  intros [H0 H1]. apply clip01_unit. split.
  - apply Qle_shift_div_l; lra.
  - apply Qle_shift_div_r; lra.
Qed.

(** Ascending data lie between the minimum of [z0] and the maximum of
    [z1]. *)
Lemma ascending_between (z0 z1 : list Q) (m M : Q) :
  len z0 = len z1 ->
  array_min z0 = Ok m -> array_max z1 = Ok M -> ascending z0 z1 ->
  Forall (fun zi => m <= zi <= M) z0 /\ Forall (fun zi => m <= zi <= M) z1.
Proof.
  unfold len. intros Hlen Hmin Hmax (HS0 & HS1 & HF).
  destruct z0 as [|a0 z0]; [discriminate|].
  destruct z1 as [|b0 z1]; [discriminate|].
  rewrite (array_min_sorted HS0) in Hmin. injection Hmin as <-.
  destruct (array_max_sorted HS1) as (M' & HM' & HMlast).
  rewrite HM' in Hmax. injection Hmax as ->.
  pose proof (sorted_above_head HS0) as Hlow.
  pose proof (sorted_below_last 0 HS1) as Hhigh.
  assert (H1 : Forall (fun zi => a0 <= zi <= M) (b0 :: z1)).
  { rewrite Forall_forall in *. intros x Hx. split.
    - apply Qle_trans with b0; [now inversion HF|].
      pose proof (sorted_above_head HS1) as Hb.
      rewrite Forall_forall in Hb. now apply Hb.
    - rewrite HMlast. now apply Hhigh. }
  split; [|exact H1].
  clear - HF Hlow H1.
  revert Hlow H1. generalize (a0 :: z0) (b0 :: z1) HF.
  induction 1 as [|x y l0 l1 Hxy _ IH]; intros Hlow H1; [constructor|].
  inversion Hlow; subst. inversion H1; subst.
  constructor; [|now apply IH].
  split; [assumption|]. apply Qle_trans with y; [assumption | tauto].
Qed.

(** *** The constructor on equal-length input *)

Lemma init_equal_lengths (name : string) (t0 t1 : dtype) (z0 z1 : list Q)
    (rgb0 rgb1 : list RGB) (nan : option (list Q)) (bad : RGBA) (m M : Q) :
  len z0 = len z1 -> len z1 = len rgb0 -> len rgb0 = len rgb1 ->
  array_min z0 = Ok m -> array_max z1 = Ok M -> m < M ->
  ascending z0 z1 -> machine_range t0 t1 m M ->
  to_rgba nan = Ok bad ->
  __init__ name (mkarray t0 z0) (mkarray t1 z1) rgb0 rgb1 nan
  = Ok (built name nan bad t0 t1 m M z0 z1 rgb0 rgb1).
Proof.
  intros H01 H1r Hrr Hmin Hmax HmM Hasc Hrange Hbad.
  destruct (ascending_between H01 Hmin Hmax Hasc) as [Hb0 Hb1].
  unfold len in *.
  unfold __init__, len. cbn [values dtype_of].
  rewrite H01, Nat.eqb_refl. cbn [negb andb].
  rewrite Hmin, Hmax. cbn [bind].
  assert (Hne : z1 <> []) by (intros ->; discriminate).
  rewrite (@adjust_exact t0 t1 t0 m M z0 HmM Hrange Hb0),
    (@adjust_exact t0 t1 t1 m M z1 HmM Hrange Hb1).
  rewrite (@getlast_map _ _ _ z1 0 Hne). cbn [bind].
  replace (map (fun zi => Fin ((zi - m) / (M - m))) z0 ++
           [Fin ((last z1 0 - m) / (M - m))])
    with (positions m M z0 z1)
    by (unfold positions; now rewrite map_app).
  assert (Hx : List.length (positions m M z0 z1) = S (List.length z0))
    by (unfold positions; rewrite length_map, length_app; simpl; lia).
  change (List.length (positions m M z0 z1))
    with (len (positions m M z0 z1)).
  rewrite add_rows.
  - cbn [bind]. unfold set_bad. rewrite Hbad. reflexivity.
  - unfold len. rewrite length_app, Hx. simpl. lia.
  - unfold len. rewrite Hx. simpl. lia.
Qed.

Lemma nth_error_last {A : Type} (l : list A) (c : A) :
  nth_error l (List.length l - 1) = Some c ->
  exists l', l = l' ++ [c].
Proof.
  intro H. destruct l as [|a l] using rev_ind.
  - simpl in H. discriminate.
  - clear IHl. exists l.
    rewrite length_app in H. cbn [List.length] in H.
    replace (List.length l + 1 - 1)%nat with (List.length l) in H by lia.
    rewrite nth_error_app2, Nat.sub_diag in H by lia.
    cbn in H. congruence.
Qed.

(** For each channel, the table the constructor builds is accepted by
    the colormap, and its lookup table starts with the first interval's
    start colour and ends with the last interval's end colour. *)
Lemma channel_lookup_table (ch : RGB -> Q) (m M : Q) (z0 z1 : list Q)
    (rgb0 rgb1 : list RGB) (c_first c_last : RGB) :
  len z0 = len z1 -> len z1 = len rgb0 -> len rgb0 = len rgb1 ->
  array_min z0 = Ok m -> array_max z1 = Ok M -> m < M ->
  ascending z0 z1 ->
  nth_error rgb0 0 = Some c_first ->
  nth_error rgb1 (len z0 - 1) = Some c_last ->
  exists inner,
    List.length inner = 254%nat /\
    _create_lookup_table 256
      (rows ch (positions m M z0 z1) (rgb0 ++ [(E, E, E)])
            ((B, B, B) :: rgb1))
    = Ok (clip01 (Fin (ch c_first / 255))
            :: inner ++ [clip01 (Fin (ch c_last / 255))]).
Proof.
  unfold len. intros H01 H1r Hrr Hmin Hmax HmM (HS0 & HS1 & HF) Hc0 Hc1.
  destruct z0 as [|a0 z0]; [discriminate|].
  destruct z1 as [|b0 z1]; [discriminate|].
  destruct rgb0 as [|c0 rgb0]; [discriminate|].
  cbn in Hc0. injection Hc0 as ->.
  rewrite H01, H1r, Hrr in Hc1.
  destruct (nth_error_last _ Hc1) as [rgb1i Hrgb1].
  rewrite (array_min_sorted HS0) in Hmin. injection Hmin as <-.
  destruct (array_max_sorted HS1) as (M' & HM' & HMlast).
  rewrite HM' in Hmax. injection Hmax as ->.
  assert (Hlen : List.length rgb1i = List.length z0).
  { rewrite Hrgb1, length_app in Hrr. simpl in *. lia. }
  assert (Hlen0 : List.length rgb0 = List.length z0) by (simpl in *; lia).
  unfold positions. rewrite Hrgb1.
  cbn [app map rows]. rewrite map_app. cbn [map].
  rewrite rows_snoc by (rewrite length_map; assumption).
  match goal with
  | |- context [_create_lookup_table _ (?f :: ?mid ++ [?l])] =>
      destruct (@create_lookup_table_shape 256 f l mid) as (inner & Hi & Ht)
  end.
  - lia.
  - cbn [row_x fst xeqb]. apply Qeq_bool_true. field. lra.
  - cbn [row_x fst xeqb]. apply Qeq_bool_true.
    rewrite <- HMlast. field. lra.
  - cbn [map]. rewrite map_app.
    rewrite rows_positions by (rewrite length_map; assumption).
    cbn [map row_x fst].
    change (Fin ((a0 - a0) / (M - a0))
              :: map (fun zi => Fin ((zi - a0) / (M - a0))) z0
              ++ [Fin ((last (b0 :: z1) 0 - a0) / (M - a0))])
      with (map (fun zi => Fin ((zi - a0) / (M - a0)))
                (a0 :: z0) ++
            map (fun zi => Fin ((zi - a0) / (M - a0)))
                [last (b0 :: z1) 0]).
    rewrite <- map_app.
    apply diff_nonneg; [exact HmM|].
    apply sorted_snoc; [exact HS0|].
    apply Forall2_last; [exact HF | discriminate].
  - exists inner. split; [exact Hi | exact Ht].
Qed.


End cpalette_facts.

Section BoundaryColours.

Import mpl cpalette cpalette_spec cpalette_facts.
Open Scope Q_scope.

Variables (name : string) (t0 t1 : dtype) (z0 z1 : list Q).
Variables (rgb0 rgb1 : list RGB).
Variables (nan : option (list Q)) (bad : RGBA) (m M : Q).
Variables (c_first c_last : RGB).

Hypothesis len_z : len z0 = len z1.
Hypothesis len_rgb0 : len z1 = len rgb0.
Hypothesis len_rgb1 : len rgb0 = len rgb1.
Hypothesis nonempty : (1 <= len z0)%nat.
Hypothesis z_min : array_min z0 = Ok m.
Hypothesis z_max : array_max z1 = Ok M.
Hypothesis domain : m < M.
Hypothesis z_sorted : ascending z0 z1.
Hypothesis in_range : machine_range t0 t1 m M.
Hypothesis first_colour : nth_error rgb0 0 = Some c_first.
Hypothesis last_colour : nth_error rgb1 (len z0 - 1) = Some c_last.
Hypothesis first_range : byte_range c_first.
Hypothesis last_range : byte_range c_last.
Hypothesis nan_ok : to_rgba nan = Ok bad.

(** The query of a value between the bounds goes to the colormap with
    the exact quotient. *)
Lemma query_between (b i : bool) (v : Q) :
  (i = true -> t0 = int64 -> - int64_limit <= v - m < int64_limit) ->
  - float64_limit < v - m < float64_limit ->
  getDataColor (built name nan bad t0 t1 m M z0 z1 rgb0 rgb1)
               (mknum b i (Fin v))
  = call (mkcmap name (table m M z0 z1 rgb0 rgb1) 256 bad)
         (to_float64 ((v - m) / (M - m))).
Proof.
  intros Hi Hf.
  unfold getDataColor, vmin, vmax, cmap, built.
  cbn [_vmin _vmax _cmap].
  rewrite (@normalized_value b i v t0 t1 m M domain in_range Hi Hf).
  reflexivity.
Qed.

Lemma lookup_tables :
  forall ch, exists inner,
    List.length inner = 254%nat /\
    _create_lookup_table 256
      (rows ch (positions m M z0 z1) (rgb0 ++ [(E, E, E)])
            ((B, B, B) :: rgb1))
    = Ok (clip01 (Fin (ch c_first / 255))
            :: inner ++ [clip01 (Fin (ch c_last / 255))]).
Proof.
  intro ch.
  exact (@channel_lookup_table ch m M z0 z1 rgb0 rgb1 c_first c_last
           len_z len_rgb0 len_rgb1 z_min z_max domain z_sorted
           first_colour last_colour).
Qed.

Lemma colour_at_vmin :
  getDataColor (built name nan bad t0 t1 m M z0 z1 rgb0 rgb1)
               (vmin (built name nan bad t0 t1 m M z0 z1 rgb0 rgb1))
  = Ok (scaled c_first).
Proof.
  pose proof int64_limit_pos. pose proof int64_below_float64.
  change (vmin (built name nan bad t0 t1 m M z0 z1 rgb0 rgb1))
    with (mknum true (is_integer t0) (Fin m)).
  rewrite query_between by (try intros _ _; lra).
  assert (Hq : (m - m) / (M - m) == 0) by (field; lra).
  rewrite to_float64_finite by (rewrite Hq; lra).
  unfold call. cbn [N _segmentdata table red green blue _rgba_bad].
  destruct (lookup_tables ch_r) as (ir & _ & ->).
  destruct (lookup_tables ch_g) as (ig & _ & ->).
  destruct (lookup_tables ch_b) as (ib & _ & ->).
  cbn [bind].
  rewrite lut_index_zero by (try lia; exact Hq).
  rewrite !at_first.
  destruct first_range as (Hr & Hg & Hb).
  now rewrite !clip01_scaled.
Qed.

Lemma colour_at_vmax :
  getDataColor (built name nan bad t0 t1 m M z0 z1 rgb0 rgb1)
               (vmax (built name nan bad t0 t1 m M z0 z1 rgb0 rgb1))
  = Ok (scaled c_last).
Proof.
  pose proof int64_limit_pos. pose proof int64_below_float64.
  pose proof (@machine_range_float64 _ _ _ _ in_range).
  change (vmax (built name nan bad t0 t1 m M z0 z1 rgb0 rgb1))
    with (mknum true (is_integer t1) (Fin M)).
  rewrite query_between.
  - assert (Hq : (M - m) / (M - m) == 1) by (field; lra).
    rewrite to_float64_finite by (rewrite Hq; lra).
    unfold call. cbn [N _segmentdata table red green blue _rgba_bad].
    destruct (lookup_tables ch_r) as (ir & Hir & ->).
    destruct (lookup_tables ch_g) as (ig & Hig & ->).
    destruct (lookup_tables ch_b) as (ib & Hib & ->).
    cbn [bind].
    rewrite lut_index_one by (try lia; exact Hq).
    rewrite !(@at_last _ _ _ 256) by (try lia; assumption).
    destruct last_range as (Hr & Hg & Hb).
    now rewrite !clip01_scaled.
  - intros Ht1 Ht0. destruct t1; [|discriminate]. rewrite Ht0 in in_range.
    cbn [machine_range] in in_range. lra.
  - lra.
Qed.

(** C1 (as amended). A palette built from equal-length sequences of
    length N >= 1, with min(z0) < max(z1), ascending z-values and a
    range that stays within the machine numbers of their dtypes,
    returns at its [vmin] the start colour of the first interval and at
    its [vmax] the end colour of the last interval, the channels scaled
    to [0,1]. *)
Theorem getDataColor_boundary_colours :
  exists q,
    __init__ name (mkarray t0 z0) (mkarray t1 z1) rgb0 rgb1 nan = Ok q /\
    getDataColor q (vmin q) = Ok (scaled c_first) /\
    getDataColor q (vmax q) = Ok (scaled c_last).
Proof using All.
  exists (built name nan bad t0 t1 m M z0 z1 rgb0 rgb1).
  split; [|split].
  - now apply init_equal_lengths.
  - apply colour_at_vmin.
  - apply colour_at_vmax.
Qed.

End BoundaryColours.

Section PaletteProperties.

Import mpl cpalette cpalette_spec cpalette_samples cpalette_facts.
Open Scope Q_scope.

(** The boundary colours of the palette of the [fromFile] docstring. *)
Lemma getDataColor_boundary_colours_sample :
  exists q,
    __init__ "test" (mkarray int64 [0; 1; 2]) (mkarray int64 [1; 2; 3])
             sample_rgb0 sample_rgb1 (Some [0; 0; 0; 0]) = Ok q /\
    getDataColor q (vmin q) = Ok (scaled (0, 0, 0)) /\
    getDataColor q (vmax q) = Ok (scaled (255, 255, 255)).
Proof.
  apply (@getDataColor_boundary_colours "test" int64 int64
           [0; 1; 2] [1; 2; 3]
           sample_rgb0 sample_rgb1 (Some [0; 0; 0; 0])
           (Fin 0, Fin 0, Fin 0, Fin 0) 0 3 (0, 0, 0) (255, 255, 255)).
  - reflexivity.
  - reflexivity.
  - reflexivity.
  - simpl. lia.
  - reflexivity.
  - reflexivity.
  - reflexivity.
  - unfold ascending. repeat split; repeat constructor; discriminate.
  - reflexivity.
  - reflexivity.
  - reflexivity.
  - unfold byte_range. simpl. repeat split; discriminate.
  - unfold byte_range. simpl. repeat split; discriminate.
  - reflexivity.
Defined.

(** Two int64 intervals from [-2**62] to [2**62] meet every condition of
    the boundary property but the range: [vmax - vmin] wraps around to
    [-2**63], the positions of the rows are 0, -1/2 and 1, and the
    colormap rejects them at the query of [vmin]. *)
Lemma getDataColor_wide_range_raises :
  len (values wide_z0) = len (values wide_z1)
  /\ len (values wide_z1) = len wide_rgb0
  /\ len wide_rgb0 = len wide_rgb1
  /\ ascending (values wide_z0) (values wide_z1)
  /\ (vmin <- array_min (values wide_z0) ;;
      vmax <- array_max (values wide_z1) ;;
      Ok (Qltb vmin vmax)) = Ok true
  /\ (q <- __init__ "wide" wide_z0 wide_z1 wide_rgb0 wide_rgb1
                    (Some [0; 0; 0; 0]) ;;
      getDataColor q (vmin q))
     = Raise (ValueError
         "data mapping points must have x in increasing order").
Proof.
  repeat split; try reflexivity.
  - repeat constructor; discriminate.
  - repeat constructor; discriminate.
  - repeat constructor; discriminate.
Qed.

(** The length check raises when every adjacent pair of lengths
    differs. *)
Lemma init_length_error (name : string) (z0 z1 : ndarray)
    (rgb0 rgb1 : list RGB) (nan : option (list Q)) :
  len (values z0) <> len (values z1) -> len (values z1) <> len rgb0 ->
  len rgb0 <> len rgb1 ->
  __init__ name z0 z1 rgb0 rgb1 nan
  = Raise (Exception
      "Lengths of input sequences to ColorPalette() must be identical.").
Proof.
  intros H1 H2 H3. unfold __init__.
  apply Nat.eqb_neq in H1, H2, H3. now rewrite H1, H2, H3.
Qed.

(** The loop over the rows raises nothing but [IndexError]. *)
Lemma add_row_raises (x : list xfloat) (rgb0_t rgb1_t : list RGB)
    (cd : segmentdata) (i : nat) (e : exn) :
  add_row x rgb0_t rgb1_t cd i = Raise e ->
  e = IndexError "list index out of range".
Proof.
  unfold add_row, getitem.
  destruct (nth_error rgb1_t i) as [[[r1 g1] b1]|]; cbn [bind];
    [|now intros [= <-]].
  destruct (nth_error rgb0_t i) as [[[r0 g0] b0]|]; cbn [bind];
    [|now intros [= <-]].
  destruct (nth_error x i); cbn [bind]; [discriminate | now intros [= <-]].
Qed.

Lemma add_rows_raise (x : list xfloat) (rgb0_t rgb1_t : list RGB)
    (idx : list nat) :
  forall (cd : segmentdata) (e : exn),
    foldM (add_row x rgb0_t rgb1_t) idx cd = Raise e ->
    e = IndexError "list index out of range".
Proof.
  induction idx as [|i idx IH]; intros cd e; cbn [foldM]; [discriminate|].
  destruct (add_row x rgb0_t rgb1_t cd i) as [cd'|e'] eqn:E; cbn [bind].
  - apply IH.
  - intros [= <-]. exact (add_row_raises _ _ _ _ _ E).
Qed.

(** The length error is raised only when all three neighbouring pairs
    of lengths differ; one equal pair lets any other mismatch through. *)
Lemma init_length_error_iff (name : string) (z0 z1 : ndarray)
    (rgb0 rgb1 : list RGB) (nan : option (list Q)) :
  __init__ name z0 z1 rgb0 rgb1 nan
  = Raise (Exception
      "Lengths of input sequences to ColorPalette() must be identical.")
  <-> len (values z0) <> len (values z1)
      /\ len (values z1) <> len rgb0 /\ len rgb0 <> len rgb1.
Proof.
  split; [|intros (H1 & H2 & H3); now apply init_length_error].
  unfold __init__.
  destruct (_ && _) eqn:E.
  - intros _. apply andb_prop in E. destruct E as (E & E3).
    apply andb_prop in E. destruct E as (E1 & E2).
    rewrite negb_true_iff in E1, E2, E3.
    now apply Nat.eqb_neq in E1, E2, E3.
  - unfold array_min, array_max.
    destruct (values z0); cbn [bind]; [discriminate|].
    destruct (values z1); cbn [bind]; [discriminate|].
    cbv zeta.
    unfold getlast. destruct (rev _); cbn [bind]; [discriminate|].
    destruct (foldM _ _ _) eqn:Ef; cbn [bind].
    + unfold set_bad, to_rgba.
      destruct nan as [[|? [|? [|? [|? [|? ?]]]]]|]; cbn [bind];
        try discriminate;
        destruct (existsb _ _); discriminate.
    + intros [= ->]. apply add_rows_raise in Ef. discriminate.
Qed.

(** C2. Three intervals with four colours each are not rejected: the
    length check only compares neighbours, and all three comparisons
    must differ for it to raise.  The palette is built and answers
    queries. *)
Theorem init_accepts_unequal_lengths :
  is_ok (__init__ "test" (mkarray int64 [0; 1; 2])
                  (mkarray int64 [1; 2; 3]) four_rgb0 four_rgb1
                  (Some [0; 0; 0; 0])) = true /\
  (p <- __init__ "test" (mkarray int64 [0; 1; 2])
                 (mkarray int64 [1; 2; 3]) four_rgb0 four_rgb1
                 (Some [0; 0; 0; 0]) ;;
   getDataColor p (py 3))
  = Ok (Fin (255 # 255), Fin (255 # 255), Fin (255 # 255), Fin 1).
Proof. split; vm_compute; reflexivity. Qed.

(** *** The degenerate domain *)

(** With [vmin] moved up to [vmax], the preset palette answers a query at
    that value with its NaN colour; nothing is raised. *)
Lemma getDataColor_degenerate_returns_nan_color :
  (p <- fromPreset "mmi" ;; getDataColor (set_vmin p (py 10)) (py 10))
  = Ok (Fin 0, Fin 0, Fin 0, Fin 0).
Proof. vm_compute. reflexivity. Qed.

(** A bad value is looked up without looking at it: a table that answers
    one query answers NaN with the bad colour. *)
Lemma call_nan (cm : LinearSegmentedColormap) (X : xfloat) :
  is_ok (call cm X) = true -> call cm NaN = Ok (_rgba_bad cm).
Proof.
  unfold call.
  destruct (_create_lookup_table (N cm) (red (_segmentdata cm)));
    [|discriminate].
  destruct (_create_lookup_table (N cm) (green (_segmentdata cm)));
    [|discriminate].
  destruct (_create_lookup_table (N cm) (blue (_segmentdata cm)));
    [|discriminate].
  intros _. reflexivity.
Qed.

(** C3 (as amended). [getDataColor] does not check the domain.  When
    [vmin] equals [vmax] and the normalized position of the value is NaN,
    the call raises [ZeroDivisionError] only if the value and both bounds
    are plain Python numbers; as soon as one of them is a numpy scalar the
    division is carried out silently, and a palette whose colour table is
    valid returns its NaN colour. *)
Theorem getDataColor_degenerate_domain
    (p : ColorPalette) (value : num) (a b : Q) (X : xfloat) :
  val (vmin p) = Fin a -> val (vmax p) = Fin b -> a == b ->
  isnan (xdiv (xsub (val value) (Fin a)) (xsub (Fin b) (Fin a))) = true ->
  is_ok (call (cmap p) X) = true ->
  getDataColor p value =
    if is_np value || is_np (vmin p) || is_np (vmax p)
    then Ok (_rgba_bad (cmap p))
    else Raise ZeroDivisionError.
Proof.
  intros Hmin Hmax Hab Hnan Hok.
  assert (Hr : b + - a == 0) by (rewrite Hab; ring).
  assert (HR : val (num_sub (vmax p) (vmin p)) = Fin (b + - a)).
  { apply num_sub_zero; [now rewrite Hmin, Hmax | exact Hr]. }
  assert (Hz : xeqb (Fin (b + - a)) (Fin 0) = true)
    by (cbn; now apply Qeq_bool_true).
  assert (HD : xdiv (val (num_sub value (vmin p))) (Fin (b + - a)) = NaN).
  { cbn [xsub xneg xadd] in Hnan.
    destruct (val value) as [v| | |] eqn:Hv.
    - cbn [xsub xneg xadd xdiv] in Hnan.
      rewrite (@Qeq_bool_true _ _ Hr) in Hnan.
      destruct (Qeq_bool (v + - a) 0) eqn:Hd;
        [|destruct (Qltb (v + - a) 0); discriminate].
      apply Qeq_bool_iff in Hd.
      rewrite (@num_sub_zero value (vmin p) (v + - a));
        [|now rewrite Hv, Hmin | exact Hd].
      cbn [xdiv]. now rewrite (@Qeq_bool_true _ _ Hr), (@Qeq_bool_true _ _ Hd).
    - cbn [xsub xneg xadd xdiv] in Hnan.
      destruct (Qltb (b + - a) 0); discriminate.
    - cbn [xsub xneg xadd xdiv] in Hnan.
      destruct (Qltb (b + - a) 0); discriminate.
    - rewrite num_sub_nan; [reflexivity | now rewrite Hv, Hmin]. }
  unfold getDataColor, num_div.
  rewrite !num_sub_is_np, HR, Hz.
  unfold true_divide. rewrite HR, HD. cbn [float64_result bind val].
  destruct (is_np value), (is_np (vmin p)), (is_np (vmax p));
    cbn [orb bind val]; try reflexivity;
    exact (call_nan _ _ Hok).
Qed.

Lemma getDataColor_degenerate_domain_flat :
  getDataColor flat_palette (py 1) = Ok (Fin 0, Fin 0, Fin 0, Fin 0).
Proof.
  apply (@getDataColor_degenerate_domain flat_palette (py 1) 1 1 (Fin 0)).
  - reflexivity.
  - reflexivity.
  - reflexivity.
  - reflexivity.
  - vm_compute. reflexivity.
Defined.

(** *** Directives of a palette file *)

(** The scan never changes the name: its second test repeats the
    first. *)
Lemma scan_line_keeps_name (st st' : list Q * string) (line : string) :
  scan_line st line = Ok st' -> snd st' = snd st.
Proof.
  destruct st as [nan name]. unfold scan_line.
  destruct (pystr.startswith line "#$nan_color").
  - destruct (getitem _ 1); cbn [bind]; [|discriminate].
    destruct (mapM _ _); cbn [bind]; [|discriminate].
    now intros [= <-].
  - now intros [= <-].
Qed.

Lemma scan_keeps_name (lines : list string) :
  forall st st', foldM scan_line lines st = Ok st' -> snd st' = snd st.
Proof.
  induction lines as [|l lines IH]; intros st st'; cbn [foldM].
  - now intros [= <-].
  - destruct (scan_line st l) as [st1|] eqn:E; cbn [bind]; [|discriminate].
    intro H. rewrite (IH _ _ H). exact (scan_line_keeps_name _ _ E).
Qed.

(** The constructor names the colormap as it is told. *)
Lemma init_name (name : string) (z0 z1 : ndarray) (rgb0 rgb1 : list RGB)
    (nan : option (list Q)) (p : ColorPalette) :
  __init__ name z0 z1 rgb0 rgb1 nan = Ok p -> mpl.name (cmap p) = name.
Proof.
  unfold __init__.
  destruct (_ && _); [discriminate|].
  destruct (array_min (values z0)); cbn [bind]; [|discriminate].
  destruct (array_max (values z1)); cbn [bind]; [|discriminate].
  cbv zeta.
  destruct (getlast _); cbn [bind]; [|discriminate].
  destruct (foldM _ _ _); cbn [bind]; [|discriminate].
  unfold set_bad. destruct (to_rgba nan); cbn [bind]; [|discriminate].
  now intros [= <-].
Qed.

(** X10. Whatever the file says, a palette read from it is named
    [generic]. *)
Lemma fromFile_name (read_table : list string -> result palette_frame)
    (lines : list string) (p : ColorPalette) :
  fromFile read_table lines = Ok p ->
  mpl.name (cmap p) = "generic"%string.
Proof.
  unfold fromFile.
  destruct (foldM scan_line lines _) as [[nan name]|] eqn:E;
    cbn [bind]; [|discriminate].
  apply scan_keeps_name in E. cbn [snd] in E. subst name.
  destruct (read_table lines); cbn [bind]; [|discriminate].
  apply init_name.
Qed.

(** C4. The palette read from the file of the docstring, which sets
    [#$name: test], is named [generic]: the name directive is never
    read. *)
Theorem fromFile_ignores_name_directive :
  name_of (fromFile (fun _ => Ok sample_frame) sample_lines)
  = Ok "generic"%string.
Proof. vm_compute. reflexivity. Qed.

(** *** The setters *)

(** C5. Setting [vmin] or [vmax] leaves the interpolation table and the
    colormap built from it as they are; a query on the updated palette
    normalizes with the new bound and looks the result up in the same
    colormap. *)
Theorem setters_keep_colour_table (p : ColorPalette) (v value : num) :
  (_cdict (set_vmin p v) = _cdict p /\
   cmap (set_vmin p v) = cmap p /\
   nan_color (set_vmin p v) = nan_color p /\
   vmax (set_vmin p v) = vmax p /\
   vmin (set_vmin p v) = v /\
   getDataColor (set_vmin p v) value =
     (normvalue <- num_div (num_sub value v) (num_sub (vmax p) v) ;;
      call (cmap p) (val normvalue))) /\
  (_cdict (set_vmax p v) = _cdict p /\
   cmap (set_vmax p v) = cmap p /\
   nan_color (set_vmax p v) = nan_color p /\
   vmin (set_vmax p v) = vmin p /\
   vmax (set_vmax p v) = v /\
   getDataColor (set_vmax p v) value =
     (normvalue <- num_div (num_sub value (vmin p)) (num_sub v (vmin p)) ;;
      call (cmap p) (val normvalue))).
Proof. repeat split. Qed.

(** A palette built with min(z0) = max(z1) has no valid colour table:
    every query fails in the colormap. *)
Lemma getDataColor_flat_constructed :
  (p <- __init__ "flat" (mkarray int64 [0]) (mkarray int64 [0])
                 [(0, 0, 0)] [(255, 255, 255)] (Some [0; 0; 0; 0]) ;;
   getDataColor p (py 0))
  = Raise (ValueError
      "data mapping points must start with x=0 and end with x=1").
Proof. vm_compute. reflexivity. Qed.

End PaletteProperties.
(* ================================================================= *)
(** * Properties of the station tables *)

Module monad_facts.

Lemma mapM_raise {A B : Type} (f : A -> result B) (l : list A) (e : exn) :
  mapM f l = Raise e -> exists a, In a l /\ f a = Raise e.
Proof.
  induction l as [|a l IH]; cbn [mapM]; [discriminate|].
  destruct (f a) as [b|e'] eqn:E; cbn [bind].
  - destruct (mapM f l) as [bs|e'']; cbn [bind]; [discriminate|].
    intros [= ->]. destruct (IH eq_refl) as (a' & Hin & Ha').
    exists a'. split; [now right | exact Ha'].
  - intros [= ->]. exists a. split; [now left | exact E].
Qed.

(** A loop whose body keeps an invariant keeps it, and raises only what
    its body raises. *)
Lemma foldM_invariant {A S : Type} (f : S -> A -> result S)
    (I : S -> Prop) (P : exn -> Prop) (l : list A) :
  (forall s a, In a l -> I s ->
     match f s a with Ok s' => I s' | Raise e => P e end) ->
  forall s, I s ->
    match foldM f l s with Ok s' => I s' | Raise e => P e end.
Proof.
  induction l as [|a l IH]; intros Hf s Hs; cbn [foldM]; [exact Hs|].
  pose proof (Hf s a (or_introl eq_refl) Hs) as Hstep.
  destruct (f s a) as [s'|e]; cbn [bind]; [|exact Hstep].
  apply IH; [|exact Hstep].
  intros s0 a0 Hin. apply Hf. now right.
Qed.

(** A loop whose body does nothing does nothing. *)
Lemma foldM_skip {A S : Type} (f : S -> A -> result S) (l : list A) (s : S) :
  (forall a, In a l -> f s a = Ok s) -> foldM f l s = Ok s.
Proof.
  induction l as [|a l IH]; intro Hf; cbn [foldM]; [reflexivity|].
  rewrite (Hf a (or_introl eq_refl)). cbn [bind].
  apply IH. intros a0 Hin. apply Hf. now right.
Qed.

End monad_facts.

Module order_facts.

Import pandas.
Open Scope string_scope.

(** *** The order of [sorted] on strings *)

Lemma ascii_compare_trans_lt (a b c : ascii) :
  Ascii.compare a b = Lt -> Ascii.compare b c = Lt ->
  Ascii.compare a c = Lt.
Proof.
  unfold Ascii.compare. rewrite !N.compare_lt_iff. apply N.lt_trans.
Qed.

Lemma ascii_compare_eq (a b : ascii) : Ascii.compare a b = Eq -> a = b.
Proof.
  unfold Ascii.compare. rewrite N.compare_eq_iff. intro H.
  rewrite <- (ascii_N_embedding a), <- (ascii_N_embedding b).
  now rewrite H.
Qed.

Lemma compare_trans_lt (s1 : string) : forall s2 s3,
  String.compare s1 s2 = Lt -> String.compare s2 s3 = Lt ->
  String.compare s1 s3 = Lt.
Proof.
  induction s1 as [|a s1 IH]; intros [|b s2] [|c s3]; cbn;
    try discriminate; try reflexivity.
  destruct (Ascii.compare a b) eqn:Eab; try discriminate;
    destruct (Ascii.compare b c) eqn:Ebc; try discriminate.
  - apply ascii_compare_eq in Eab, Ebc. subst.
    replace (Ascii.compare c c) with Eq
      by (symmetry; unfold Ascii.compare; apply N.compare_refl).
    apply IH.
  - apply ascii_compare_eq in Eab. subst. now rewrite Ebc.
  - apply ascii_compare_eq in Ebc. subst. now rewrite Eab.
  - now rewrite (ascii_compare_trans_lt _ _ _ Eab Ebc).
Qed.

Lemma compare_refl (s : string) : String.compare s s = Eq.
Proof.
  pose proof (String.compare_antisym s s) as H.
  destruct (String.compare s s); try reflexivity; discriminate.
Qed.

Lemma leb_trans (s1 s2 s3 : string) :
  String.leb s1 s2 = true -> String.leb s2 s3 = true ->
  String.leb s1 s3 = true.
Proof.
  unfold String.leb.
  destruct (String.compare s1 s2) eqn:E12; try discriminate;
    destruct (String.compare s2 s3) eqn:E23; try discriminate; intros _ _.
  - apply String.compare_eq_iff in E12, E23. subst.
    now rewrite compare_refl.
  - apply String.compare_eq_iff in E12. subst. now rewrite E23.
  - apply String.compare_eq_iff in E23. subst. now rewrite E12.
  - now rewrite (compare_trans_lt _ _ _ E12 E23).
Qed.

Lemma leb_false_flip (s1 s2 : string) :
  String.leb s1 s2 = false -> String.leb s2 s1 = true.
Proof.
  intro H. destruct (String.leb_total s1 s2); congruence.
Qed.

(** Insertions commute, so the result of [sorted] depends only on the
    elements of the list. *)
Lemma insert_insert (x y : string) (l : list string) :
  insert x (insert y l) = insert y (insert x l).
Proof.
  induction l as [|h t IH]; cbn [insert].
  - destruct (String.leb x y) eqn:Exy, (String.leb y x) eqn:Eyx;
      cbn [insert]; rewrite ?Exy, ?Eyx; try reflexivity.
    + now rewrite (String.leb_antisym _ _ Exy Eyx).
    + apply leb_false_flip in Exy. congruence.
  - destruct (String.leb y h) eqn:Eyh, (String.leb x h) eqn:Exh;
      cbn [insert]; rewrite ?Eyh, ?Exh.
    + destruct (String.leb x y) eqn:Exy, (String.leb y x) eqn:Eyx;
        try reflexivity.
      * now rewrite (String.leb_antisym _ _ Exy Eyx).
      * apply leb_false_flip in Exy. congruence.
    + destruct (String.leb x y) eqn:Exy; [|reflexivity].
      rewrite (leb_trans _ _ _ Exy Eyh) in Exh. discriminate.
    + destruct (String.leb y x) eqn:Eyx; [|reflexivity].
      rewrite (leb_trans _ _ _ Eyx Exh) in Eyh. discriminate.
    + now rewrite IH.
Qed.

Lemma sorted_permutation (l l' : list string) :
  Permutation l l' -> sorted l = sorted l'.
Proof.
  unfold sorted.
  induction 1 as [| x l l' _ IH | x y l | l l' l'' _ IH1 _ IH2];
    cbn [fold_right].
  - reflexivity.
  - now rewrite IH.
  - apply insert_insert.
  - now rewrite IH1.
Qed.

Lemma filter_permutation {A : Type} (f : A -> bool) (l l' : list A) :
  Permutation l l' -> Permutation (filter f l) (filter f l').
Proof.
  induction 1 as [| x l l' _ IH | x y l | l l' l'' _ IH1 _ IH2];
    cbn [filter].
  - constructor.
  - destruct (f x); [now constructor | exact IH].
  - destruct (f x), (f y); try apply Permutation_refl. apply perm_swap.
  - now transitivity (filter f l').
Qed.

End order_facts.

Module table_facts.

Import pandas table table_spec monad_facts.
Open Scope string_scope.

(** *** The channel groups *)

(** With three patterns, two matching patterns always include one of
    the first two: the test of the horizontal patterns never fails. *)
Lemma check_group3 (p1 p2 p3 : re.regex) (rest : list (list re.regex))
    (channels : list string) :
  check_groups ([p1; p2; p3] :: rest) channels
  = if scheme_accepts [p1; p2; p3] channels then Ok true
    else check_groups rest channels.
Proof.
  unfold scheme_accepts. cbn [check_groups].
  unfold count_patterns. cbn [fold_left getitem nth_error bind].
  destruct (matches_some p1 channels), (matches_some p2 channels),
    (matches_some p3 channels), (len channels =? 1)%nat; reflexivity.
Qed.

(** With one pattern, the second pattern is never looked up. *)
Lemma check_group1 (p1 : re.regex) (rest : list (list re.regex))
    (channels : list string) :
  check_groups ([p1] :: rest) channels
  = if scheme_accepts [p1] channels then Ok true
    else check_groups rest channels.
Proof.
  unfold scheme_accepts. cbn [check_groups].
  unfold count_patterns. cbn [fold_left].
  destruct (matches_some p1 channels), (len channels =? 1)%nat;
    reflexivity.
Qed.

Lemma check_groups_accepts (channels : list string) :
  check_groups CHANNEL_GROUPS channels
  = Ok (existsb (fun scheme => scheme_accepts scheme channels)
                CHANNEL_GROUPS).
Proof.
  unfold CHANNEL_GROUPS.
  rewrite !check_group3, check_group1. cbn [existsb check_groups].
  repeat match goal with
         | |- context [scheme_accepts ?g channels] =>
             destruct (scheme_accepts g channels)
         end; reflexivity.
Qed.

Lemma valid_channels_accepts (channels : list string) :
  valid_channels channels
  = Ok (match channels with
        | [] => true
        | _ => existsb (fun scheme => scheme_accepts scheme channels)
                       CHANNEL_GROUPS
        end).
Proof.
  unfold valid_channels. rewrite check_groups_accepts.
  now destruct channels.
Qed.

(** The check does not depend on the order of the channels. *)
Lemma matches_some_perm (cp : re.regex) (c1 c2 : list string) :
  Permutation c1 c2 -> matches_some cp c1 = matches_some cp c2.
Proof.
  intro H. unfold matches_some, len.
  now rewrite (Permutation_length (order_facts.filter_permutation _ H)).
Qed.

Lemma count_patterns_perm (g : list re.regex) (c1 c2 : list string) :
  Permutation c1 c2 -> count_patterns g c1 = count_patterns g c2.
Proof.
  intro H. unfold count_patterns.
  assert (Hn : forall n : nat,
    fold_left (fun num_channels channel_pat =>
                 if matches_some channel_pat c1
                 then (num_channels + 1)%nat else num_channels) g n
    = fold_left (fun num_channels channel_pat =>
                   if matches_some channel_pat c2
                   then (num_channels + 1)%nat else num_channels) g n).
  { induction g as [|cp g IH]; intro n; [reflexivity|].
    cbn [fold_left]. rewrite (matches_some_perm cp H). apply IH. }
  apply Hn.
Qed.

Lemma check_groups_perm (gs : list (list re.regex)) (c1 c2 : list string) :
  Permutation c1 c2 -> check_groups gs c1 = check_groups gs c2.
Proof.
  intro H. induction gs as [|g gs IH]; [reflexivity|].
  cbn [check_groups]. rewrite (count_patterns_perm g H).
  unfold len. rewrite (Permutation_length H), IH.
  destruct (getitem g 0) as [h1|]; cbn [bind];
    [|reflexivity].
  destruct (getitem g 1) as [h2|]; cbn [bind];
    [|reflexivity].
  now rewrite (matches_some_perm h1 H), (matches_some_perm h2 H).
Qed.

Lemma valid_channels_perm (c1 c2 : list string) :
  Permutation c1 c2 -> valid_channels c1 = valid_channels c2.
Proof.
  intro H. unfold valid_channels, len.
  rewrite (Permutation_length H), (check_groups_perm _ H). reflexivity.
Qed.

(** *** The numeric coercion of the measurement columns *)

Lemma same_shape_refl (df : DataFrame) : same_shape df df.
Proof. now repeat split. Qed.

Lemma same_shape_trans (a b c : DataFrame) :
  same_shape a b -> same_shape b c -> same_shape a c.
Proof.
  intros (H1 & H2 & H3) (H4 & H5 & H6).
  repeat split; congruence.
Qed.

Lemma pgm_found_shape (df df' : DataFrame) (channel column : string) :
  same_shape df df' -> pgm_found df' channel column
                       = pgm_found df channel column.
Proof.
  intros (H1 & H2 & H3). unfold pgm_found, subcolumns.
  now rewrite H1, H2, H3.
Qed.

Lemma existsb_ext {A : Type} (f g : A -> bool) (l : list A) :
  (forall a, f a = g a) -> existsb f l = existsb g l.
Proof.
  intro H. induction l as [|a l IH]; cbn [existsb]; [reflexivity|].
  now rewrite H, IH.
Qed.

Lemma to_float_raise (w : World) (c : cell) (e : exn) :
  to_float w c = Raise e -> coercion_error e.
Proof.
  destruct c as [s|x]; cbn [to_float]; [|discriminate].
  destruct (re.search _ s); [discriminate|].
  destruct (float_of_text w s); [discriminate|].
  intros [= <-]. exact I.
Qed.

Lemma coerce_column_spec (w : World) (channel column : string)
    (df : DataFrame) :
  match coerce_column w channel column df with
  | Ok df' => same_shape df df'
  | Raise e => coercion_error e
  end.
Proof.
  unfold coerce_column.
  destruct (mapM _ (rows df)) as [rows'|e] eqn:E; cbn [bind].
  - now repeat split.
  - apply mapM_raise in E. destruct E as (r & _ & E).
    apply mapM_raise in E. destruct E as (c & _ & E).
    destruct (_ && _) in E; [|discriminate].
    exact (to_float_raise _ _ E).
Qed.

Lemma coerce_pgm_spec (w : World) (channel column : string)
    (df : DataFrame) (found : bool) :
  match coerce_pgm w channel (df, found) column with
  | Ok (df', found') =>
      same_shape df df' /\ found' = found || pgm_found df channel column
  | Raise e => coercion_error e /\ pgm_found df channel column = true
  end.
Proof.
  unfold coerce_pgm, pgm_found.
  destruct (multi df).
  - destruct (mem column (subcolumns df channel)).
    + pose proof (coerce_column_spec w channel column df) as H.
      destruct (coerce_column w channel column df); cbn [bind].
      * split; [exact H | now rewrite orb_true_r].
      * now split.
    + split; [apply same_shape_refl | now rewrite orb_false_r].
  - destruct (existsb _ (index df)).
    + now split.
    + split; [apply same_shape_refl | now rewrite orb_false_r].
Qed.

Lemma coerce_columns_spec (w : World) (channel : string)
    (cols : list string) :
  forall (df : DataFrame) (found : bool),
    match foldM (coerce_pgm w channel) cols (df, found) with
    | Ok (df', found') =>
        same_shape df df'
        /\ found' = found || existsb (pgm_found df channel) cols
    | Raise e =>
        coercion_error e /\ existsb (pgm_found df channel) cols = true
    end.
Proof.
  induction cols as [|col cols IH]; intros df found; cbn [foldM existsb].
  - split; [apply same_shape_refl | now rewrite orb_false_r].
  - pose proof (coerce_pgm_spec w channel col df found) as Hstep.
    destruct (coerce_pgm w channel (df, found) col) as [[df1 found1]|e];
      cbn [bind].
    + destruct Hstep as (Hshape & ->).
      specialize (IH df1 (found || pgm_found df channel col)).
      destruct (foldM _ cols _) as [[df2 found2]|e].
      * destruct IH as (Hshape2 & ->). split.
        -- exact (same_shape_trans Hshape Hshape2).
        -- rewrite <- orb_assoc. f_equal. f_equal.
           apply existsb_ext. intros c.
           now apply pgm_found_shape.
      * destruct IH as (He & Hex). split; [exact He|].
        rewrite <- Hex. rewrite orb_comm.
        replace (existsb (pgm_found df channel) cols)
          with (existsb (pgm_found df1 channel) cols);
          [now destruct (existsb _ cols) |].
        apply existsb_ext. intros c. now apply pgm_found_shape.
    + destruct Hstep as (He & ->). now split.
Qed.

Lemma coerce_channels_spec (w : World) (channels : list string) :
  forall (df : DataFrame) (found : bool),
    match foldM (coerce_channel w) channels (df, found) with
    | Ok (df', found') =>
        same_shape df df' /\ found' = found || has_pgm df channels
    | Raise e => coercion_error e /\ has_pgm df channels = true
    end.
Proof.
  unfold has_pgm.
  induction channels as [|ch channels IH]; intros df found;
    cbn [foldM existsb].
  - split; [apply same_shape_refl | now rewrite orb_false_r].
  - unfold coerce_channel at 1.
    pose proof (coerce_columns_spec w ch PGM_COLS df found) as Hstep.
    destruct (foldM (coerce_pgm w ch) PGM_COLS (df, found))
      as [[df1 found1]|e]; cbn [bind].
    + destruct Hstep as (Hshape & ->).
      specialize (IH df1 (found || existsb (pgm_found df ch) PGM_COLS)).
      assert (Hsame : existsb (fun channel =>
                         existsb (pgm_found df1 channel) PGM_COLS) channels
                      = existsb (fun channel =>
                         existsb (pgm_found df channel) PGM_COLS) channels).
      { apply existsb_ext. intros c. apply existsb_ext. intros col.
        now apply pgm_found_shape. }
      rewrite Hsame in IH.
      destruct (foldM _ channels _) as [[df2 found2]|e].
      * destruct IH as (Hshape2 & ->). split.
        -- exact (same_shape_trans Hshape Hshape2).
        -- now rewrite orb_assoc.
      * destruct IH as (He & ->). split; [exact He|].
        now rewrite orb_true_r.
    + destruct Hstep as (He & ->). now split.
Qed.

(** *** The code's patterns and sets against the specification's *)

Ltac by_first_characters :=
  let c := fresh "c" in
  intro c; unfold is_match, re.match_, fits;
  destruct (pystr.chars c) as [|? [|? [|? ?]]];
  cbn;
  change (re.in_range "A" "Z") with capital;
  repeat match goal with
         | |- context [if ?t then _ else _] =>
             match type of t with
             | bool => destruct t
             end
         end;
  reflexivity.

Lemma seed_agrees (o : ascii) :
  agrees (re.Seq (re.Twice AZ) (re.Lit o)) (Seed o).
Proof. by_first_characters. Qed.

Lemma H1_agrees : agrees (re.Seq (re.Lit "H") (re.Lit "1")) (Literal "H1").
Proof. by_first_characters. Qed.

Lemma H2_agrees : agrees (re.Seq (re.Lit "H") (re.Lit "2")) (Literal "H2").
Proof. by_first_characters. Qed.

Lemma Z_agrees : agrees (re.Lit "Z") (Literal "Z").
Proof. by_first_characters. Qed.

Lemma UNK_agrees :
  agrees (re.Seq (re.Lit "U") (re.Seq (re.Lit "N") (re.Lit "K")))
         (Literal "UNK").
Proof. by_first_characters. Qed.

Lemma schemes_agree : Forall2 (Forall2 agrees) CHANNEL_GROUPS SCHEMES.
Proof.
  unfold CHANNEL_GROUPS, SCHEMES.
  repeat constructor;
    first [apply seed_agrees | apply H1_agrees | apply H2_agrees
          | apply Z_agrees | apply UNK_agrees].
Qed.

Lemma matches_some_existsb (cp : re.regex) (channels : list string) :
  matches_some cp channels = existsb (is_match cp) channels.
Proof.
  unfold matches_some, len.
  change (fun c => match re.match_ cp c with
                   | Some _ => true
                   | None => false
                   end) with (is_match cp).
  induction channels as [|c channels IH]; [reflexivity|].
  cbn [filter existsb]. destruct (is_match cp c); [reflexivity | exact IH].
Qed.

Lemma count_from (scheme : list re.regex) (channels : list string) :
  forall n,
    fold_left (fun num_channels channel_pat =>
                 if matches_some channel_pat channels
                 then (num_channels + 1)%nat else num_channels) scheme n
    = (n + len (filter (fun cp => matches_some cp channels) scheme))%nat.
Proof.
  unfold len.
  induction scheme as [|cp scheme IH]; intro n; cbn [fold_left filter].
  - cbn. lia.
  - rewrite IH. destruct (matches_some cp channels); cbn [List.length]; lia.
Qed.

Lemma count_patterns_matched (g : list re.regex) (s : list name_pattern)
    (channels : list string) :
  Forall2 agrees g s -> count_patterns g channels = matched s channels.
Proof.
  intro H. unfold count_patterns, matched. rewrite count_from.
  unfold len. cbn [plus].
  induction H as [|cp p g s Hcp _ IH]; [reflexivity|].
  cbn [filter]. rewrite matches_some_existsb.
  rewrite (existsb_ext (is_match cp) (fits p) channels Hcp).
  destruct (existsb (fits p) channels); cbn [List.length]; now rewrite IH.
Qed.

Lemma scheme_accepts_spec (scheme : list re.regex) (channels : list string) :
  scheme_accepts scheme channels = true
  <-> (count_patterns scheme channels = 1 /\ len channels = 1
       \/ 2 <= count_patterns scheme channels)%nat.
Proof.
  unfold scheme_accepts.
  rewrite orb_true_iff, andb_true_iff, !Nat.eqb_eq, Nat.leb_le.
  reflexivity.
Qed.

Lemma accepted_valid (channels : list string) :
  existsb (fun scheme => scheme_accepts scheme channels) CHANNEL_GROUPS
  = true <-> valid_grouping channels.
Proof.
  unfold valid_grouping. generalize schemes_agree.
  generalize CHANNEL_GROUPS SCHEMES.
  induction 1 as [|g s gs ss Hgs _ IH]; cbn [existsb In].
  - split; [discriminate | now intros (s & [] & _)].
  - rewrite orb_true_iff, IH, scheme_accepts_spec.
    rewrite (count_patterns_matched channels Hgs).
    split.
    + intros [H|(s' & Hin & H)].
      * exists s. split; [now left | exact H].
      * exists s'. split; [now right | exact H].
    + intros (s' & [<-|Hin] & H); [now left|].
      right. now exists s'.
Qed.

(** The channel set the code computes is the channel set of the
    specification. *)
Lemma mem_iff (k : string) (l : list string) : mem k l = true <-> In k l.
Proof.
  unfold mem. rewrite existsb_exists. split.
  - intros (x & Hx & He). apply String.eqb_eq in He. now subst.
  - intro H. exists k. split; [exact H | apply String.eqb_refl].
Qed.

Lemma mem_false_iff (k : string) (l : list string) :
  mem k l = false <-> ~ In k l.
Proof.
  rewrite <- mem_iff. destruct (mem k l); split; congruence.
Qed.

Lemma channel_set_spec (top_headers : list string) :
  channels_of top_headers (channel_set top_headers).
Proof.
  unfold channels_of, channel_set, set_minus. split.
  - apply NoDup_filter, NoDup_nodup.
  - intro h. unfold channel_header.
    rewrite filter_In, nodup_In, filter_In, nodup_In.
    rewrite !negb_true_iff, !mem_false_iff. tauto.
Qed.

Lemma channels_permutation (top_headers channels : list string) :
  channels_of top_headers channels ->
  Permutation channels (channel_set top_headers).
Proof.
  intros (Hnd & Hin).
  destruct (channel_set_spec top_headers) as (Hnd' & Hin').
  apply NoDup_Permutation; try assumption.
  intro h. now rewrite Hin, Hin'.
Qed.

(** What the loop over the measurement columns looks for is a
    measurement column of the specification. *)
Lemma subcolumn_iff (df : DataFrame) (channel column : string) :
  mem column (subcolumns df channel) = true
  <-> In (channel, column) (columns df).
Proof.
  rewrite mem_iff. unfold subcolumns. rewrite in_map_iff. split.
  - intros ([t s] & Hs & Hin). apply filter_In in Hin.
    destruct Hin as (Hin & Ht). cbn [fst snd] in *.
    apply String.eqb_eq in Ht. now subst.
  - intro Hin. exists (channel, column). split; [reflexivity|].
    apply filter_In. split; [exact Hin | apply String.eqb_refl].
Qed.

Lemma row_label_iff (df : DataFrame) (column : string) :
  existsb (cell_eqb (CStr column)) (index df) = true
  <-> In (CStr column) (index df).
Proof.
  rewrite existsb_exists. split.
  - intros ([s|x] & Hin & He); cbn [cell_eqb] in He; [|discriminate].
    apply String.eqb_eq in He. now subst.
  - intro Hin. exists (CStr column). split; [exact Hin|].
    apply String.eqb_refl.
Qed.

Lemma has_pgm_measurement (df : DataFrame) (channels : list string) :
  has_pgm df channels = true <-> measurement_column df channels.
Proof.
  unfold has_pgm, measurement_column. rewrite existsb_exists. split.
  - intros (channel & Hin & Hex). apply existsb_exists in Hex.
    destruct Hex as (column & Hcol & Hfound).
    exists channel, column. split; [exact Hin|]. split; [exact Hcol|].
    unfold pgm_found in Hfound. destruct (multi df).
    + now apply subcolumn_iff.
    + now apply row_label_iff.
  - intros (channel & column & Hin & Hcol & Hfound).
    exists channel. split; [exact Hin|]. apply existsb_exists.
    exists column. split; [exact Hcol|].
    unfold pgm_found. destruct (multi df).
    + now apply subcolumn_iff.
    + now apply row_label_iff.
Qed.

Lemma has_pgm_perm (df : DataFrame) (c1 c2 : list string) :
  Permutation c1 c2 -> has_pgm df c1 = has_pgm df c2.
Proof.
  intro H.
  destruct (has_pgm df c1) eqn:E1, (has_pgm df c2) eqn:E2;
    try reflexivity; exfalso.
  - apply has_pgm_measurement in E1.
    destruct E1 as (ch & col & Hin & Hrest).
    assert (E : has_pgm df c2 = true).
    { apply has_pgm_measurement. exists ch, col.
      split; [now apply (Permutation_in _ H) | exact Hrest]. }
    congruence.
  - apply has_pgm_measurement in E2.
    destruct E2 as (ch & col & Hin & Hrest).
    assert (E : has_pgm df c1 = true).
    { apply has_pgm_measurement. exists ch, col.
      split; [now apply (Permutation_in _ (Permutation_sym H)) | exact Hrest]. }
    congruence.
Qed.

End table_facts.

Section ReadExcelChecks.

Import pandas table table_spec table_samples monad_facts order_facts
       table_facts.
Open Scope string_scope.

Lemma existsb_false_forall {A : Type} (f : A -> bool) (l : list A) :
  existsb f l = false <-> (forall a, In a l -> f a = false).
Proof.
  induction l as [|a l IH]; cbn [existsb In].
  - split; [intros _ a [] | reflexivity].
  - rewrite orb_false_iff, IH. split.
    + intros (Ha & Hl) b [<-|Hb]; auto.
    + intro H. split; [apply H; now left | intros b Hb; apply H; now right].
Qed.


(** What [read_excel] does with a table once it is loaded. *)
Lemma read_excel_loaded (w : World) (wb : Workbook) (df : DataFrame)
    (top_headers : list string) (reference : option cell) :
  load wb = Ok (df, top_headers, reference) ->
  read_excel w wb =
    (let channels := channel_set top_headers in
     valid <- valid_channels channels ;;
     if negb valid then Raise (InvalidChannelGrouping channels)
     else
       let found := mem "INTENSITY" top_headers in
       '(df, found) <- foldM (coerce_channel w) channels (df, found) ;;
       if negb found then Raise NoMeasurementData
       else Ok (df, reference)).
Proof. intro H. unfold read_excel. now rewrite H. Qed.

(** What remains of [read_excel] after the channel check. *)
Lemma measurement_check (w : World) (df : DataFrame)
    (top_headers channels : list string) (reference : option cell) :
  match
    ('(df, found) <- foldM (coerce_channel w) channels
                           (df, mem "INTENSITY" top_headers) ;;
     if negb found then Raise NoMeasurementData
     else Ok (df, reference))
  with
  | Ok _ => mem "INTENSITY" top_headers || has_pgm df channels = true
  | Raise e =>
      (e = NoMeasurementData
       /\ mem "INTENSITY" top_headers || has_pgm df channels = false)
      \/ (coercion_error e /\ has_pgm df channels = true)
  end.
Proof.
  pose proof (coerce_channels_spec w channels df
                (mem "INTENSITY" top_headers)) as H.
  destruct (foldM _ channels _) as [[df' found']|e]; cbn [bind].
  - destruct H as (_ & ->).
    destruct (_ || _); cbn [negb]; [reflexivity | left; now split].
  - right. exact H.
Qed.









(** The data check, on the channel set the code computes. *)
Lemma measurement_check_code (w : World) (wb : Workbook)
    (df : DataFrame) (top_headers : list string)
    (reference : option cell) :
  load wb = Ok (df, top_headers, reference) ->
  valid_channels (channel_set top_headers) = Ok true ->
  (read_excel w wb = Raise NoMeasurementData
   <-> mem "INTENSITY" top_headers = false
       /\ has_pgm df (channel_set top_headers) = false)
  /\ (mem "INTENSITY" top_headers = true
      \/ has_pgm df (channel_set top_headers) = true ->
      match read_excel w wb with
      | Ok _ => True
      | Raise e => coercion_error e
      end).
Proof.
  intros Hload Hvalid.
  rewrite (read_excel_loaded w _ Hload). cbv zeta.
  rewrite Hvalid. cbn [bind negb].
  pose proof (measurement_check w df top_headers
                (channel_set top_headers) reference) as Hrest.
  destruct (bind (foldM _ _ _) _) as [r|e].
  - rewrite orb_true_iff in Hrest. split; [|trivial].
    split; [discriminate|].
    intros (H1 & H2). destruct Hrest; congruence.
  - destruct Hrest as [(-> & Hnone)|(He & Hpgm)].
    + rewrite orb_false_iff in Hnone. split.
      * split; [intros _; exact Hnone | reflexivity].
      * destruct Hnone. intros [|]; congruence.
    + split; [|intros _; exact He].
      split.
      * intros [= ->]. destruct He.
      * intros (_ & H). congruence.
Qed.

(** C7. For a table that is loaded and whose channel set is empty or a
    valid grouping, [read_excel] fails with the no-measurement-data
    error exactly when there is no INTENSITY top-level column and no
    recognized peak-ground-motion column (PGA, PGV, SA(0.3), SA(1.0),
    SA(3.0)) below any channel; with one of them present the read goes
    past this check: it returns, or fails in the numeric coercion of
    the cells. *)
Theorem measurement_data_check (w : World) (wb : Workbook)
    (df : DataFrame) (top_headers channels : list string)
    (reference : option cell) :
  load wb = Ok (df, top_headers, reference) ->
  channels_of top_headers channels ->
  channels = [] \/ valid_grouping channels ->
  (read_excel w wb = Raise NoMeasurementData
   <-> ~ In "INTENSITY" top_headers
       /\ ~ measurement_column df channels)
  /\ (In "INTENSITY" top_headers \/ measurement_column df channels ->
      match read_excel w wb with
      | Ok _ => True
      | Raise e => coercion_error e
      end).
Proof.
  intros Hload Hch Hvalid.
  pose proof (channels_permutation Hch) as Hperm.
  assert (Hcode : valid_channels (channel_set top_headers) = Ok true).
  { rewrite <- (valid_channels_perm Hperm), valid_channels_accepts.
    destruct Hvalid as [->|Hv]; [reflexivity|].
    apply accepted_valid in Hv. rewrite Hv. now destruct channels. }
  destruct (measurement_check_code w _ Hload Hcode) as (Hiff & Hpast).
  rewrite <- (has_pgm_perm df Hperm) in Hiff, Hpast.
  assert (Hm : has_pgm df channels = false
               <-> ~ measurement_column df channels).
  { rewrite <- has_pgm_measurement.
    destruct (has_pgm df channels); split; congruence. }
  split.
  - now rewrite Hiff, mem_false_iff, Hm.
  - intros [H|H]; apply Hpast.
    + left. now apply mem_iff.
    + right. now apply has_pgm_measurement.
Qed.

(** A table with the required columns, a name and a source only has no
    measurement data; a table with the columns PGA and PGV below the
    channel HHE passes the check and is read. *)
Lemma measurement_data_check_samples :
  read_excel w0 (workbook bare_frame) = Raise NoMeasurementData
  /\ read_excel w0 (workbook pga_pgv_frame) <> Raise NoMeasurementData
  /\ is_ok (read_excel w0 (workbook pga_pgv_frame)) = true.
Proof.
  split; [|split].
  - pose proof (@measurement_data_check w0 (workbook bare_frame)
                  _ _ [] _ eq_refl) as H.
    destruct H as (H & _).
    + exact (channel_set_spec
               ["STATION"; "LAT"; "LON"; "NETID"; "NAME"; "SOURCE"]).
    + now left.
    + apply H. split.
      * cbn. intuition discriminate.
      * intros (ch & _ & [] & _).
  - pose proof (@measurement_data_check w0 (workbook pga_pgv_frame)
                  _ _ ["HHE"] _ eq_refl) as H.
    destruct H as (H & _).
    + exact (channel_set_spec
               ["STATION"; "LAT"; "LON"; "NETID"; "ELEV"; "HHE"]).
    + right. exists [Seed "E"; Seed "N"; Seed "Z"].
      split; [now left|]. left. split; reflexivity.
    + intro Hraise. apply H in Hraise. destruct Hraise as (_ & Hno).
      apply Hno. exists "HHE", "PGA".
      split; [now left|]. split; [now left|].
      cbn. tauto.
  - vm_compute. reflexivity.
Defined.

End ReadExcelChecks.
(* ================================================================= *)
(** * Properties of the writers *)

Module xml_facts.

Import pandas table table_spec order_facts.
Open Scope string_scope.

(** The rows are written without the clock and without iterating a
    set. *)
Lemma xml_row_world (r : value -> string) (f : nat -> xfloat -> string)
    (p : string -> option xfloat) (t1 t2 : Z)
    (o1 o2 : list string -> list string) (df : DataFrame)
    (st : list xml * list string * list string) (row : list cell) :
  xml_row (mkworld r f p t1 o1) df st row
  = xml_row (mkworld r f p t2 o2) df st row.
Proof. reflexivity. Qed.

Lemma foldM_ext {A S : Type} (f g : S -> A -> result S) :
  (forall s a, f s a = g s a) ->
  forall l s, foldM f l s = foldM g l s.
Proof.
  intros H l. induction l as [|a l IH]; intro s; cbn [foldM].
  - reflexivity.
  - rewrite H. destruct (g s a); cbn [bind]; [apply IH | reflexivity].
Qed.

(** The channels enter a row only sorted. *)
Lemma xml_row_agree (w : World) (df : DataFrame) (row : list cell)
    (stations : list xml) (processed c1 c2 : list string) :
  sorted c1 = sorted c2 ->
  agree (xml_row w df (stations, processed, c1) row)
        (xml_row w df (stations, processed, c2) row).
Proof.
  intro Hs. unfold xml_row.
  destruct (station_code w _) as [code|e]; cbn [bind]; [|reflexivity].
  destruct (mem code processed); [now repeat split|].
  repeat match goal with
         | |- agree (bind ?c _) (bind ?c _) =>
             destruct c; cbn [bind]; [|reflexivity]
         end.
  destruct (negb _).
  - rewrite Hs.
    destruct (mapM _ (sorted c2)); cbn [bind]; [|reflexivity].
    now repeat split.
  - destruct (xml_imt_station w df _); cbn [bind]; [|reflexivity].
    now repeat split.
Qed.

Lemma xml_rows_agree (w : World) (df : DataFrame) (rows : list (list cell)) :
  forall (stations : list xml) (processed c1 c2 : list string),
    sorted c1 = sorted c2 ->
    agree (foldM (xml_row w df) rows (stations, processed, c1))
          (foldM (xml_row w df) rows (stations, processed, c2)).
Proof.
  induction rows as [|row rows IH]; intros stations processed c1 c2 Hs;
    cbn [foldM].
  - now repeat split.
  - pose proof (@xml_row_agree w df row stations processed c1 c2 Hs)
      as Hstep.
    destruct (xml_row w df (stations, processed, c1) row)
      as [[[s1 p1] d1]|e1],
      (xml_row w df (stations, processed, c2) row) as [[[s2 p2] d2]|e2];
      cbn [bind]; try contradiction.
    + destruct Hstep as (-> & -> & Hd). now apply IH.
    + exact Hstep.
Qed.

(** The channels of a frame, sorted, do not depend on the order in
    which the set of candidates is iterated. *)
Lemma frame_channels_sorted (r : value -> string)
    (f : nat -> xfloat -> string) (p : string -> option xfloat)
    (t1 t2 : Z) (o1 o2 : list string -> list string) (df : DataFrame) :
  (forall l, Permutation (o1 l) l) -> (forall l, Permutation (o2 l) l) ->
  sorted (frame_channels (mkworld r f p t1 o1) df)
  = sorted (frame_channels (mkworld r f p t2 o2) df).
Proof.
  intros H1 H2. unfold frame_channels. cbn [set_order].
  destruct (multi df); [|reflexivity].
  apply sorted_permutation. unfold _get_channels.
  apply filter_permutation.
  transitivity (channel_set (levels0 df)); [apply H1|].
  symmetry. apply H2.
Qed.

(** The loops of two runs agree. *)
Lemma xml_runs_agree (r : value -> string) (f : nat -> xfloat -> string)
    (p : string -> option xfloat) (t1 t2 : Z)
    (o1 o2 : list string -> list string) (df : DataFrame) :
  (forall l, Permutation (o1 l) l) -> (forall l, Permutation (o2 l) l) ->
  agree (foldM (xml_row (mkworld r f p t1 o1) df) (rows df)
               ([], [], frame_channels (mkworld r f p t1 o1) df))
        (foldM (xml_row (mkworld r f p t2 o2) df) (rows df)
               ([], [], frame_channels (mkworld r f p t2 o2) df)).
Proof.
  intros H1 H2.
  rewrite (@foldM_ext _ _ (xml_row (mkworld r f p t1 o1) df)
             (xml_row (mkworld r f p t2 o2) df)
             (@xml_row_world r f p t1 t2 o1 o2 df)).
  apply xml_rows_agree.
  now apply frame_channels_sorted.
Qed.

End xml_facts.

Section WriterProperties.

Import pandas table table_spec table_samples order_facts xml_facts.
Open Scope string_scope.

(** *** Measurement names *)

(** Where no column name starts with [SA], no period is found. *)
Lemma find_period_no_SA (period : xfloat) (imtlist : list string) :
  forallb (fun imt => negb (pystr.startswith imt "SA")) imtlist = true ->
  find_period period imtlist = None.
Proof.
  induction imtlist as [|imt rest IH]; cbn [forallb find_period];
    [reflexivity|].
  intro H. apply andb_prop in H. destruct H as (-> & H). now apply IH.
Qed.

(** The three spectral kinds are not skipped there: the translation
    raises. *)
Lemma translate_unmatched (pgm : string) (imtlist : list string) :
  In pgm ["psa03"; "psa10"; "psa30"] ->
  forallb (fun imt => negb (pystr.startswith imt "SA")) imtlist = true ->
  _translate_imt pgm imtlist = Raise (UnboundLocalError "newimt").
Proof.
  intros Hin Hno.
  assert (Hdigits : exists g f,
             mem (pystr.upper pgm) ["PGA"; "PGV"] = false
             /\ re.search (re.Plus re.Digit) pgm = Some g
             /\ float_ g = Some f)
    by (destruct Hin as [<-|[<-|[<-|[]]]]; do 2 eexists;
        repeat split; vm_compute; reflexivity).
  destruct Hdigits as (g & f & Hup & Hg & Hf).
  unfold _translate_imt. rewrite Hup, Hg, Hf.
  now rewrite (find_period_no_SA _ _ Hno).
Qed.

(** C8. A channel that has the columns PGA and PGV only, or the legacy
    names PSA03, PSA10 and PSA30, makes [_translate_imt] fail for the
    kind [psa03]: the loop over the columns assigns nothing, and the
    function returns a variable that was never bound.  Both writers fail
    with it, on a table that [read_excel] accepts; the kind is not
    skipped. *)
Theorem writers_fail_on_unmatched_kind :
  _translate_imt "psa03" ["PGA"; "PGV"]
    = Raise (UnboundLocalError "newimt") /\
  _translate_imt "psa03" ["PGA"; "PGV"; "PSA03"; "PSA10"; "PSA30"]
    = Raise (UnboundLocalError "newimt") /\
  is_ok (read_excel w0 (workbook pga_pgv_frame)) = true /\
  dataframe_to_xml w0 pga_pgv_frame "stations.xml" None
    = Raise (UnboundLocalError "newimt") /\
  dataframe_to_json w0 pga_pgv_frame "stations.json"
    = Raise (UnboundLocalError "newimt") /\
  dataframe_to_xml w0 legacy_frame "stations.xml" None
    = Raise (UnboundLocalError "newimt").
Proof. repeat split; vm_compute; reflexivity. Qed.

(** A kind whose column is there is translated, and its value written
    unless it is NaN. *)
Lemma translate_present_kinds :
  _translate_imt "pga" PGM_COLS = Ok "PGA" /\
  _translate_imt "pgv" PGM_COLS = Ok "PGV" /\
  _translate_imt "psa03" PGM_COLS = Ok "SA(0.3)" /\
  _translate_imt "psa10" PGM_COLS = Ok "SA(1.0)" /\
  _translate_imt "psa30" PGM_COLS = Ok "SA(3.0)" /\
  measurement w0 (series full_frame (hd [] (rows full_frame))) "HHE" "psa10"
    = Ok (Some "4.0000") /\
  measurement w0 (series full_frame (hd [] (rows full_frame))) "HHE" "psa30"
    = Ok None.
Proof. repeat split; vm_compute; reflexivity. Qed.

(** *** Two runs of the XML writer *)

(** C9. Two runs of [dataframe_to_xml] on the same frame, file name and
    reference, at different times and with the set of channel candidates
    iterated in different orders, end alike: with the same exception, or
    with the same file and element trees that differ at most in the value
    of [created]. *)
Theorem xml_output_deterministic (r : value -> string)
    (f : nat -> xfloat -> string) (p : string -> option xfloat)
    (t1 t2 : Z) (o1 o2 : list string -> list string)
    (df : DataFrame) (xmlfile : string) (reference : option cell) :
  (forall l, Permutation (o1 l) l) -> (forall l, Permutation (o2 l) l) ->
  output_but_created
    (dataframe_to_xml (mkworld r f p t1 o1) df xmlfile reference)
  = output_but_created
      (dataframe_to_xml (mkworld r f p t2 o2) df xmlfile reference).
Proof.
  intros H1 H2. unfold dataframe_to_xml.
  pose proof (@xml_runs_agree r f p t1 t2 o1 o2 df H1 H2) as Hrows.
  destruct reference as [[s|x]|]; cbn [bind]; try reflexivity;
    destruct (foldM _ (rows df) _) as [[[s1 p1] c1]|e1],
      (foldM _ (rows df) _) as [[[s2 p2] c2]|e2];
    cbn [bind agree] in *; try contradiction;
    solve [ destruct Hrows as (-> & _); reflexivity | now rewrite Hrows ].
Qed.

(** Two runs on the sample table, a hundred million seconds apart and
    with the candidates iterated forwards and backwards. *)
Lemma xml_output_deterministic_sample :
  output_but_created
    (dataframe_to_xml w0 full_frame "stations.xml" (Some (CStr "ref")))
  = output_but_created
      (dataframe_to_xml w1 full_frame "stations.xml" (Some (CStr "ref"))).
Proof.
  apply (@xml_output_deterministic (fun _ => "?") format_fixed
           (fun _ => None) 1600000000 1700000000 (fun l => l)
           (@rev string) full_frame "stations.xml" (Some (CStr "ref"))).
  - intro l. apply Permutation_refl.
  - intro l. apply Permutation_sym, Permutation_rev.
Defined.

(** *** The JSON writer and the elevation *)

Lemma get_missing (s : list (string * cell)) (k : string) :
  mem k (map fst s) = false -> get s k = Raise (KeyError k).
Proof.
  intro H. unfold get.
  replace (filter (fun e => String.eqb (fst e) k) s) with
    (@nil (string * cell)); [reflexivity|].
  induction s as [|[k' c] s IH]; [reflexivity|].
  cbn [map mem existsb fst] in H. apply orb_false_iff in H.
  destruct H as (Hk & Hs). cbn [filter fst].
  rewrite String.eqb_sym, Hk. now apply IH.
Qed.

Lemma row_labels (cols : list (string * string)) :
  forall (r : list cell) (k : string),
    mem k (map fst cols) = false ->
    mem k (map fst (droplevel (combine cols r))) = false.
Proof.
  induction cols as [|[top sub] cols IH]; intros [|c r] k H;
    try reflexivity.
  cbn [map mem existsb fst combine droplevel] in *.
  apply orb_false_iff in H. destruct H as (-> & H).
  cbn [orb]. now apply IH.
Qed.

(** C10. On a frame with at least one row and no ELEV column,
    [dataframe_to_json] raises and so writes no file; when the first row
    has its station code, a network identifier that is text, and a
    numeric latitude and longitude, what it raises is the key error for
    ELEV, from the geometry of the first feature. *)
Theorem json_requires_elevation (w : World) (df : DataFrame)
    (jsonfile : string) (first : list cell) (others : list (list cell)) :
  rows df = first :: others ->
  mem "ELEV" (map fst (columns df)) = false ->
  is_ok (dataframe_to_json w df jsonfile) = false
  /\ (required_cells (droplevel (series df first)) ->
      dataframe_to_json w df jsonfile = Raise (KeyError "ELEV")).
Proof.
  intros Hrows Hcols.
  assert (Helev : get (droplevel (series df first)) "ELEV"
                  = Raise (KeyError "ELEV")).
  { apply get_missing. unfold series. now apply row_labels. }
  unfold dataframe_to_json. rewrite Hrows. cbn [foldM].
  split; unfold json_row at 1; cbv zeta.
  - destruct (station_code w _) as [code|e]; cbn [bind]; [|reflexivity].
    cbn [mem existsb]. unfold json_station. cbv zeta.
    destruct (bind (get _ "LAT") _); cbn [bind]; [|reflexivity].
    destruct (bind (get _ "LON") _); cbn [bind]; [|reflexivity].
    rewrite Helev. reflexivity.
  - intros ((v & Hst) & (n & Hnet) & (lat & Hlat) & (lon & Hlon)).
    unfold station_code. rewrite Hst, Hnet. cbn [bind strip].
    assert (Hcode : exists code,
               (if negb (pystr.startswith (pystr.strip (str_ w v))
                                          (pystr.strip n))
                then Ok (pystr.strip n ++ "." ++ pystr.strip (str_ w v))
                else Ok (pystr.strip (str_ w v))) = Ok code)
      by (destruct (negb _); eexists; reflexivity).
    destruct Hcode as (code & ->). cbn [bind mem existsb].
    unfold json_station. cbv zeta. rewrite Hlat, Hlon, Helev. reflexivity.
Qed.

(** The sample table has no elevation. *)
Lemma json_requires_elevation_sample :
  dataframe_to_json w0 full_frame "stations.json" = Raise (KeyError "ELEV").
Proof.
  refine (proj2 (@json_requires_elevation w0 full_frame "stations.json"
                   _ _ eq_refl eq_refl) _).
  repeat split; eexists; vm_compute; reflexivity.
Defined.

End WriterProperties.
(* ================================================================= *)
(** * Further properties of the palette *)

Module cpalette_more.

Import mpl cpalette cpalette_spec cpalette_facts.
Open Scope Q_scope.

Lemma foldM_app {A S : Type} (f : S -> A -> result S) (l1 l2 : list A) :
  forall s, foldM f (l1 ++ l2) s = (s' <- foldM f l1 s ;; foldM f l2 s').
Proof.
  induction l1 as [|a l1 IH]; intro s; cbn [app foldM bind].
  - reflexivity.
  - destruct (f s a); cbn [bind]; [apply IH | reflexivity].
Qed.

(** The rows built from a prefix of the positions. *)
Lemma rows_firstn_S (ch : RGB -> Q) (n : nat) :
  forall (x : list xfloat) (r0 r1 : list RGB) (xi : xfloat) (c0 c1 : RGB),
    nth_error x n = Some xi -> nth_error r0 n = Some c0 ->
    nth_error r1 n = Some c1 ->
    rows ch (firstn (S n) x) r0 r1
    = rows ch (firstn n x) r0 r1 ++ [(xi, Fin (ch c1 / 255), Fin (ch c0 / 255))].
Proof.
  induction n as [|n IH]; intros [|a x] [|b r0] [|c r1] xi c0 c1 Hx H0 H1;
    try discriminate.
  - cbn in *. injection Hx as ->. injection H0 as ->. injection H1 as ->.
    now destruct x.
  - cbn [nth_error] in *. cbn [firstn rows app].
    apply f_equal. now apply IH.
Qed.

Lemma rows_firstn_all (ch : RGB -> Q) (x : list xfloat) (r0 r1 : list RGB) :
  rows ch (firstn (List.length x) x) r0 r1 = rows ch x r0 r1.
Proof. now rewrite firstn_all. Qed.

(** The loop over the first [n] rows succeeds exactly when both padded
    colour sequences have [n] entries. *)
Lemma add_rows_prefix (x : list xfloat) (r0 r1 : list RGB) (n : nat) :
  (n <= List.length x)%nat ->
  (n <= List.length r0)%nat -> (n <= List.length r1)%nat ->
  foldM (add_row x r0 r1) (seq 0 n) (mkcdict [] [] [])
  = Ok (mkcdict (rows ch_r (firstn n x) r0 r1)
                (rows ch_g (firstn n x) r0 r1)
                (rows ch_b (firstn n x) r0 r1)).
Proof.
  induction n as [|n IH]; intros Hx H0 H1.
  - reflexivity.
  - rewrite seq_S, foldM_app, IH by lia. cbn [bind foldM plus].
    destruct (nth_error x n) as [xi|] eqn:Ex;
      [|apply nth_error_None in Ex; lia].
    destruct (nth_error r0 n) as [c0|] eqn:E0;
      [|apply nth_error_None in E0; lia].
    destruct (nth_error r1 n) as [c1|] eqn:E1;
      [|apply nth_error_None in E1; lia].
    unfold add_row, getitem. rewrite Ex, E0, E1.
    destruct c1 as [[r1' g1] b1], c0 as [[r0' g0] b0]. cbn [bind red green blue].
    now rewrite !(rows_firstn_S _ _ _ _ _ Ex E0 E1).
Qed.

(** With too few colours the loop raises at the first missing one. *)
Lemma add_rows_short (x : list xfloat) (r0 r1 : list RGB) :
  (List.length r0 < List.length x \/ List.length r1 < List.length x)%nat ->
  foldM (add_row x r0 r1) (seq 0 (List.length x)) (mkcdict [] [] [])
  = Raise (IndexError "list index out of range").
Proof.
  intro Hshort.
  set (k := Nat.min (List.length r0) (List.length r1)).
  assert (Hk : (k < List.length x)%nat) by (unfold k; lia).
  replace (List.length x) with (k + (List.length x - k))%nat at 1 by lia.
  rewrite seq_app, foldM_app, add_rows_prefix by (unfold k; lia).
  cbn [bind plus].
  destruct (List.length x - k)%nat as [|d] eqn:Ed; [lia|].
  cbn [seq foldM]. unfold add_row at 1, getitem.
  destruct (nth_error r1 k) as [[[? ?] ?]|] eqn:E1; cbn [bind];
    [|reflexivity].
  destruct (nth_error r0 k) as [[[? ?] ?]|] eqn:E0; cbn [bind];
    [|reflexivity].
  exfalso.
  assert (k < List.length r1)%nat by (apply nth_error_Some; congruence).
  assert (k < List.length r0)%nat by (apply nth_error_Some; congruence).
  unfold k in *. lia.
Qed.

(** The positions the constructor computes, whatever the domain. *)
Lemma init_nonempty (name : string) (t0 t1 : dtype) (a b : Q)
    (z0 z1 : list Q) (rgb0 rgb1 : list RGB) (nan : option (list Q)) :
  (negb (len (a :: z0) =? len (b :: z1))%nat
   && negb (len (b :: z1) =? len rgb0)%nat
   && negb (len rgb0 =? len rgb1)%nat) = false ->
  exists m M adj_last,
    array_min (a :: z0) = Ok m /\ array_max (b :: z1) = Ok M /\
    __init__ name (mkarray t0 (a :: z0)) (mkarray t1 (b :: z1))
             rgb0 rgb1 nan =
      (let x := (adjust (scalar t0 m) (scalar t1 M)
                        (mkarray t0 (a :: z0)) ++ [adj_last])%list in
       cdict <- foldM (add_row x (rgb0 ++ [(E, E, E)]) ((B, B, B) :: rgb1))
                      (seq 0 (len x)) (mkcdict [] [] []) ;;
       cmap <- set_bad (new name cdict) nan ;;
       Ok (mkpalette (scalar t0 m) (scalar t1 M) nan cdict cmap)).
Proof.
  intro Hcheck. unfold __init__. cbn [values dtype_of]. rewrite Hcheck.
  destruct (array_min (a :: z0)) as [m|] eqn:Em; [|discriminate].
  destruct (array_max (b :: z1)) as [M|] eqn:EM; [|discriminate].
  cbn [bind]. cbv zeta.
  assert (Hlast : exists adj_last,
             getlast (adjust (scalar t0 m) (scalar t1 M)
                             (mkarray t1 (b :: z1))) = Ok adj_last).
  { unfold getlast, adjust. cbn [values].
    destruct (rev (map _ (b :: z1))) eqn:Er; [|eexists; reflexivity].
    apply (f_equal (@List.length _)) in Er.
    rewrite length_rev, length_map in Er. discriminate. }
  destruct Hlast as (adj_last & ->). cbn [bind].
  now exists m, M, adj_last.
Qed.

(** *** Values on and beyond the ends of the domain *)

Lemma lut_index_below (n : nat) (t : Q) :
  (1 <= n)%nat -> t <= 0 -> lut_index n (Fin t) = Some 0%nat.
Proof.
  intros Hn Ht.
  destruct (Qlt_le_dec t 0) as [Hlt|Hge];
    [|apply lut_index_zero; [exact Hn | now apply Qle_antisym]].
  unfold lut_index. cbn [xmul xeqb].
  pose proof (inject_nat_pos Hn) as Hpos.
  assert (Hneg : t * inject_Z (Z.of_nat n) < 0).
  { setoid_replace 0 with (0 * inject_Z (Z.of_nat n)) by ring.
    now apply Qmult_lt_compat_r. }
  rewrite Qeq_bool_false by lra.
  replace (Qltb (t * inject_Z (Z.of_nat n)) 0) with true
    by (symmetry; now apply Qltb_lt).
  reflexivity.
Qed.

Lemma lut_index_above (n : nat) (t : Q) :
  (1 <= n)%nat -> 1 <= t -> lut_index n (Fin t) = Some (n - 1)%nat.
Proof.
  intros Hn Ht.
  destruct (Qlt_le_dec 1 t) as [Hlt|Hle];
    [|apply lut_index_one; [exact Hn | now apply Qle_antisym]].
  unfold lut_index. cbn [xmul xeqb].
  pose proof (inject_nat_pos Hn) as Hpos.
  assert (Hbig : inject_Z (Z.of_nat n) < t * inject_Z (Z.of_nat n)).
  { setoid_replace (inject_Z (Z.of_nat n))
      with (1 * inject_Z (Z.of_nat n)) at 1 by ring.
    now apply Qmult_lt_compat_r. }
  rewrite Qeq_bool_false by lra.
  replace (Qltb (t * inject_Z (Z.of_nat n)) 0) with false
    by (symmetry; apply Qltb_ge; lra).
  replace (Qle_bool (inject_Z (Z.of_nat n)) (t * inject_Z (Z.of_nat n)))
    with true; [reflexivity|].
  symmetry. apply Qle_bool_iff. lra.
Qed.

End cpalette_more.

Section ConstructorOutcome.

Import mpl cpalette cpalette_spec cpalette_facts cpalette_more.
Open Scope Q_scope.

(** X1. The constructor returns a palette exactly when the length check
    lets the input through, both z sequences are non-empty, there are at
    least as many colours of each kind as intervals, and the nan colour
    is one the colormap accepts. *)
Theorem init_succeeds_iff (name : string) (t0 t1 : dtype)
    (z0 z1 : list Q) (rgb0 rgb1 : list RGB) (nan : option (list Q)) :
  is_ok (__init__ name (mkarray t0 z0) (mkarray t1 z1) rgb0 rgb1 nan)
  = true
  <-> ~ (len z0 <> len z1 /\ len z1 <> len rgb0 /\ len rgb0 <> len rgb1)
      /\ z0 <> [] /\ z1 <> []
      /\ (len z0 <= len rgb0)%nat /\ (len z0 <= len rgb1)%nat
      /\ is_ok (to_rgba nan) = true.
Proof.
  destruct (negb (len z0 =? len z1)%nat
            && negb (len z1 =? len rgb0)%nat
            && negb (len rgb0 =? len rgb1)%nat) eqn:Hcheck.
  - assert (Hall : len z0 <> len z1 /\ len z1 <> len rgb0
                   /\ len rgb0 <> len rgb1).
    { apply andb_prop in Hcheck. destruct Hcheck as (H & H3).
      apply andb_prop in H. destruct H as (H1 & H2).
      rewrite negb_true_iff in H1, H2, H3.
      now apply Nat.eqb_neq in H1, H2, H3. }
    destruct Hall as (H1 & H2 & H3).
    rewrite (@init_length_error name (mkarray t0 z0) (mkarray t1 z1)
               rgb0 rgb1 nan H1 H2 H3).
    split; [discriminate | intros (H & _); exfalso; now apply H].
  - assert (Hnot : ~ (len z0 <> len z1 /\ len z1 <> len rgb0
                      /\ len rgb0 <> len rgb1)).
    { intros (H1 & H2 & H3). apply Nat.eqb_neq in H1, H2, H3.
      now rewrite H1, H2, H3 in Hcheck. }
    destruct z0 as [|a z0].
    { unfold __init__. cbn [values dtype_of]. rewrite Hcheck. cbn.
      split; [discriminate | now intros (_ & H & _)]. }
    destruct z1 as [|b z1].
    { unfold __init__. cbn [values dtype_of]. rewrite Hcheck. cbn.
      split; [discriminate | now intros (_ & _ & H & _)]. }
    destruct (init_nonempty name t0 t1 a b z0 z1 rgb0 rgb1 nan Hcheck)
      as (m & M & adj_last & _ & _ & ->). cbv zeta.
    set (x0 := adjust (scalar t0 m) (scalar t1 M) (mkarray t0 (a :: z0))).
    assert (Hx : List.length (x0 ++ [adj_last]) = S (len (a :: z0)))
      by (unfold x0, adjust, len; cbn [values];
          rewrite length_app, length_map; simpl; lia).
    destruct (le_lt_dec (len (a :: z0)) (len rgb0)) as [H0|H0];
      [destruct (le_lt_dec (len (a :: z0)) (len rgb1)) as [H1|H1]|].
    + unfold len at 1.
      rewrite (@add_rows_prefix (x0 ++ [adj_last])
                 (rgb0 ++ [(E, E, E)]) ((B, B, B) :: rgb1)
                 (List.length (x0 ++ [adj_last])));
        [| apply Nat.le_refl
         | rewrite Hx, length_app; unfold len in *; cbn [List.length] in *; lia
         | rewrite Hx; unfold len in *; cbn [List.length] in *; lia].
      cbn [bind]. unfold set_bad.
      destruct (to_rgba nan); cbn [bind is_ok].
      * split; [intros _; repeat split; auto; discriminate | reflexivity].
      * split; [discriminate | now intros (_ & _ & _ & _ & _ & H)].
    + unfold len at 1. rewrite add_rows_short
        by (right; rewrite Hx; unfold len in *; cbn [List.length] in *; lia).
      cbn [bind is_ok]. split; [discriminate|].
      intros (_ & _ & _ & _ & H & _). lia.
    + unfold len at 1. rewrite add_rows_short
        by (left; rewrite Hx, length_app; unfold len in *; cbn [List.length] in *; lia).
      cbn [bind is_ok]. split; [discriminate|].
      intros (_ & _ & _ & H & _). lia.
Qed.

End ConstructorOutcome.

Section OutOfDomain.

Import mpl cpalette cpalette_spec cpalette_facts cpalette_more.
Open Scope Q_scope.

Variables (name : string) (t0 t1 : dtype) (z0 z1 : list Q).
Variables (rgb0 rgb1 : list RGB).
Variables (nan : option (list Q)) (bad : RGBA) (m M : Q).
Variables (c_first c_last : RGB).

Hypothesis len_z : len z0 = len z1.
Hypothesis len_rgb0 : len z1 = len rgb0.
Hypothesis len_rgb1 : len rgb0 = len rgb1.
Hypothesis z_min : array_min z0 = Ok m.
Hypothesis z_max : array_max z1 = Ok M.
Hypothesis domain : m < M.
Hypothesis z_sorted : ascending z0 z1.
Hypothesis small : - exact_limit <= m /\ M <= exact_limit.
Hypothesis first_colour : nth_error rgb0 0 = Some c_first.
Hypothesis last_colour : nth_error rgb1 (len z0 - 1) = Some c_last.
Hypothesis first_range : byte_range c_first.
Hypothesis last_range : byte_range c_last.
Hypothesis nan_ok : to_rgba nan = Ok bad.

Lemma small_range : machine_range t0 t1 m M.
Proof.
  pose proof exact_below_int64. pose proof int64_below_float64.
  destruct t0, t1; cbn [machine_range]; lra.
Qed.

(** What the colormap of the palette returns: the three lookup tables
    exist, with the boundary colours at their ends, and the table index
    of the normalized value picks the entry. *)
Lemma call_built (X : xfloat) :
  exists ir ig ib,
    List.length ir = 254%nat /\ List.length ig = 254%nat
    /\ List.length ib = 254%nat /\
    call (mkcmap name (table m M z0 z1 rgb0 rgb1) 256 bad) X =
      let lut ch inner :=
        (clip01 (Fin (ch c_first / 255))
           :: inner ++ [clip01 (Fin (ch c_last / 255))])%list in
      match lut_index 256 X with
      | None => Ok bad
      | Some i => Ok (at_ (lut ch_r ir) i, at_ (lut ch_g ig) i,
                      at_ (lut ch_b ib) i, Fin 1)
      end.
Proof.
  pose proof (fun ch =>
    @channel_lookup_table ch m M z0 z1 rgb0 rgb1 c_first c_last
      len_z len_rgb0 len_rgb1 z_min z_max domain z_sorted
      first_colour last_colour) as Hch.
  destruct (Hch ch_r) as (ir & Hir & Er).
  destruct (Hch ch_g) as (ig & Hig & Eg).
  destruct (Hch ch_b) as (ib & Hib & Eb).
  exists ir, ig, ib. repeat split; try assumption.
  unfold call. cbn [N _segmentdata table red green blue _rgba_bad].
  now rewrite Er, Eg, Eb.
Qed.

Lemma first_entry (X : xfloat) :
  lut_index 256 X = Some 0%nat ->
  call (mkcmap name (table m M z0 z1 rgb0 rgb1) 256 bad) X
  = Ok (scaled c_first).
Proof.
  intro HX. destruct (call_built X) as (ir & ig & ib & _ & _ & _ & ->).
  cbv zeta. rewrite HX. rewrite !at_first.
  destruct first_range as (Fr & Fg & Fb). now rewrite !clip01_scaled.
Qed.

Lemma last_entry (X : xfloat) :
  lut_index 256 X = Some 255%nat ->
  call (mkcmap name (table m M z0 z1 rgb0 rgb1) 256 bad) X
  = Ok (scaled c_last).
Proof.
  intro HX. destruct (call_built X) as (ir & ig & ib & Hr & Hg & Hb & ->).
  cbv zeta. rewrite HX.
  change 255%nat with (256 - 1)%nat.
  rewrite !(@at_last _ _ _ 256) by (try lia; assumption).
  destruct last_range as (Lr & Lg & Lb). now rewrite !clip01_scaled.
Qed.

(** A quotient at or below zero, or at or above one, selects an end of
    the table, also when it is beyond the doubles. *)
Lemma lut_index_float64_below (q : Q) :
  q <= 0 -> lut_index 256 (to_float64 q) = Some 0%nat.
Proof.
  intro Hq. unfold to_float64.
  pose proof int64_limit_pos. pose proof int64_below_float64.
  rewrite Qle_bool_false by lra.
  destruct (Qle_bool q (- float64_limit)); [reflexivity|].
  apply lut_index_below; [lia | exact Hq].
Qed.

Lemma lut_index_float64_above (q : Q) :
  1 <= q -> lut_index 256 (to_float64 q) = Some 255%nat.
Proof.
  intro Hq. unfold to_float64.
  pose proof int64_limit_pos. pose proof int64_below_float64.
  destruct (Qle_bool float64_limit q); [reflexivity|].
  rewrite Qle_bool_false by lra.
  change 255%nat with (256 - 1)%nat.
  apply lut_index_above; [lia | exact Hq].
Qed.

(** The query of a value that is not a finite number. *)
Lemma query_special (b : bool) (X : xfloat) :
  match X with Fin _ => False | _ => True end ->
  getDataColor (built name nan bad t0 t1 m M z0 z1 rgb0 rgb1)
               (mknum b false X)
  = call (mkcmap name (table m M z0 z1 rgb0 rgb1) 256 bad) X.
Proof.
  intro HX. pose proof small_range as Hr.
  pose proof int64_limit_pos. pose proof int64_below_float64.
  pose proof (@machine_range_float64 _ _ _ _ Hr).
  unfold getDataColor, vmin, vmax, cmap, built. cbn [_vmin _vmax _cmap].
  unfold scalar at 2.
  rewrite num_sub_exact;
    [| intros Ht1 ->; destruct t1; [|discriminate];
       cbn [machine_range] in Hr; lra
     | lra].
  unfold num_div, num_sub, scalar, true_divide.
  cbn [is_np is_int val andb]. rewrite orb_true_r. cbn [orb bind val].
  destruct X as [q| | |]; [destruct HX | | |];
    cbn [xsub xneg xadd float64_result xdiv];
    try reflexivity;
    replace (Qltb (M - m) 0) with false
      by (symmetry; apply Qltb_ge; lra);
    reflexivity.
Qed.

(** X2. Outside the domain the palette clamps.  For data and values of
    magnitude at most [2**53], which every dtype holds exactly, a value
    at or below [vmin] gets the start colour of the first interval and a
    value at or above [vmax] the end colour of the last one, whether it
    is a Python number or a numpy scalar, an integer or a float; minus
    and plus infinity get the same two colours, and NaN gets the nan
    colour. *)
Theorem getDataColor_clamps :
  exists p,
    __init__ name (mkarray t0 z0) (mkarray t1 z1) rgb0 rgb1 nan = Ok p /\
    (forall (b i : bool) (v : Q),
        - exact_limit <= v -> v <= m ->
        getDataColor p (mknum b i (Fin v)) = Ok (scaled c_first)) /\
    (forall (b i : bool) (v : Q),
        M <= v -> v <= exact_limit ->
        getDataColor p (mknum b i (Fin v)) = Ok (scaled c_last)) /\
    (forall b : bool,
        getDataColor p (mknum b false NInf) = Ok (scaled c_first)) /\
    (forall b : bool,
        getDataColor p (mknum b false PInf) = Ok (scaled c_last)) /\
    (forall b : bool, getDataColor p (mknum b false NaN) = Ok bad).
Proof.
  pose proof small_range as Hr.
  pose proof exact_below_int64. pose proof int64_below_float64.
  exists (built name nan bad t0 t1 m M z0 z1 rgb0 rgb1).
  split; [now apply init_equal_lengths|].
  repeat split.
  - intros b i v Hlow Hv.
    rewrite (@query_between name t0 t1 z0 z1 rgb0 rgb1 nan bad m M
               domain Hr b i v) by (try intros _ _; lra).
    apply first_entry, lut_index_float64_below.
    apply Qle_shift_div_r; lra.
  - intros b i v Hv Hhigh.
    rewrite (@query_between name t0 t1 z0 z1 rgb0 rgb1 nan bad m M
               domain Hr b i v) by (try intros _ _; lra).
    apply last_entry, lut_index_float64_above.
    apply Qle_shift_div_l; lra.
  - intro b. rewrite query_special by exact I.
    now apply first_entry.
  - intro b. rewrite query_special by exact I.
    now apply last_entry.
  - intro b. rewrite query_special by exact I.
    destruct (call_built NaN) as (ir & ig & ib & _ & _ & _ & ->).
    reflexivity.
Qed.

End OutOfDomain.

Section ConstructorErrors.

Import mpl cpalette cpalette_spec cpalette_facts cpalette_more.
Open Scope Q_scope.

Lemma length_check_passes (z0 z1 : list Q) (rgb0 rgb1 : list RGB) :
  len z0 = len z1 \/ len z1 = len rgb0 \/ len rgb0 = len rgb1 ->
  (negb (len z0 =? len z1)%nat && negb (len z1 =? len rgb0)%nat
   && negb (len rgb0 =? len rgb1)%nat) = false.
Proof.
  intros [H|[H|H]]; rewrite H, Nat.eqb_refl; cbn [negb andb];
    now rewrite ?andb_false_r.
Qed.

(** X3. When the length check lets the input through (one neighbouring
    pair of lengths is equal) and there are fewer colours of one kind
    than intervals, the constructor raises [IndexError] in its loop over
    the rows. *)
Theorem init_too_few_colours (name : string) (z0 z1 : ndarray)
    (rgb0 rgb1 : list RGB) (nan : option (list Q)) :
  len (values z0) = len (values z1) \/ len (values z1) = len rgb0
  \/ len rgb0 = len rgb1 ->
  values z0 <> [] -> values z1 <> [] ->
  (len rgb0 < len (values z0) \/ len rgb1 < len (values z0))%nat ->
  __init__ name z0 z1 rgb0 rgb1 nan
  = Raise (IndexError "list index out of range").
Proof.
  destruct z0 as [t0 z0], z1 as [t1 z1]. cbn [values].
  intros Hcheck H0 H1 Hshort.
  apply length_check_passes in Hcheck.
  destruct z0 as [|a z0]; [congruence|].
  destruct z1 as [|b z1]; [congruence|].
  destruct (init_nonempty name t0 t1 a b z0 z1 rgb0 rgb1 nan Hcheck)
    as (m & M & adj_last & _ & _ & ->). cbv zeta.
  set (x0 := adjust (scalar t0 m) (scalar t1 M) (mkarray t0 (a :: z0))).
  assert (Hx : List.length (x0 ++ [adj_last]) = S (len (a :: z0)))
    by (unfold x0, adjust, len; cbn [values];
        rewrite length_app, length_map; simpl; lia).
  unfold len at 1. rewrite add_rows_short; [reflexivity|].
  rewrite Hx, length_app. unfold len in *. cbn [List.length] in *. lia.
Qed.

Lemma init_too_few_colours_sample :
  __init__ "short" (mkarray int64 [0; 1; 2]) (mkarray int64 [1; 2; 3])
           [(0, 0, 0); (9, 9, 9)]
           [(1, 1, 1); (2, 2, 2); (3, 3, 3)] (Some [0; 0; 0; 0])
  = Raise (IndexError "list index out of range").
Proof.
  apply (@init_too_few_colours "short" (mkarray int64 [0; 1; 2])
           (mkarray int64 [1; 2; 3])
           [(0, 0, 0); (9, 9, 9)] [(1, 1, 1); (2, 2, 2); (3, 3, 3)]
           (Some [0; 0; 0; 0])).
  - left. reflexivity.
  - discriminate.
  - discriminate.
  - left. unfold len. simpl. lia.
Defined.

(** X4. When the length check lets the input through and a z sequence is
    empty, the constructor raises the [ValueError] of the minimum or
    maximum of an empty array: no palette has an empty domain. *)
Theorem init_empty_z (name : string) (z0 z1 : ndarray)
    (rgb0 rgb1 : list RGB) (nan : option (list Q)) :
  len (values z0) = len (values z1) \/ len (values z1) = len rgb0
  \/ len rgb0 = len rgb1 ->
  values z0 = [] \/ values z1 = [] ->
  __init__ name z0 z1 rgb0 rgb1 nan
  = Raise (ValueError "zero-size array to reduction operation").
Proof.
  intros Hcheck Hempty. apply length_check_passes in Hcheck.
  unfold __init__. rewrite Hcheck.
  destruct Hempty as [-> | ->]; [reflexivity|].
  now destruct (values z0).
Qed.

Lemma init_empty_z_sample :
  __init__ "empty" (mkarray float64 []) (mkarray float64 []) [] []
           (Some [0; 0; 0; 0])
  = Raise (ValueError "zero-size array to reduction operation").
Proof.
  apply (@init_empty_z "empty" (mkarray float64 []) (mkarray float64 [])
           [] [] (Some [0; 0; 0; 0])).
  - left. reflexivity.
  - left. reflexivity.
Defined.

Lemma create_lookup_table_bad_start (n : nat) (first : row)
    (rest : list row) :
  xeqb (row_x first) (Fin 0) = false ->
  _create_lookup_table n (first :: rest)
  = Raise (ValueError
      "data mapping points must start with x=0 and end with x=1").
Proof.
  intro H. unfold _create_lookup_table.
  cbn [map getitem nth_error bind].
  assert (Hlast : exists l, getlast (row_x first :: map row_x rest) = Ok l).
  { unfold getlast. destruct (rev _) eqn:Er; [|eexists; reflexivity].
    apply (f_equal (@List.length _)) in Er.
    rewrite length_rev in Er. discriminate. }
  destruct Hlast as (l & ->). cbn [bind].
  unfold xneb. now rewrite H.
Qed.

Lemma degenerate_position (t0 t1 tz : dtype) (a m M : Q) :
  m == M ->
  xeqb (val (true_divide (num_sub (scalar tz a) (scalar t0 m))
                         (num_sub (scalar t1 M) (scalar t0 m))))
       (Fin 0) = false.
Proof.
  intro H.
  assert (Hr : M + - m == 0) by (rewrite H; ring).
  unfold true_divide. cbn [val].
  rewrite (@num_sub_zero (scalar t1 M) (scalar t0 m) (M + - m) eq_refl Hr).
  destruct (val (num_sub (scalar tz a) (scalar t0 m))) as [d| | |];
    cbn [xdiv]; rewrite ?(@Qeq_bool_true _ _ Hr).
  - destruct (Qeq_bool d 0); [reflexivity|]. now destruct (Qltb d 0).
  - now destruct (Qltb (M + - m) 0).
  - now destruct (Qltb (M + - m) 0).
  - reflexivity.
Qed.

(** X5. A palette the constructor builds with min(z0) equal to max(z1)
    answers no query: its positions are not numbers between 0 and 1, and
    every call of [getDataColor] raises the [ValueError] of the
    colormap. *)
Theorem getDataColor_degenerate_constructed (name : string)
    (z0 z1 : ndarray) (rgb0 rgb1 : list RGB) (nan : option (list Q))
    (p : ColorPalette) (m M : Q) (value : num) :
  __init__ name z0 z1 rgb0 rgb1 nan = Ok p ->
  array_min (values z0) = Ok m -> array_max (values z1) = Ok M ->
  m == M ->
  getDataColor p value
  = Raise (ValueError
      "data mapping points must start with x=0 and end with x=1").
Proof.
  destruct z0 as [t0 z0], z1 as [t1 z1]. cbn [values].
  intros Hinit Hmin Hmax HmM.
  destruct (negb (len z0 =? len z1)%nat && negb (len z1 =? len rgb0)%nat
            && negb (len rgb0 =? len rgb1)%nat) eqn:Hcheck;
    [unfold __init__ in Hinit; cbn [values] in Hinit;
     rewrite Hcheck in Hinit; discriminate|].
  destruct z0 as [|a z0]; [discriminate|].
  destruct z1 as [|b z1]; [discriminate|].
  destruct (init_nonempty name t0 t1 a b z0 z1 rgb0 rgb1 nan Hcheck)
    as (m' & M' & adj_last & Hm' & HM' & Heq).
  rewrite Hmin in Hm'. rewrite Hmax in HM'.
  injection Hm' as <-. injection HM' as <-.
  rewrite Heq in Hinit. cbv zeta in Hinit.
  set (x := (adjust (scalar t0 m) (scalar t1 M) (mkarray t0 (a :: z0))
             ++ [adj_last])%list) in *.
  destruct (foldM _ (seq 0 (len x)) _) as [cd|] eqn:Ef;
    cbn [bind] in Hinit; [|discriminate].
  assert (Hred : exists first rest, red cd = first :: rest
                   /\ row_x first
                      = val (true_divide
                               (num_sub (scalar t0 a) (scalar t0 m))
                               (num_sub (scalar t1 M) (scalar t0 m)))).
  { destruct (le_lt_dec (List.length x) (List.length (rgb0 ++ [(E, E, E)])))
      as [H0|H0];
      [destruct (le_lt_dec (List.length x)
                   (List.length ((B, B, B) :: rgb1))) as [H1|H1]|].
    - unfold len in Ef.
      rewrite (@add_rows_prefix x _ _ (List.length x) (Nat.le_refl _) H0 H1)
        in Ef.
      injection Ef as <-. cbn [red]. rewrite firstn_all.
      unfold x. cbn [adjust values dtype_of map app rows].
      destruct (rgb0 ++ [(E, E, E)])%list as [|c0 r0] eqn:E0;
        [destruct rgb0; discriminate|].
      cbn [rows]. do 2 eexists. split; reflexivity.
    - unfold len in Ef. rewrite add_rows_short in Ef by now right.
      discriminate.
    - unfold len in Ef. rewrite add_rows_short in Ef by now left.
      discriminate. }
  destruct Hred as (first & rest & Hred & Hx0).
  unfold set_bad in Hinit.
  destruct (to_rgba nan) as [c|]; cbn [bind] in Hinit; [|discriminate].
  injection Hinit as <-.
  unfold getDataColor, vmin, vmax, cmap, num_div, call.
  cbn [_vmin _vmax _cmap].
  rewrite !num_sub_is_np. cbn [scalar is_np].
  rewrite !orb_true_r. cbn [orb bind N _segmentdata new mpl.name].
  rewrite Hred, create_lookup_table_bad_start; [reflexivity|].
  rewrite Hx0. now apply degenerate_position.
Qed.

Lemma getDataColor_degenerate_constructed_sample :
  exists p,
    __init__ "flat" (mkarray int64 [0]) (mkarray int64 [0])
             [(0, 0, 0)] [(255, 255, 255)] (Some [0; 0; 0; 0]) = Ok p /\
    getDataColor p (py 0)
    = Raise (ValueError
        "data mapping points must start with x=0 and end with x=1").
Proof.
  eexists. split; [vm_compute; reflexivity|].
  apply (@getDataColor_degenerate_constructed "flat" (mkarray int64 [0])
           (mkarray int64 [0]) [(0, 0, 0)]
           [(255, 255, 255)] (Some [0; 0; 0; 0]) _ 0 0 (py 0));
    [vm_compute; reflexivity | reflexivity | reflexivity | reflexivity].
Defined.

End ConstructorErrors.

Section PaletteSources.

Import mpl cpalette cpalette_spec cpalette_samples more_samples.
Import cpalette_facts cpalette_more monad_facts.
Open Scope Q_scope.

(** The boundary and nan colours of the palette of the [fromFile]
    docstring, out of its domain [0,3]. *)
Lemma getDataColor_clamps_sample :
  exists p,
    __init__ "test" (mkarray int64 [0; 1; 2]) (mkarray int64 [1; 2; 3])
             sample_rgb0 sample_rgb1 (Some [0; 0; 0; 0]) = Ok p /\
    getDataColor p (py (-5)) = Ok (scaled (0, 0, 0)) /\
    getDataColor p (py_int 7) = Ok (scaled (255, 255, 255)) /\
    getDataColor p (np NaN) = Ok (Fin 0, Fin 0, Fin 0, Fin 0).
Proof.
  destruct (@getDataColor_clamps "test" int64 int64 [0; 1; 2] [1; 2; 3]
              sample_rgb0 sample_rgb1 (Some [0; 0; 0; 0])
              (Fin 0, Fin 0, Fin 0, Fin 0) 0 3 (0, 0, 0) (255, 255, 255))
    as (p & Hp & Hlow & Hhigh & _ & _ & Hnan);
    try reflexivity.
  - unfold ascending. repeat split; repeat constructor; discriminate.
  - split; vm_compute; discriminate.
  - unfold byte_range. simpl. repeat split; discriminate.
  - unfold byte_range. simpl. repeat split; discriminate.
  - exists p. repeat split.
    + exact Hp.
    + apply (Hlow false false); vm_compute; discriminate.
    + apply (Hhigh false true 7); vm_compute; discriminate.
    + apply (Hnan true).
Defined.

(** In any world of files, the file of the docstring gives a palette
    named [generic]. *)
Lemma fromFile_name_sample :
  exists p,
    fromFile (fun _ => Ok sample_frame) sample_lines = Ok p /\
    mpl.name (cmap p) = "generic"%string.
Proof.
  eexists. split; [vm_compute; reflexivity|].
  apply (@fromFile_name (fun _ => Ok sample_frame) sample_lines).
  vm_compute. reflexivity.
Defined.

(** X6. [fromPreset] returns a palette exactly for the names
    [getPresets] lists, and raises the exception that names the preset
    for every other name. *)
Theorem fromPreset_names (preset : string) :
  (is_ok (fromPreset preset) = true <-> In preset getPresets)
  /\ (~ In preset getPresets <->
      fromPreset preset
      = Raise (Exception ("Preset " ++ preset
                          ++ " not in list of supported presets."))).
Proof.
  unfold fromPreset, getPresets, PALETTES. cbn [map fst lookup In].
  destruct (String.eqb preset "mmi") eqn:Emmi.
  - apply String.eqb_eq in Emmi. subst preset.
    split; split; try (intros _; now left);
      try (intros _; vm_compute; reflexivity).
    + intro H. exfalso. apply H. now left.
    + vm_compute. discriminate.
  - destruct (String.eqb preset "pop") eqn:Epop.
    + apply String.eqb_eq in Epop. subst preset.
      split; split; try (intros _; right; now left);
        try (intros _; vm_compute; reflexivity).
      * intro H. exfalso. apply H. right. now left.
      * vm_compute. discriminate.
    + apply String.eqb_neq in Emmi, Epop.
      split; split; cbn [is_ok]; try discriminate; try reflexivity.
      * intros [H|[H|[]]]; congruence.
      * intros _ [H|[H|[]]]; congruence.
Qed.

(** X7. A palette file none of whose lines starts with [#$nan_color]
    gives the palette the constructor builds from the table under the
    name [generic] with the fully transparent nan colour (0,0,0,0). *)
Theorem fromFile_defaults
    (read_table : list string -> result palette_frame)
    (lines : list string) :
  (forall line, In line lines ->
                pystr.startswith line "#$nan_color" = false) ->
  fromFile read_table lines
  = (df <- read_table lines ;;
     __init__ "generic" (Z0 df) (Z1 df)
              (zip3 (R0 df) (G0 df) (B0 df)) (zip3 (R1 df) (G1 df) (B1 df))
              (Some [0; 0; 0; 0])).
Proof.
  intro H. unfold fromFile.
  rewrite foldM_skip; [reflexivity|].
  intros line Hin. unfold scan_line. now rewrite (H line Hin).
Qed.

Lemma fromFile_defaults_sample :
  fromFile (fun _ => Ok sample_frame) plain_lines
  = __init__ "generic" (mkarray int64 [0; 1; 2])
             (mkarray int64 [1; 2; 3]) sample_rgb0 sample_rgb1
             (Some [0; 0; 0; 0]).
Proof.
  apply (@fromFile_defaults (fun _ => Ok sample_frame) plain_lines).
  intros line Hin.
  repeat (destruct Hin as [<-|Hin]; [reflexivity|]). destruct Hin.
Defined.

Lemma split_no_separator (sep : ascii) (l : list ascii) :
  forall cur,
    forallb (fun c => negb (Ascii.eqb c sep)) l = true ->
    pystr.split_chars sep cur l = [pystr.str (rev cur ++ l)].
Proof.
  induction l as [|c l IH]; intros cur H; cbn [pystr.split_chars].
  - now rewrite app_nil_r.
  - cbn [forallb] in H. apply andb_prop in H. destruct H as (Hc & Hl).
    rewrite negb_true_iff in Hc. rewrite Hc, IH by exact Hl.
    cbn [rev]. now rewrite <- app_assoc.
Qed.

Lemma forallb_skipn {A : Type} (f : A -> bool) (n : nat) :
  forall l, forallb f l = true -> forallb f (skipn n l) = true.
Proof.
  induction n as [|n IH]; intros [|a l] H; try assumption.
  cbn [skipn]. apply IH. cbn [forallb] in H.
  now apply andb_prop in H.
Qed.

(** X8. A first line that starts with [#$nan_color] and holds no colon
    makes [fromFile] raise [IndexError], whatever the table: the
    directive is split at colons and its second part is taken. *)
Theorem fromFile_directive_without_colon
    (read_table : list string -> result palette_frame)
    (line : string) (rest : list string) :
  pystr.startswith line "#$nan_color" = true ->
  forallb (fun c => negb (Ascii.eqb c ":")) (pystr.chars line) = true ->
  fromFile read_table (line :: rest)
  = Raise (IndexError "list index out of range").
Proof.
  intros Hstart Hcolon. unfold fromFile. cbn [foldM].
  unfold scan_line at 1. rewrite Hstart.
  unfold pystr.split, pystr.from, pystr.chars, pystr.str.
  rewrite list_ascii_of_string_of_list_ascii.
  rewrite split_no_separator by (now apply forallb_skipn).
  reflexivity.
Qed.

Lemma fromFile_directive_without_colon_sample :
  fromFile (fun _ => Ok sample_frame) broken_lines
  = Raise (IndexError "list index out of range").
Proof.
  apply (@fromFile_directive_without_colon (fun _ => Ok sample_frame)
           ("#$nan_color 0,0,0,0" ++ pystr.nl)%string
           (tl broken_lines)); reflexivity.
Defined.

End PaletteSources.

(* ================================================================= *)
(** * Further properties of the station tables *)

Module move_facts.

Import pandas table table_more_spec.
Open Scope string_scope.

Lemma below_26 (P : nat -> bool) :
  forallb P (seq 0 26) = true -> forall i, (i < 26)%nat -> P i = true.
Proof.
  intros H i Hi. rewrite forallb_forall in H. apply H.
  apply in_seq. lia.
Qed.

(** Every single-letter column is found at its own index. *)
Lemma index_of_letter (i : nat) :
  (i < 26)%nat ->
  index_of (letter i) (pystr.chars letters) 0 = Some i.
Proof.
  intro H.
  apply (below_26 (fun i =>
           match index_of (letter i) (pystr.chars letters) 0 with
           | Some j => Nat.eqb j i
           | None => false
           end)) in H.
  - destruct (index_of _ _ _); [|discriminate].
    apply Nat.eqb_eq in H. now subst.
  - vm_compute. reflexivity.
Qed.

Lemma char_at_in_range (k : Z) :
  (0 <= k < 26)%Z ->
  exists c, char_at letters k = Ok c
            /\ letter (Z.to_nat k) = String c EmptyString.
Proof.
  intro Hk. unfold char_at, letter.
  replace (k <? 0)%Z with false by (symmetry; apply Z.ltb_ge; lia).
  cbv zeta.
  replace (k <? 0)%Z with false by (symmetry; apply Z.ltb_ge; lia).
  assert (Hi : (Z.to_nat k < 26)%nat) by lia.
  apply (below_26 (fun i => match String.get i letters with
                            | Some _ => true
                            | None => false
                            end)) in Hi; [|vm_compute; reflexivity].
  destruct (String.get (Z.to_nat k) letters) as [c|]; [|discriminate].
  now exists c.
Qed.

Lemma char_at_wraps (k : Z) :
  (-26 <= k < 0)%Z -> char_at letters k = char_at letters (k + 26).
Proof.
  intro Hk. unfold char_at.
  replace (k <? 0)%Z with true by (symmetry; apply Z.ltb_lt; lia).
  replace (k + 26 <? 0)%Z with false by (symmetry; apply Z.ltb_ge; lia).
  reflexivity.
Qed.

Lemma get_beyond (s : string) (n : nat) :
  (String.length s <= n)%nat -> String.get n s = None.
Proof.
  revert n. induction s as [|c s IH]; intros n Hn; [reflexivity|].
  destruct n as [|n]; cbn in *; [lia|]. apply IH. lia.
Qed.

Lemma char_at_outside (k : Z) :
  (k < -26 \/ 26 <= k)%Z ->
  char_at letters k = Raise (IndexError "string index out of range").
Proof.
  intro Hk. unfold char_at.
  change (Z.of_nat (String.length letters)) with 26%Z. cbv zeta.
  destruct (Z.ltb_spec k 0).
  - replace (k + 26 <? 0)%Z with true by (symmetry; apply Z.ltb_lt; lia).
    reflexivity.
  - replace (k <? 0)%Z with false by (symmetry; apply Z.ltb_ge; lia).
    rewrite get_beyond; [reflexivity|].
    change (String.length letters) with 26%nat. lia.
Qed.

End move_facts.

Section MovingCells.

Import pandas table table_more_spec move_facts.
Open Scope string_scope.

(** X11. Moving a cell of one of the columns A to Z by a number of columns
    that stays within A to Z gives the column at the sum of the indices
    and the row at the sum of the rows. *)
Theorem move_within_sheet (i : nat) (row nrows ncols : Z) :
  (i < 26)%nat ->
  (0 <= Z.of_nat i + ncols < 26)%Z ->
  _move (letter i, row) nrows ncols
  = Ok (letter (Z.to_nat (Z.of_nat i + ncols)), (row + nrows)%Z).
Proof.
  intros Hi Hk. unfold _move. rewrite (index_of_letter Hi).
  destruct (char_at_in_range Hk) as [c [Hc Hl]].
  cbv zeta. rewrite Hc, Hl. reflexivity.
Qed.

Lemma move_within_sheet_sample :
  _move ("A", 1%Z) 1 1 = Ok ("B", 2%Z).
Proof.
  apply (@move_within_sheet 0 1 1 1); [lia | cbn; lia].
Defined.

(** X12. For a cell in a row from 1 on and a move that ends in a row
    from 1 on and within the columns A to Z, moving the cell and then
    moving the result back by the opposite amounts gives the cell
    again.  Both cells are coordinates the sheet has; a cell in row 0
    or in a negative row is none, and a move does not accept it. *)
Theorem move_and_back (i : nat) (row nrows ncols : Z) :
  (i < 26)%nat ->
  (0 <= Z.of_nat i + ncols < 26)%Z ->
  (1 <= row)%Z ->
  (1 <= row + nrows)%Z ->
  exists c : coord,
    _move (letter i, row) nrows ncols = Ok c
    /\ (1 <= snd c)%Z
    /\ _move c (- nrows) (- ncols) = Ok (letter i, row).
Proof.
  intros Hi Hk Hrow Hnew. unfold _move at 1. rewrite (index_of_letter Hi).
  destruct (char_at_in_range Hk) as [c [Hc Hl]].
  cbv zeta. rewrite Hc. cbn [bind]. rewrite <- Hl.
  eexists. split; [reflexivity|]. split; [exact Hnew|].
  unfold _move. rewrite index_of_letter by lia.
  assert (Hb : (0 <= Z.of_nat (Z.to_nat (Z.of_nat i + ncols)) + - ncols < 26)%Z)
    by lia.
  destruct (char_at_in_range Hb) as [c' [Hc' Hl']].
  cbv zeta. rewrite Hc'. cbn [bind]. rewrite <- Hl'.
  apply f_equal, f_equal2; [f_equal; lia | lia].
Qed.

Lemma move_and_back_sample :
  exists c : coord,
    _move ("C", 4%Z) 2 5 = Ok c
    /\ (1 <= snd c)%Z
    /\ _move c (- 2) (- 5) = Ok ("C", 4%Z).
Proof.
  apply (@move_and_back 2 4 2 5); [lia | cbn; lia | lia | lia].
Defined.

(** X13. A move that would end to the right of column Z fails with an index
    error, which the function does not turn into its own message; a move
    that would end up to 26 columns to the left of column A does not fail
    but wraps around to the end of the alphabet. *)
Theorem move_outside_sheet (i : nat) (row nrows ncols : Z) :
  (i < 26)%nat ->
  ((26 <= Z.of_nat i + ncols)%Z ->
   _move (letter i, row) nrows ncols
   = Raise (IndexError "string index out of range"))
  /\ ((-26 <= Z.of_nat i + ncols < 0)%Z ->
      _move (letter i, row) nrows ncols
      = Ok (letter (Z.to_nat (Z.of_nat i + ncols + 26)), (row + nrows)%Z)).
Proof.
  intros Hi. split; intro Hk; unfold _move; rewrite (index_of_letter Hi);
    cbv zeta.
  - rewrite char_at_outside by lia. reflexivity.
  - rewrite char_at_wraps by lia.
    assert (Hb : (0 <= Z.of_nat i + ncols + 26 < 26)%Z) by lia.
    destruct (char_at_in_range Hb) as [c [Hc Hl]].
    rewrite Hc, Hl. reflexivity.
Qed.

Lemma move_outside_sheet_sample :
  _move ("Z", 1%Z) 0 1 = Raise (IndexError "string index out of range")
  /\ _move ("A", 1%Z) 0 (-1) = Ok ("Z", 1%Z).
Proof.
  split.
  - apply (@move_outside_sheet 25 1 0 1); [lia | cbn; lia].
  - apply (@move_outside_sheet 0 1 0 (-1)); [lia | cbn; lia].
Defined.

End MovingCells.

Module channel_facts.

Import pandas table table_more_spec.
Open Scope string_scope.

Lemma get_within (s : string) (n : nat) :
  (n < String.length s)%nat -> exists c, String.get n s = Some c.
Proof.
  revert n. induction s as [|c s IH]; intros n Hn; cbn in Hn; [lia|].
  destruct n as [|n]; cbn; [now exists c|]. apply IH. lia.
Qed.

Lemma last_char (s : string) :
  s <> "" -> exists c, char_at s (-1) = Ok c.
Proof.
  intro Hs. unfold char_at. cbv zeta.
  assert (Hl : (0 < String.length s)%nat)
    by (destruct s; [congruence | cbn; lia]).
  change (-1 <? 0)%Z with true. cbv iota.
  replace (-1 + Z.of_nat (String.length s) <? 0)%Z with false
    by (symmetry; apply Z.ltb_ge; lia).
  destruct (@get_within s (Z.to_nat (-1 + Z.of_nat (String.length s))))
    as [c Hc]; [lia|].
  rewrite Hc. now exists c.
Qed.

(** The loop of [_translate_imt] is a search for the first column that
    carries the period. *)
Lemma find_period_find (q : Q) (l : list string) :
  find_period (nearest_float64 q) l = find (period_column q) l.
Proof.
  induction l as [|imt l IH]; [reflexivity|].
  cbn [find_period find]. unfold period_column at 1.
  destruct (pystr.startswith imt "SA"); cbn [negb andb]; [|exact IH].
  destruct (re.search FLOATRE imt) as [g|]; [|exact IH].
  unfold float_. destruct (decimal g) as [x|]; [|exact IH].
  now destruct (xeqb (nearest_float64 x) (nearest_float64 q)).
Qed.

End channel_facts.

Section ChannelNames.

Import pandas table table_more_spec table_facts channel_facts.
Open Scope string_scope.

(** X14. The check of the channel grouping does not depend on the order in
    which the channels, a set in the source, are enumerated. *)
Theorem valid_channels_any_order (c1 c2 : list string) :
  Permutation c1 c2 -> valid_channels c1 = valid_channels c2.
Proof.
  intro H. unfold valid_channels, len.
  rewrite (Permutation_length H), (check_groups_perm _ H). reflexivity.
Qed.

Lemma valid_channels_any_order_sample :
  valid_channels ["HHE"; "HHN"; "XX9"] = valid_channels ["XX9"; "HHN"; "HHE"].
Proof.
  apply (@valid_channels_any_order ["HHE"; "HHN"; "XX9"]
                                   ["XX9"; "HHN"; "HHE"]).
  apply Permutation_rev.
Defined.

(** X15. Every channel the writers select is one of the candidate columns
    and is not the empty text, so that the last character, from which
    the XML writer takes the orientation, is always there. *)
Theorem get_channels_named (columns : list string) (c : string) :
  In c (_get_channels columns) ->
  In c columns /\ c <> "" /\ exists last, char_at c (-1) = Ok last.
Proof.
  intro H. unfold _get_channels in H. apply filter_In in H.
  destruct H as [Hin Hm].
  assert (Hc : c <> "") by (intros ->; vm_compute in Hm; discriminate).
  repeat split; [exact Hin | exact Hc | now apply last_char].
Qed.

Lemma get_channels_named_sample :
  In "HHZ" ["LAT"; "HHZ"; "H1"] /\ "HHZ" <> ""
  /\ exists last, char_at "HHZ" (-1) = Ok last.
Proof.
  apply (@get_channels_named ["LAT"; "HHZ"; "H1"] "HHZ").
  vm_compute. left. reflexivity.
Defined.

(** X16. For the spectral kinds psa03, psa10 and psa30 the translation
    returns the first column whose name starts with SA and whose first
    number is, as a double, the double nearest to the period 0.3, 1 or
    3; when no column is such, it fails on its unassigned result.  The
    numbers are compared as doubles: a column named with
    0.30000000000000001 carries the period 0.3. *)
Theorem translate_imt_spectral (pgm : string) (period : Q)
    (imtlist : list string) :
  spectral_period pgm = Some period ->
  _translate_imt pgm imtlist
  = match find (period_column period) imtlist with
    | Some imt => Ok imt
    | None => Raise (UnboundLocalError "newimt")
    end.
Proof.
  unfold spectral_period. intro H.
  destruct (String.eqb_spec pgm "psa03") as [->|_];
    [|destruct (String.eqb_spec pgm "psa10") as [->|_];
      [|destruct (String.eqb_spec pgm "psa30") as [->|_];
        [|discriminate]]];
    injection H as <-;
    unfold _translate_imt;
    match goal with
    | |- context [mem ?a ?b] =>
        let v := eval vm_compute in (mem a b) in
        change (mem a b) with v; cbv iota
    end;
    match goal with
    | |- context [re.search ?a ?b] =>
        let v := eval vm_compute in (re.search a b) in
        change (re.search a b) with v; cbv iota
    end;
    match goal with
    | |- context [float_ ?a] =>
        let v := eval vm_compute in (float_ a) in
        change (float_ a) with v; cbv iota zeta
    end;
    match goal with
    | |- context [find_period ?p _] =>
        match goal with
        | |- context [period_column ?q] =>
            replace p with (nearest_float64 q)
              by (vm_compute; reflexivity)
        end
    end;
    rewrite find_period_find; reflexivity.
Qed.

Lemma translate_imt_spectral_sample :
  _translate_imt "psa03" ["PGA"; "SA(1.0)"; "SA(0.3)"; "SA(0.30)"]
  = Ok "SA(0.3)"
  /\ _translate_imt "psa03" ["SA(3.0)"; "SA(0.30000000000000001)"; "SA(0.3)"]
     = Ok "SA(0.30000000000000001)"
  /\ _translate_imt "psa03" ["SA(0.3000000000000001)"]
     = Raise (UnboundLocalError "newimt").
Proof.
  split; [|split].
  - apply (@translate_imt_spectral "psa03" (3 # 10)
             ["PGA"; "SA(1.0)"; "SA(0.3)"; "SA(0.30)"]).
    reflexivity.
  - apply (@translate_imt_spectral "psa03" (3 # 10)
             ["SA(3.0)"; "SA(0.30000000000000001)"; "SA(0.3)"]).
    reflexivity.
  - apply (@translate_imt_spectral "psa03" (3 # 10)
             ["SA(0.3000000000000001)"]).
    reflexivity.
Defined.

End ChannelNames.

Module row_facts.

Import pandas table table_more_spec.
Open Scope string_scope.

Lemma prefix_app (p s : string) : String.prefix p (p ++ s) = true.
Proof.
  induction p as [|c p IH]; cbn; [now destruct s|].
  destruct (ascii_dec c c); [exact IH | congruence].
Qed.

(** [k in s] holds exactly when [s[k]] does not raise. *)
Lemma has_false_get (s : list (string * cell)) (k : string) :
  has s k = false -> get s k = Raise (KeyError k).
Proof.
  unfold has, get, mem. intro H.
  replace (filter (fun e => String.eqb (fst e) k) s) with (@nil (string * cell));
    [reflexivity|].
  symmetry. induction s as [|[k' c] s IH]; [reflexivity|].
  cbn in *. apply orb_false_iff in H. destruct H as [H1 H2].
  rewrite String.eqb_sym, H1. now apply IH.
Qed.

Lemma has_true_get (s : list (string * cell)) (k : string) :
  has s k = true -> exists v, get s k = Ok v.
Proof.
  unfold has, get, mem. intro H.
  destruct (filter (fun e => String.eqb (fst e) k) s) as [|[k1 c1] l] eqn:E.
  - exfalso. induction s as [|[k' c] s IH]; [discriminate|].
    cbn in *. rewrite String.eqb_sym in H.
    destruct (String.eqb k' k); [discriminate|]. now apply IH.
  - destruct l; eauto.
Qed.

End row_facts.

Section RowValues.

Import pandas table table_more_spec row_facts.
Open Scope string_scope.

Variable w : World.

(** X17. The station code of a row is the stripped station name when
    that starts with the stripped network identifier of the row, and
    the identifier, a dot and the stripped station name otherwise; in
    both cases it starts with the stripped network identifier. *)
Theorem station_code_has_network (tmprow : list (string * cell))
    (code : string) :
  station_code w tmprow = Ok code ->
  exists station netid,
    get tmprow "STATION" = Ok station
    /\ get tmprow "NETID" = Ok (Scalar (CStr netid))
    /\ code = (if pystr.startswith (pystr.strip (str_ w station))
                                   (pystr.strip netid)
               then pystr.strip (str_ w station)
               else pystr.strip netid ++ "." ++ pystr.strip (str_ w station))
    /\ pystr.startswith code (pystr.strip netid) = true.
Proof.
  unfold station_code. intro H.
  destruct (get tmprow "STATION") as [station|] eqn:Hs; [|discriminate].
  cbn [bind] in H.
  destruct (get tmprow "NETID") as [[[netid|]|]|] eqn:Hn;
    try discriminate.
  cbn [bind strip] in H.
  exists station, netid. split; [reflexivity|]. split; [reflexivity|].
  destruct (pystr.startswith (pystr.strip (str_ w station))
                             (pystr.strip netid)) eqn:Hp;
    cbn [negb] in H; injection H as <-.
  - split; [reflexivity | exact Hp].
  - split; [reflexivity | apply prefix_app].
Qed.

(** X18. For the kinds pga and pgv the value written for a channel is the
    cell of the column PGA or PGV below the channel, with four decimals;
    the kind is skipped when the channel has no such column or the cell
    is not a number, and a cell holding text is a type error. *)
Theorem measurement_peak (row : list (string * string * cell))
    (channel pgm : string) (chan : list (string * cell)) :
  mem pgm ["pga"; "pgv"] = true ->
  sub row channel = Ok chan ->
  measurement w row channel pgm
  = match get chan (pystr.upper pgm) with
    | Raise _ => Ok None
    | Ok (Scalar (CNum x)) =>
        if isnan x then Ok None else Ok (Some (format_float w 4 x))
    | Ok (Scalar (CStr _)) =>
        Raise (TypeError "ufunc 'isnan' not supported for the input types")
    | Ok (Group _) =>
        Raise (ValueError "The truth value of a Series is ambiguous")
    end.
Proof.
  intros Hp Hs. unfold measurement. rewrite Hs. cbn [bind].
  assert (Ht : _translate_imt pgm (map fst chan) = Ok (pystr.upper pgm)).
  { unfold _translate_imt.
    replace (mem (pystr.upper pgm) ["PGA"; "PGV"]) with true; [reflexivity|].
    unfold mem in Hp. cbn [existsb] in Hp.
    destruct (String.eqb_spec pgm "pga") as [->|_]; [reflexivity|].
    destruct (String.eqb_spec pgm "pgv") as [->|_]; [reflexivity|].
    discriminate. }
  rewrite Ht. cbn [bind].
  destruct (has chan (pystr.upper pgm)) eqn:Hh.
  - destruct (has_true_get _ _ Hh) as [v Hv]. rewrite Hv. cbn [negb bind].
    destruct v as [[s|x]|g]; reflexivity.
  - rewrite (has_false_get _ _ Hh). reflexivity.
Qed.

End RowValues.

Section RowSamples.

Import pandas table table_samples table_more_spec more_samples.
Open Scope string_scope.

(** The station ABC of the network CI gets the code CI.ABC; the
    station CI.ABC of the same network keeps its name. *)
Lemma station_code_has_network_sample :
  (exists station netid,
      get (droplevel (first_row stations_frame)) "STATION"
      = Ok station
      /\ get (droplevel (first_row stations_frame)) "NETID"
         = Ok (Scalar (CStr netid))
      /\ "CI.ABC"
         = (if pystr.startswith (pystr.strip (str_ w0 station))
                                (pystr.strip netid)
            then pystr.strip (str_ w0 station)
            else pystr.strip netid ++ "." ++ pystr.strip (str_ w0 station))
      /\ pystr.startswith "CI.ABC" (pystr.strip netid) = true)
  /\ (exists station netid,
         get (droplevel (second_row stations_frame)) "STATION"
         = Ok station
         /\ get (droplevel (second_row stations_frame)) "NETID"
            = Ok (Scalar (CStr netid))
         /\ "CI.ABC"
            = (if pystr.startswith (pystr.strip (str_ w0 station))
                                   (pystr.strip netid)
               then pystr.strip (str_ w0 station)
               else pystr.strip netid ++ "."
                    ++ pystr.strip (str_ w0 station))
         /\ pystr.startswith "CI.ABC" (pystr.strip netid) = true)
  /\ get (droplevel (first_row stations_frame)) "STATION"
     = Ok (Scalar (CStr "ABC"))
  /\ get (droplevel (second_row stations_frame)) "STATION"
     = Ok (Scalar (CStr "CI.ABC")).
Proof.
  split; [|split; [|split]].
  - apply (@station_code_has_network w0
             (droplevel (first_row stations_frame)) "CI.ABC").
    vm_compute. reflexivity.
  - apply (@station_code_has_network w0
             (droplevel (second_row stations_frame)) "CI.ABC").
    vm_compute. reflexivity.
  - vm_compute. reflexivity.
  - vm_compute. reflexivity.
Defined.

Lemma measurement_peak_sample :
  measurement w0 (first_row pga_pgv_frame) "HHE" "pgv" = Ok (Some "2.0000").
Proof.
  apply (@measurement_peak w0 (first_row pga_pgv_frame) "HHE" "pgv"
           [("PGA", num 1); ("PGV", num 2)]); vm_compute; reflexivity.
Defined.

End RowSamples.

Module station_facts.

Import pandas table table_more_spec.
Open Scope string_scope.

Lemma mem_In (k : string) (l : list string) : mem k l = true <-> In k l.
Proof.
  unfold mem. rewrite existsb_exists. split.
  - intros [x [Hx He]]. apply String.eqb_eq in He. now subst.
  - intro H. exists k. split; [exact H | apply String.eqb_refl].
Qed.

Lemma mem_app (k : string) (a b : list string) :
  mem k (a ++ b) = mem k a || mem k b.
Proof. unfold mem. apply existsb_app. Qed.

(** What [distinct] returns has no repetition and nothing seen before. *)
Lemma distinct_fresh (l seen : list string) :
  NoDup (distinct seen l)
  /\ forall c, In c (distinct seen l) -> In c l /\ ~ In c seen.
Proof.
  revert seen. induction l as [|c l IH]; intro seen; cbn [distinct].
  - split; [constructor | intros c []].
  - destruct (mem c seen) eqn:Hm.
    + destruct (IH seen) as [Hn Hin]. split; [exact Hn|].
      intros c0 H0. destruct (Hin c0 H0). split; [now right | assumption].
    + destruct (IH (seen ++ [c])%list) as [Hn Hin].
      assert (Hc : ~ In c seen).
      { intro H. apply mem_In in H. congruence. }
      split.
      * constructor; [|exact Hn]. intro H. apply Hin in H.
        destruct H as [_ H]. apply H. apply in_or_app. right. now left.
      * intros c0 [<-|H0]; [split; [now left | exact Hc]|].
        destruct (Hin c0 H0) as [H1 H2]. split; [now right|].
        intro H. apply H2. apply in_or_app. now left.
Qed.

(** A loop that adds one element per code not yet processed adds one
    element per distinct code, in the order of first appearance. *)
Lemma foldM_distinct {R A C : Type}
    (step : list A * list string * C -> R -> result (list A * list string * C))
    (code : R -> result string) (P : A -> string -> Prop) :
  (forall st proc ch r st' proc' ch',
      step (st, proc, ch) r = Ok (st', proc', ch') ->
      exists c, code r = Ok c
        /\ ((mem c proc = true /\ st' = st /\ proc' = proc)
            \/ (mem c proc = false /\ proc' = (proc ++ [c])%list
                /\ exists el, st' = (st ++ [el])%list /\ P el c))) ->
  forall rs st proc ch st' proc' ch',
    foldM step rs (st, proc, ch) = Ok (st', proc', ch') ->
    exists codes new,
      mapM code rs = Ok codes
      /\ st' = (st ++ new)%list
      /\ Forall2 P new (distinct proc codes).
Proof.
  intro Hstep. induction rs as [|r rs IH];
    intros st proc ch st' proc' ch' H; cbn [foldM] in H.
  - injection H as <- <- <-. exists [], [].
    split; [reflexivity|]. split; [now rewrite app_nil_r | constructor].
  - destruct (step (st, proc, ch) r) as [[[st1 proc1] ch1]|] eqn:E;
      [|discriminate]. cbn [bind] in H.
    destruct (Hstep _ _ _ _ _ _ _ E) as [c [Hc Hcase]].
    destruct (IH _ _ _ _ _ _ H) as [codes [new [Hm [Hs Hf]]]].
    cbn [mapM]. rewrite Hc, Hm. cbn [bind].
    destruct Hcase as [[Hmem [-> ->]]|[Hmem [-> [el [-> Hel]]]]].
    + exists (c :: codes), new. split; [reflexivity|].
      split; [exact Hs|]. cbn [distinct]. now rewrite Hmem.
    + exists (c :: codes), (el :: new). split; [reflexivity|].
      split; [now rewrite Hs, <- app_assoc|].
      cbn [distinct]. rewrite Hmem. now constructor.
Qed.

Ltac bind_inv H :=
  repeat match type of H with
         | bind ?c _ = Ok _ =>
             destruct c eqn:?; cbn [bind] in H; [|discriminate H]
         end.

Lemma xml_row_step (w : World) (df : DataFrame)
    (st : list xml) (proc ch : list string) (r : list cell)
    (st' : list xml) (proc' ch' : list string) :
  xml_row w df (st, proc, ch) r = Ok (st', proc', ch') ->
  exists c, station_code w (droplevel (series df r)) = Ok c
    /\ ((mem c proc = true /\ st' = st /\ proc' = proc)
        \/ (mem c proc = false /\ proc' = (proc ++ [c])%list
            /\ exists el, st' = (st ++ [el])%list /\ code_of el = c)).
Proof.
  unfold xml_row. cbv zeta. intro H.
  destruct (station_code w (droplevel (series df r))) as [c|] eqn:Hc;
    [|discriminate]. cbn [bind] in H.
  exists c. split; [reflexivity|].
  destruct (mem c proc) eqn:Hm.
  - injection H as <- <- <-. now left.
  - right. split; [reflexivity|]. bind_inv H.
    destruct (negb (has (droplevel (series df r)) "imt")); bind_inv H;
      injection H as <- <- <-;
      (split; [reflexivity|]); eexists; (split; [reflexivity|]);
      reflexivity.
Qed.

Lemma json_row_step (w : World) (df : DataFrame)
    (st : list json) (proc ch : list string) (r : list cell)
    (st' : list json) (proc' ch' : list string) :
  json_row w df (st, proc, ch) r = Ok (st', proc', ch') ->
  exists c, station_code w (droplevel (series df r)) = Ok c
    /\ ((mem c proc = true /\ st' = st /\ proc' = proc)
        \/ (mem c proc = false /\ proc' = (proc ++ [c])%list
            /\ exists el, st' = (st ++ [el])%list /\ carries_code el c)).
Proof.
  unfold json_row. cbv zeta. intro H.
  destruct (station_code w (droplevel (series df r))) as [c|] eqn:Hc;
    [|discriminate]. cbn [bind] in H.
  exists c. split; [reflexivity|].
  destruct (mem c proc) eqn:Hm.
  - injection H as <- <- <-. now left.
  - right. split; [reflexivity|].
    destruct (json_station w (series df r) c (sorted ch)) as [el|] eqn:Hj;
      [|discriminate]. cbn [bind] in H. injection H as <- <- <-.
    split; [reflexivity|]. exists el. split; [reflexivity|].
    unfold json_station in Hj. cbv zeta in Hj. bind_inv Hj.
    injection Hj as <-. eexists. split; [eassumption|]. reflexivity.
Qed.

End station_facts.

Section WrittenStations.

Import pandas table table_samples table_more_spec more_samples.
Import station_facts.
Open Scope string_scope.

Variable w : World.

(** X19. The XML writer writes to the file it is given one station element
    per distinct station code of the rows, in the order in which the
    codes first appear; no two station elements carry the same code. *)
Theorem xml_one_station_per_code (df : DataFrame) (xmlfile : string)
    (reference : option cell) (file : string) (root : xml) :
  dataframe_to_xml w df xmlfile reference = Ok (file, root) ->
  file = xmlfile
  /\ exists codes, row_codes w df = Ok codes
       /\ station_codes root = distinct [] codes
       /\ NoDup (station_codes root).
Proof.
  unfold dataframe_to_xml. cbv zeta. intro H.
  match type of H with
  | bind ?c _ = _ => destruct c as [l|] eqn:Hr; [|discriminate]
  end.
  cbn [bind] in H.
  match type of H with
  | context [foldM ?f ?l ?s] =>
      destruct (foldM f l s) as [[[st proc] ch]|] eqn:Hf; [|discriminate]
  end.
  cbn [bind] in H. injection H as <- <-. split; [reflexivity|].
  destruct (foldM_distinct (xml_row w df)
              (fun r => station_code w (droplevel (series df r)))
              (fun el c => code_of el = c)
              (@xml_row_step w df) _ _ _ _ Hf)
    as [codes [new [Hm [Hs Hc]]]].
  cbn [app] in Hs. subst st.
  exists codes. split; [exact Hm|].
  assert (Heq : station_codes
                  (Element "shakemap-data"
                     [("code_version", "3.5"); ("map_version", "3")]
                     [Element "stationlist"
                        ([("created", string_of_Z (time w))] ++ l) new])
                = distinct [] codes).
  { cbn [station_codes]. clear -Hc.
    induction Hc as [|el c new0 cs H1 _ IH]; [reflexivity|].
    cbn [map]. now rewrite H1, IH. }
  destruct (distinct_fresh codes []) as [Hn _].
  split; [exact Heq|]. exact (eq_ind_r (@NoDup string) Hn Heq).
Qed.

(** X20. The JSON writer writes to the file test.json, whatever file name
    it is given, one feature per distinct station code of the rows, in
    the order in which the codes first appear; each feature carries the
    part of its station code after the last dot. *)
Theorem json_one_feature_per_code (df : DataFrame) (jsonfile : string)
    (file : string) (geojson : json) :
  dataframe_to_json w df jsonfile = Ok (file, geojson) ->
  file = "test.json"
  /\ exists codes, row_codes w df = Ok codes
       /\ Forall2 carries_code (features geojson) (distinct [] codes).
Proof.
  unfold dataframe_to_json. cbv zeta. intro H.
  match type of H with
  | context [foldM ?f ?l ?s] =>
      destruct (foldM f l s) as [[[st proc] ch]|] eqn:Hf; [|discriminate]
  end.
  cbn [bind] in H. injection H as <- <-. split; [reflexivity|].
  destruct (foldM_distinct (json_row w df)
              (fun r => station_code w (droplevel (series df r)))
              carries_code
              (@json_row_step w df) _ _ _ _ Hf)
    as [codes [new [Hm [Hs Hc]]]].
  cbn [app] in Hs. subst st.
  exists codes. split; [exact Hm | exact Hc].
Qed.

End WrittenStations.

Section WrittenStationsSamples.

Import pandas table table_samples table_more_spec more_samples.
Open Scope string_scope.

Lemma xml_one_station_per_code_sample :
  exists root,
    dataframe_to_xml w0 stations_frame "stations.xml" None
    = Ok ("stations.xml", root)
    /\ station_codes root = ["CI.ABC"; "CI.XYZ"].
Proof.
  eexists. split; [vm_compute; reflexivity|].
  match goal with
  | |- station_codes ?root = _ =>
      destruct (@xml_one_station_per_code w0 stations_frame "stations.xml"
                  None "stations.xml" root)
        as [_ [codes [Hc [Hs _]]]]; [vm_compute; reflexivity|]
  end.
  rewrite Hs. vm_compute in Hc. injection Hc as <-. reflexivity.
Defined.

Lemma json_one_feature_per_code_sample :
  exists geojson,
    dataframe_to_json w0 stations_frame "stations.json"
    = Ok ("test.json", geojson)
    /\ len (features geojson) = 2%nat.
Proof.
  eexists. split; [vm_compute; reflexivity|].
  match goal with
  | |- len (features ?j) = _ =>
      destruct (@json_one_feature_per_code w0 stations_frame
                  "stations.json" "test.json" j)
        as [_ [codes [Hc Hf]]]; [vm_compute; reflexivity|]
  end.
  vm_compute in Hc. injection Hc as <-.
  apply Forall2_length in Hf. exact Hf.
Defined.

End WrittenStationsSamples.

Module read_facts.

Import pandas table table_spec table_more_spec.
Import monad_facts table_facts station_facts.
Open Scope string_scope.

Lemma mapM_ok_in {A B : Type} (f : A -> result B) (l : list A)
    (l' : list B) :
  mapM f l = Ok l' ->
  forall b, In b l' -> exists a, In a l /\ f a = Ok b.
Proof.
  revert l'. induction l as [|a l IH]; intros l' H b Hb; cbn [mapM] in H.
  - injection H as <-. destruct Hb.
  - destruct (f a) as [b0|] eqn:Ea; [|discriminate]. cbn [bind] in H.
    destruct (mapM f l) as [bs|] eqn:El; [|discriminate]. cbn [bind] in H.
    injection H as <-. destruct Hb as [<-|Hb].
    + exists a. split; [now left | exact Ea].
    + destruct (IH bs eq_refl b Hb) as [a' [Hin Ha']].
      exists a'. split; [now right | exact Ha'].
Qed.

Lemma mapM_length {A B : Type} (f : A -> result B) (l : list A)
    (l' : list B) :
  mapM f l = Ok l' -> List.length l' = List.length l.
Proof.
  revert l'. induction l as [|a l IH]; intros l' H; cbn [mapM] in H.
  - now injection H as <-.
  - destruct (f a) as [b0|]; [|discriminate]. cbn [bind] in H.
    destruct (mapM f l) as [bs|]; [|discriminate]. cbn [bind] in H.
    injection H as <-. cbn. now rewrite (IH bs eq_refl).
Qed.

(** A row rewritten cell by cell keeps its labels. *)
Lemma mapM_combine {L : Type} (g : L * cell -> result cell)
    (cols : list L) :
  forall (r r' : list cell),
    mapM g (combine cols r) = Ok r' ->
    forall e', In e' (combine cols r') ->
      exists c, In (fst e', c) (combine cols r)
                /\ g (fst e', c) = Ok (snd e').
Proof.
  induction cols as [|l cols IH]; intros r r' H e' He'; [destruct He'|].
  destruct r as [|c r]; cbn [combine mapM] in H.
  - injection H as <-. destruct He'.
  - destruct (g (l, c)) as [c'|] eqn:Eg; [|discriminate].
    cbn [bind] in H.
    destruct (mapM g (combine cols r)) as [cs|] eqn:Em; [|discriminate].
    cbn [bind] in H. injection H as <-. cbn [combine] in He'.
    destruct He' as [<-|He'].
    + exists c. split; [now left | exact Eg].
    + destruct (IH r cs Em e' He') as [c0 [Hin Hg]].
      exists c0. split; [now right | exact Hg].
Qed.

Lemma to_float_number (w : World) (c c' : cell) :
  to_float w c = Ok c' -> exists x, c' = CNum x.
Proof.
  destruct c as [s|x]; cbn [to_float].
  - destruct (re.search _ s); [intros [= <-]; eauto|].
    destruct (float_of_text w s); [intros [= <-]; eauto | discriminate].
  - intros [= <-]; eauto.
Qed.

Lemma to_float_keeps (w : World) (c c' : cell) (x : xfloat) :
  to_float w c = Ok c' -> c = CNum x -> c' = CNum x.
Proof. intros H ->. cbn in H. now injection H as <-. Qed.

Lemma coerce_column_numeric (w : World) (channel column : string)
    (df df' : DataFrame) (P : string * string -> Prop) :
  coerce_column w channel column df = Ok df' ->
  numeric_at P df ->
  numeric_at (fun l => P l \/ l = (channel, column)) df'.
Proof.
  unfold coerce_column. intros H HP.
  match type of H with
  | bind (mapM ?F ?l) _ = _ =>
      destruct (mapM F l) as [rows'|] eqn:Em; [|discriminate]
  end.
  cbn [bind] in H. injection H as <-.
  intros r' e' Hr' He' Hl. cbn [rows] in Hr'.
  unfold series in He'. cbn [columns] in He'.
  destruct (@mapM_ok_in _ _ _ _ _ Em r' Hr') as [r [Hr Hrow]].
  destruct (@mapM_combine _ _ _ _ _ Hrow e' He') as [c [Hc Hg]].
  cbn [fst snd] in Hg.
  destruct (String.eqb (fst (fst e')) channel
            && String.eqb (snd (fst e')) column) eqn:Hb.
  - now apply to_float_number in Hg.
  - injection Hg as <-.
    destruct Hl as [Hl|Hl].
    + destruct (HP r (fst e', c) Hr Hc Hl) as [x Hx]. now exists x.
    + rewrite Hl in Hb. cbn [fst snd] in Hb.
      now rewrite !String.eqb_refl in Hb.
Qed.

Lemma coerce_pgm_numeric (w : World) (channel column : string)
    (df df' : DataFrame) (found found' : bool)
    (P : string * string -> Prop) :
  multi df = true ->
  coerce_pgm w channel (df, found) column = Ok (df', found') ->
  numeric_at P df ->
  numeric_at (fun l => P l \/ l = (channel, column)) df'.
Proof.
  intros Hm H HP. unfold coerce_pgm in H. rewrite Hm in H.
  destruct (mem column (subcolumns df channel)) eqn:Hc.
  - destruct (coerce_column w channel column df) as [df1|] eqn:E;
      [|discriminate]. cbn [bind] in H. injection H as <- <-.
    exact (@coerce_column_numeric w channel column df df1 P E HP).
  - injection H as <- <-. intros r e Hr He [Hl|Hl]; [now apply (HP r)|].
    exfalso. unfold series in He.
    destruct e as [l c]. cbn [fst] in Hl. subst l.
    apply in_combine_l in He.
    assert (Hin : In column (subcolumns df channel)).
    { unfold subcolumns.
      change column with (snd (channel, column)). apply in_map.
      apply filter_In. split; [exact He|]. apply String.eqb_refl. }
    apply mem_In in Hin. congruence.
Qed.

Lemma numeric_at_weaken (P Q : string * string -> Prop) (df : DataFrame) :
  (forall l, Q l -> P l) -> numeric_at P df -> numeric_at Q df.
Proof. intros H HP r e Hr He Hq. apply (HP r e Hr He). now apply H. Qed.

Lemma coerce_columns_numeric (w : World) (channel : string)
    (cols : list string) :
  forall (df df' : DataFrame) (found found' : bool)
         (P : string * string -> Prop),
    multi df = true ->
    foldM (coerce_pgm w channel) cols (df, found) = Ok (df', found') ->
    numeric_at P df ->
    numeric_at (fun l => P l \/ (fst l = channel /\ In (snd l) cols)) df'.
Proof.
  induction cols as [|col cols IH]; intros df df' found found' P Hm H HP;
    cbn [foldM] in H.
  - injection H as <- <-. revert HP. apply numeric_at_weaken.
    intros l [Hl|[_ []]]. exact Hl.
  - destruct (coerce_pgm w channel (df, found) col) as [[df1 found1]|] eqn:E;
      [|discriminate]. cbn [bind] in H.
    pose proof (coerce_pgm_spec w channel col df found) as Hs.
    rewrite E in Hs. destruct Hs as [[Hm1 _] _].
    pose proof (@coerce_pgm_numeric w channel col df df1 found found1 P
                  Hm E HP) as H1.
    assert (Hm' : multi df1 = true) by congruence.
    pose proof (IH df1 df' found1 found' _ Hm' H H1) as H2.
    revert H2. apply numeric_at_weaken.
    intros [t s] [Hl|[Ht Hin]]; cbn [fst snd] in *;
      [|destruct Hin as [<-|Hin]].
    + left. now left.
    + left. right. now subst.
    + right. now split.
Qed.

Lemma coerce_channels_numeric (w : World) (channels : list string) :
  forall (df df' : DataFrame) (found found' : bool)
         (P : string * string -> Prop),
    multi df = true ->
    foldM (coerce_channel w) channels (df, found) = Ok (df', found') ->
    numeric_at P df ->
    numeric_at (fun l => P l \/ (In (fst l) channels
                                 /\ In (snd l) PGM_COLS)) df'.
Proof.
  induction channels as [|ch channels IH];
    intros df df' found found' P Hm H HP; cbn [foldM] in H.
  - injection H as <- <-. revert HP. apply numeric_at_weaken.
    intros l [Hl|[[] _]]. exact Hl.
  - destruct (coerce_channel w (df, found) ch) as [[df1 found1]|] eqn:E;
      [|discriminate]. cbn [bind] in H. unfold coerce_channel in E.
    pose proof (coerce_columns_spec w ch PGM_COLS df found) as Hs.
    rewrite E in Hs. destruct Hs as [[Hm1 _] _].
    pose proof (@coerce_columns_numeric w ch PGM_COLS df df1 found found1 P
                  Hm E HP) as H1.
    assert (Hm' : multi df1 = true) by congruence.
    pose proof (IH df1 df' found1 found' _ Hm' H H1) as H2.
    revert H2. apply numeric_at_weaken.
    intros [t s] [Hl|[Hin Hs]]; cbn [fst snd] in *;
      [|destruct Hin as [<-|Hin]].
    + left. now left.
    + left. right. now split.
    + right. split; [exact Hin | exact Hs].
Qed.

Lemma coerce_pgm_rows (w : World) (channel column : string)
    (df df' : DataFrame) (found found' : bool) :
  coerce_pgm w channel (df, found) column = Ok (df', found') ->
  len (rows df') = len (rows df).
Proof.
  unfold coerce_pgm. intro H.
  destruct (multi df).
  - destruct (mem column (subcolumns df channel)).
    + unfold coerce_column in H.
      match type of H with
      | context [mapM ?F ?l] =>
          destruct (mapM F l) as [rows'|] eqn:Em; [|discriminate]
      end.
      cbn [bind] in H. injection H as <- <-. cbn [rows].
      exact (@mapM_length _ _ _ _ _ Em).
    + now injection H as <- <-.
  - destruct (existsb _ _); [discriminate|]. now injection H as <- <-.
Qed.

Lemma coerce_columns_rows (w : World) (channel : string)
    (cols : list string) :
  forall (df df' : DataFrame) (found found' : bool),
    foldM (coerce_pgm w channel) cols (df, found) = Ok (df', found') ->
    len (rows df') = len (rows df).
Proof.
  induction cols as [|col cols IH]; intros df df' found found' H;
    cbn [foldM] in H.
  - now injection H as <- <-.
  - destruct (coerce_pgm w channel (df, found) col) as [[df1 found1]|] eqn:E;
      [|discriminate]. cbn [bind] in H.
    rewrite (IH _ _ _ _ H).
    exact (@coerce_pgm_rows w channel col df df1 found found1 E).
Qed.

Lemma coerce_channels_rows (w : World) (channels : list string) :
  forall (df df' : DataFrame) (found found' : bool),
    foldM (coerce_channel w) channels (df, found) = Ok (df', found') ->
    len (rows df') = len (rows df).
Proof.
  induction channels as [|ch channels IH]; intros df df' found found' H;
    cbn [foldM] in H.
  - now injection H as <- <-.
  - destruct (coerce_channel w (df, found) ch) as [[df1 found1]|] eqn:E;
      [|discriminate]. cbn [bind] in H.
    rewrite (IH _ _ _ _ H).
    exact (@coerce_columns_rows w ch PGM_COLS df df1 found found1 E).
Qed.

(** What a successful [load] returns: the content of B1, and top
    headers that are the first-level labels of the frame and include
    the required columns. *)
Lemma load_ok (wb : Workbook) (df : DataFrame) (top : list string)
    (reference : option cell) :
  load wb = Ok (df, top, reference) ->
  reference = ws wb ("B", 1%Z)
  /\ (forall t, In t top <-> In t (map fst (columns df)))
  /\ forallb (fun c => mem c top) REQUIRED_COLUMNS = true.
Proof.
  unfold load. intro H.
  destruct (ws wb ("A", 1%Z)) as [[s|x]|]; try discriminate.
  cbn [bind] in H.
  destruct (negb (String.eqb (pystr.lower s) "reference"));
    [discriminate|].
  change (_move ("A", 1%Z) 0 1) with (Ok ("B", 1%Z)) in H.
  change (_move ("A", 1%Z) 1 0) with (Ok ("A", 2%Z)) in H.
  cbn [bind] in H.
  change (_move ("A", 2%Z) 1 0) with (Ok ("A", 3%Z)) in H.
  cbn [bind] in H. cbv zeta in H.
  match type of H with
  | bind ?c _ = _ => destruct c as [[df0 top0]|] eqn:E0; [|discriminate]
  end.
  cbn [bind] in H.
  assert (H0 : forall t, In t top0 <-> In t (map fst (columns df0))).
  { destruct (ws wb ("A", 3%Z)).
    - destruct (read_flat wb) as [d|]; [|discriminate].
      cbn [bind] in E0. injection E0 as <- <-. reflexivity.
    - destruct (read_multi wb) as [d|e]; [|destruct e; discriminate].
      cbn [bind] in E0. injection E0 as <- <-.
      intro t. unfold levels0. apply nodup_In. }
  match type of H with
  | bind ?c _ = _ => destruct c as [[df1 top1]|] eqn:E1; [|discriminate]
  end.
  cbn [bind] in H.
  destruct (negb (forallb (fun c => mem c top1) REQUIRED_COLUMNS)) eqn:Hr;
    [discriminate|].
  injection H as <- <- <-.
  split; [reflexivity|]. split; [|now apply negb_false_iff in Hr].
  destruct (negb (mem "STATION" top0)).
  - cbv zeta in E1.
    destruct (multi (station_from_index df0)); [|discriminate].
    injection E1 as <- <-. intro t. unfold levels0. apply nodup_In.
  - injection E1 as <- <-. exact H0.
Qed.

End read_facts.

Section ReadResults.

Import pandas table table_spec table_samples table_more_spec more_samples.
Import table_facts station_facts read_facts.
Open Scope string_scope.

Variable w : World.

(** X21. When a table is read, the reference returned is the content of
    cell B1, and the frame returned has the columns STATION, LAT, LON
    and NETID and the labels and the number of rows of the frame that
    was loaded. *)
Theorem read_excel_returns (wb : Workbook) (df' : DataFrame)
    (reference : option cell) :
  read_excel w wb = Ok (df', reference) ->
  reference = ws wb ("B", 1%Z)
  /\ (forall c, In c REQUIRED_COLUMNS -> In c (map fst (columns df')))
  /\ exists df top,
       load wb = Ok (df, top, reference)
       /\ same_shape df df'
       /\ len (rows df') = len (rows df).
Proof.
  intro H. unfold read_excel in H.
  destruct (load wb) as [[[df top] ref]|] eqn:El; [|discriminate].
  cbn [bind] in H. cbv zeta in H.
  destruct (valid_channels (channel_set top)) as [valid|]; [|discriminate].
  cbn [bind] in H. destruct (negb valid); [discriminate|].
  pose proof (coerce_channels_spec w (channel_set top) df
                (mem "INTENSITY" top)) as Hs.
  destruct (foldM (coerce_channel w) (channel_set top)
                  (df, mem "INTENSITY" top)) as [[df1 found]|] eqn:Ef;
    [|discriminate].
  pose proof (@coerce_channels_rows w _ _ _ _ _ Ef) as Hn.
  cbn [bind] in H. destruct (negb found); [discriminate|].
  injection H as <- <-.
  destruct (@load_ok wb df top ref El) as [Hr [Ht Hq]].
  destruct Hs as [Hshape _].
  split; [exact Hr|]. split.
  - intros c Hc. rewrite forallb_forall in Hq.
    destruct Hshape as [_ [-> _]]. apply Ht. apply mem_In. now apply Hq.
  - exists df, top. split; [reflexivity|]. split; [exact Hshape|].
    exact Hn.
Qed.

(** X22. In a frame that is read from a table grouped by channel, every
    cell of a measurement column (PGA, PGV and the three SA columns)
    below a channel header is a number: texts were converted or
    replaced by NaN, or the reading failed. *)
Theorem read_excel_numeric (wb : Workbook) (df' : DataFrame)
    (reference : option cell) :
  read_excel w wb = Ok (df', reference) ->
  multi df' = true ->
  numeric_cells df'.
Proof.
  intros H Hmulti. unfold read_excel in H.
  destruct (load wb) as [[[df top] ref]|] eqn:El; [|discriminate].
  cbn [bind] in H. cbv zeta in H.
  destruct (valid_channels (channel_set top)) as [valid|]; [|discriminate].
  cbn [bind] in H. destruct (negb valid); [discriminate|].
  pose proof (coerce_channels_spec w (channel_set top) df
                (mem "INTENSITY" top)) as Hs.
  destruct (foldM (coerce_channel w) (channel_set top)
                  (df, mem "INTENSITY" top)) as [[df1 found]|] eqn:Ef;
    [|discriminate].
  cbn [bind] in H. destruct (negb found); [discriminate|].
  injection H as <- <-.
  destruct (@load_ok wb df top ref El) as [_ [Ht _]].
  destruct Hs as [[Hm [Hc _]] _].
  assert (Hnum : numeric_at (fun _ => False) df)
    by (intros r e _ _ []).
  pose proof (@coerce_channels_numeric w (channel_set top) df df1
                (mem "INTENSITY" top) found (fun _ => False)
                ltac:(congruence) Ef Hnum) as Hall.
  intros r e Hr He [Hp [Hq Ho]].
  apply (Hall r e Hr He). right. split; [|exact Hp].
  unfold channel_set, set_minus.
  apply filter_In. split; [|now rewrite Ho].
  apply nodup_In. apply filter_In. split; [|now rewrite Hq].
  apply nodup_In. apply Ht. rewrite <- Hc.
  unfold series in He. destruct e as [l c]. apply in_combine_l in He.
  cbn [fst]. now apply in_map.
Qed.

(** X23. The reading requires the text reference, in any letter case, in
    cell A1: another text there is the key error about the reference
    cells, and an empty cell or a number there is an attribute error. *)
Theorem read_excel_needs_reference (wb : Workbook) :
  (forall s, ws wb ("A", 1%Z) = Some (CStr s) ->
             pystr.lower s <> "reference" ->
             read_excel w wb = Raise MissingReferenceHeader)
  /\ ((forall s, ws wb ("A", 1%Z) <> Some (CStr s)) ->
      read_excel w wb
      = Raise (AttributeError "object has no attribute 'lower'")).
Proof.
  split.
  - intros s Hs Hl. unfold read_excel, load. rewrite Hs. cbn [bind].
    destruct (String.eqb_spec (pystr.lower s) "reference");
      [contradiction | reflexivity].
  - intro Hs. unfold read_excel, load.
    destruct (ws wb ("A", 1%Z)) as [[s|x]|]; try reflexivity.
    now destruct (Hs s).
Qed.

(** X24. A table that is not grouped by channel and has no STATION column
    is not reported as lacking a required column: the reading fails with
    an attribute error on the levels of its columns. *)
Theorem read_excel_flat_without_station (wb : Workbook) (s : string)
    (c : cell) (df : DataFrame) :
  ws wb ("A", 1%Z) = Some (CStr s) ->
  pystr.lower s = "reference" ->
  ws wb ("A", 3%Z) = Some c ->
  read_flat wb = Ok df ->
  multi df = false ->
  mem "STATION" (map fst (columns df)) = false ->
  read_excel w wb
  = Raise (AttributeError "'Index' object has no attribute 'levels'").
Proof.
  intros Ha Hl H3 Hf Hm Hs. unfold read_excel, load.
  rewrite Ha. cbn [bind]. rewrite Hl.
  change (negb ("reference" =? "reference")) with false. cbv iota.
  change (_move ("A", 1%Z) 0 1) with (Ok ("B", 1%Z)).
  change (_move ("A", 1%Z) 1 0) with (Ok ("A", 2%Z)).
  cbn [bind].
  change (_move ("A", 2%Z) 1 0) with (Ok ("A", 3%Z)).
  cbn [bind]. cbv zeta. rewrite H3, Hf. cbn [bind]. rewrite Hs.
  cbn [negb]. cbv zeta.
  change (multi (station_from_index df)) with (multi df). rewrite Hm.
  reflexivity.
Qed.

End ReadResults.

Section ReadSamples.

Import pandas table table_spec table_samples table_more_spec more_samples.
Open Scope string_scope.

Lemma read_excel_returns_sample :
  exists df' reference,
    read_excel w0 (workbook stations_frame) = Ok (df', reference)
    /\ reference = Some (CStr "Smith et al.")
    /\ In "NETID" (map fst (columns df')).
Proof.
  destruct (read_excel w0 (workbook stations_frame)) as [[df' ref]|e] eqn:H;
    [|vm_compute in H; discriminate].
  exists df', ref. split; [reflexivity|].
  destruct (@read_excel_returns w0 (workbook stations_frame) df' ref H)
    as [Hr [Hc _]].
  split; [exact Hr|]. apply Hc. vm_compute. tauto.
Defined.

Lemma read_excel_numeric_sample :
  exists df' reference,
    read_excel w0 (workbook blank_frame) = Ok (df', reference)
    /\ numeric_cells df'.
Proof.
  destruct (read_excel w0 (workbook blank_frame)) as [[df' ref]|e] eqn:H;
    [|vm_compute in H; discriminate].
  exists df', ref. split; [reflexivity|].
  apply (@read_excel_numeric w0 (workbook blank_frame) df' ref H).
  vm_compute in H. injection H as <- _. reflexivity.
Defined.

Lemma read_excel_needs_reference_sample :
  read_excel w0 (titled_workbook (Some (CStr "Stations")))
  = Raise MissingReferenceHeader
  /\ read_excel w0 (titled_workbook None)
     = Raise (AttributeError "object has no attribute 'lower'").
Proof.
  split.
  - apply (@read_excel_needs_reference w0
             (titled_workbook (Some (CStr "Stations")))) with "Stations";
      [reflexivity | vm_compute; discriminate].
  - apply (@read_excel_needs_reference w0 (titled_workbook None)).
    intros s. cbn. discriminate.
Defined.

Lemma read_excel_flat_without_station_sample :
  read_excel w0 flat_workbook
  = Raise (AttributeError "'Index' object has no attribute 'levels'").
Proof.
  apply (@read_excel_flat_without_station w0 flat_workbook "REFERENCE"
           (CStr "ABC") flat_frame); reflexivity.
Defined.

End ReadSamples.
